(** * pyiges.geometry: decoding of IGES parameter-data records

    A shallow embedding of [pyiges/geometry.py].  Token lists are Python
    lists of [str]; every decoder ([_add_parameters]) is a function from the
    token list to either the decoded record or the Python exception the
    decoder raises.  *)

From Stdlib Require Import ZArith QArith Bool List Ascii String Lia.
From Stdlib Require Import Qround.
Import ListNotations.

Local Open Scope string_scope.
Local Open Scope list_scope.
Local Open Scope Z_scope.

Set Implicit Arguments.

(** ** Exceptions and the result monad *)

Module Py.

(** The built-in exceptions the decoders can raise.  [ParameterCountError]
    is the error kind the specification asks for; nothing in [geometry.py]
    defines or raises it. *)
Inductive exn : Type :=
| IndexError
| ValueError
| TypeError
| OverflowError
| UnboundLocalError
| ParameterCountError (declared available : Z).

Inductive result (A : Type) : Type :=
| Ok (a : A)
| Raise (e : exn).

Arguments Ok {A} a.
Arguments Raise {A} e.

Definition bind {A B} (r : result A) (k : A -> result B) : result B :=
  match r with
  | Ok a => k a
  | Raise e => Raise e
  end.

(** [try r except ValueError: h] *)
Definition except_ValueError {A} (r : result A) (h : result A) : result A :=
  match r with
  | Raise ValueError => h
  | _ => r
  end.

End Py.

Import Py.

Declare Scope py_scope.
Delimit Scope py_scope with py.
Notation "x <- c ;; k" := (bind c (fun x => k))
  (at level 61, c at next level, right associativity) : py_scope.
Notation "c ;;; k" := (bind c (fun _ => k))
  (at level 61, right associativity) : py_scope.
Local Open Scope py_scope.

(** [[f(x) for x in l]], and the [for x in l: acc.append(f(x))] loops: the
    first exception aborts the whole loop. *)
Fixpoint mapM {A B} (f : A -> result B) (l : list A) : result (list B) :=
  match l with
  | [] => Ok []
  | a :: l' => b <- f a ;; bs <- mapM f l' ;; Ok (b :: bs)
  end.

(** ** Python sequences *)

Definition len {A} (l : list A) : Z := Z.of_nat (List.length l).

(** [l[i]] on a list (or a one-dimensional numpy array): a negative index
    counts from the end, anything outside [-len, len) raises IndexError. *)
Definition getitem {A} (l : list A) (i : Z) : result A :=
  let j := if i <? 0 then i + len l else i in
  if (j <? 0) || (len l <=? j) then Raise IndexError
  else match nth_error l (Z.to_nat j) with
       | Some a => Ok a
       | None => Raise IndexError
       end.

(** Normalisation of one slice bound: negative bounds count from the end,
    and the bound is clamped to [0, len]. *)
Definition slice_bound (n i : Z) : Z :=
  let j := if i <? 0 then i + n else i in
  Z.min n (Z.max 0 j).

(** [l[a:b]]: never raises, silently truncates. *)
Definition slice {A} (l : list A) (a b : Z) : list A :=
  let a' := slice_bound (len l) a in
  let b' := slice_bound (len l) b in
  firstn (Z.to_nat (b' - a')) (skipn (Z.to_nat a') l).

(** [range(a, b)] and [range(a, b, step)] for a positive step. *)
Definition range (a b : Z) : list Z :=
  map (fun k => a + Z.of_nat k) (seq 0 (Z.to_nat (b - a))).

Definition range_step (a b step : Z) : list Z :=
  map (fun k => a + step * Z.of_nat k)
      (seq 0 (Z.to_nat ((b - a + step - 1) / step))).

(** [[x] * n] *)
Definition replicate {A} (x : A) (n : Z) : list A := repeat x (Z.to_nat n).

(** ** Strings *)

Fixpoint str_map (f : ascii -> ascii) (s : string) : string :=
  match s with
  | EmptyString => EmptyString
  | String c s' => String (f c) (str_map f s')
  end.

Definition is_upper (c : ascii) : bool :=
  let n := N_of_ascii c in ((65 <=? n) && (n <=? 90))%N.

Definition lower_ascii (c : ascii) : ascii :=
  if is_upper c then ascii_of_N (N_of_ascii c + 32) else c.

(** [s.lower()] on ASCII text. *)
Definition lower (s : string) : string := str_map lower_ascii s.

(** [s.replace(a, b)] for one-character [a] and [b]. *)
Definition replace (a b : ascii) (s : string) : string :=
  str_map (fun c => if Ascii.eqb c a then b else c) s.

(** ** The built-ins [float(str)] and [int(str)]

    [float] and [int] are Python built-ins, so there is no source to follow;
    they are modelled here as the language reference describes them, on
    ASCII text: surrounding whitespace (the space and the characters 9 to
    13) is ignored, case is not significant,
    [digitpart ::= digit (["_"] digit)*],
    [number ::= [digitpart] "." digitpart | digitpart ["."]],
    [floatvalue ::= [sign] (number [("e"|"E") [sign] digitpart]
                            | "inf" | "infinity" | "nan")],
    and [int] accepts [[sign] digitpart].  Anything else is a ValueError.

    A float is represented by the exact rational its literal denotes (in
    lowest terms); the rounding to binary64 that Python applies afterwards
    is a function of that value and is not modelled. *)

Inductive pyfloat : Type :=
| FNum (q : Q)
| FInf (negative : bool)
| FNan.

Inductive cclass : Type :=
| CSpace
| CSign (negative : bool)
| CDigit (d : Z)
| CDot
| CUnder
| CExp
| CLetter (l : ascii)
| COther.

Definition cls (c : ascii) : cclass :=
  let n := N_of_ascii c in
  if ((9 <=? n) && (n <=? 13) || (n =? 32))%N then CSpace
  else if ((48 <=? n) && (n <=? 57))%N then CDigit (Z.of_N (n - 48))
  else match lower_ascii c with
       | "+"%char => CSign false
       | "-"%char => CSign true
       | "."%char => CDot
       | "_"%char => CUnder
       | "e"%char => CExp
       | "i"%char => CLetter "i"
       | "n"%char => CLetter "n"
       | "f"%char => CLetter "f"
       | "a"%char => CLetter "a"
       | "t"%char => CLetter "t"
       | "y"%char => CLetter "y"
       | _ => COther
       end.

Inductive fphase : Type :=
| P_start            (* leading whitespace *)
| P_sign             (* just after the sign *)
| P_int              (* integer part, last character a digit *)
| P_int_us           (* underscore inside the integer part *)
| P_dot0             (* "." with no integer part: a digit must follow *)
| P_dot1             (* "." after an integer part *)
| P_frac             (* fraction, last character a digit *)
| P_frac_us
| P_exp              (* just after "e" *)
| P_expsign
| P_expdig
| P_expdig_us
| P_inf (k : nat)    (* k letters of "infinity" read *)
| P_nan (k : nat)    (* k letters of "nan" read *)
| P_trail            (* trailing whitespace *)
| P_reject.

Inductive fkind : Type := KNum | KInf | KNan.

Record facc : Type := mk_facc {
  a_kind : fkind;
  a_neg : bool;
  a_mant : Z;       (* the digits of the mantissa, read as one integer *)
  a_fdig : Z;       (* how many of them came after the point *)
  a_eneg : bool;
  a_exp : Z
}.

Definition facc0 : facc := mk_facc KNum false 0 0 false 0.

Definition push_int (a : facc) (d : Z) : facc :=
  mk_facc a.(a_kind) a.(a_neg) (10 * a.(a_mant) + d) a.(a_fdig)
          a.(a_eneg) a.(a_exp).
Definition push_frac (a : facc) (d : Z) : facc :=
  mk_facc a.(a_kind) a.(a_neg) (10 * a.(a_mant) + d) (a.(a_fdig) + 1)
          a.(a_eneg) a.(a_exp).
Definition push_exp (a : facc) (d : Z) : facc :=
  mk_facc a.(a_kind) a.(a_neg) a.(a_mant) a.(a_fdig)
          a.(a_eneg) (10 * a.(a_exp) + d).
Definition set_neg (a : facc) (b : bool) : facc :=
  mk_facc a.(a_kind) b a.(a_mant) a.(a_fdig) a.(a_eneg) a.(a_exp).
Definition set_eneg (a : facc) (b : bool) : facc :=
  mk_facc a.(a_kind) a.(a_neg) a.(a_mant) a.(a_fdig) b a.(a_exp).
Definition set_kind (a : facc) (k : fkind) : facc :=
  mk_facc k a.(a_neg) a.(a_mant) a.(a_fdig) a.(a_eneg) a.(a_exp).

Definition infinity_letters : list ascii :=
  ["i"; "n"; "f"; "i"; "n"; "i"; "t"; "y"]%char.
Definition nan_letters : list ascii := ["n"; "a"; "n"]%char.

Definition next_letter (w : list ascii) (k : nat) (l : ascii) : bool :=
  match nth_error w k with
  | Some l' => Ascii.eqb l l'
  | None => false
  end.

Definition fstep_cls (st : fphase * facc) (c : cclass) : fphase * facc :=
  let (p, a) := st in
  match p, c with
  | P_start, CSpace => (P_start, a)
  | P_start, CSign b => (P_sign, set_neg a b)
  | (P_start | P_sign), CDigit d => (P_int, push_int a d)
  | (P_start | P_sign), CDot => (P_dot0, a)
  | (P_start | P_sign), CLetter l =>
      if Ascii.eqb l "i" then (P_inf 1, set_kind a KInf)
      else if Ascii.eqb l "n" then (P_nan 1, set_kind a KNan)
      else (P_reject, a)
  | (P_int | P_int_us), CDigit d => (P_int, push_int a d)
  | P_int, CUnder => (P_int_us, a)
  | P_int, CDot => (P_dot1, a)
  | (P_dot0 | P_dot1 | P_frac | P_frac_us), CDigit d => (P_frac, push_frac a d)
  | P_frac, CUnder => (P_frac_us, a)
  | (P_int | P_dot1 | P_frac), CExp => (P_exp, a)
  | P_exp, CSign b => (P_expsign, set_eneg a b)
  | (P_exp | P_expsign | P_expdig | P_expdig_us), CDigit d =>
      (P_expdig, push_exp a d)
  | P_expdig, CUnder => (P_expdig_us, a)
  | P_inf k, CLetter l =>
      if next_letter infinity_letters k l then (P_inf (S k), a)
      else (P_reject, a)
  | P_nan k, CLetter l =>
      if next_letter nan_letters k l then (P_nan (S k), a)
      else (P_reject, a)
  | (P_int | P_dot1 | P_frac | P_expdig | P_trail), CSpace => (P_trail, a)
  | P_inf k, CSpace =>
      if (Nat.eqb k 3 || Nat.eqb k 8)%bool then (P_trail, a) else (P_reject, a)
  | P_nan k, CSpace => if Nat.eqb k 3 then (P_trail, a) else (P_reject, a)
  | _, _ => (P_reject, a)
  end.

Definition fstep (st : fphase * facc) (c : ascii) : fphase * facc :=
  fstep_cls st (cls c).

Fixpoint frun (st : fphase * facc) (s : string) : fphase * facc :=
  match s with
  | EmptyString => st
  | String c s' => frun (fstep st c) s'
  end.

Definition accepting (p : fphase) : bool :=
  match p with
  | P_int | P_dot1 | P_frac | P_expdig | P_trail => true
  | P_inf k => (Nat.eqb k 3 || Nat.eqb k 8)%bool
  | P_nan k => Nat.eqb k 3
  | _ => false
  end.

Definition signed (neg : bool) (z : Z) : Z := if neg then - z else z.

Definition fvalue (a : facc) : pyfloat :=
  match a.(a_kind) with
  | KInf => FInf a.(a_neg)
  | KNan => FNan
  | KNum =>
      FNum (Qred (inject_Z (signed a.(a_neg) a.(a_mant))
                  * Qpower (inject_Z 10)
                           (signed a.(a_eneg) a.(a_exp) - a.(a_fdig))))
  end.

(** [float(s)] for a [str] argument. *)
Definition py_float (s : string) : result pyfloat :=
  let (p, a) := frun (P_start, facc0) s in
  if accepting p then Ok (fvalue a) else Raise ValueError.

Inductive iphase : Type := I_start | I_sign | I_dig | I_us | I_trail | I_reject.

Definition istep (st : iphase * (bool * Z)) (c : ascii)
  : iphase * (bool * Z) :=
  let '(p, (neg, v)) := st in
  match p, cls c with
  | I_start, CSpace => (I_start, (neg, v))
  | I_start, CSign b => (I_sign, (b, v))
  | (I_start | I_sign | I_dig | I_us), CDigit d => (I_dig, (neg, 10 * v + d))
  | I_dig, CUnder => (I_us, (neg, v))
  | (I_dig | I_trail), CSpace => (I_trail, (neg, v))
  | _, _ => (I_reject, (neg, v))
  end.

Fixpoint irun (st : iphase * (bool * Z)) (s : string) : iphase * (bool * Z) :=
  match s with
  | EmptyString => st
  | String c s' => irun (istep st c) s'
  end.

(** [int(s)] for a [str] argument. *)
Definition py_int (s : string) : result Z :=
  match irun (I_start, (false, 0)) s with
  | ((I_dig | I_trail), (neg, v)) => Ok (signed neg v)
  | _ => Raise ValueError
  end.

(** [int(x)] for a float [x]: truncation towards zero, here of the exact
    value of the literal.  It is Python's result whenever the literal is
    exactly representable in binary64, as every integer literal below 2^53
    is. *)
Definition int_of_float (x : pyfloat) : result Z :=
  match x with
  | FNum q => Ok (if Qle_bool 0 q then Qfloor q else Qceiling q)
  | FInf _ => Raise OverflowError
  | FNan => Raise ValueError
  end.

(** [bool(x)] for a float [x], on the exact value of the literal: it is
    Python's result unless a non-zero literal rounds to zero in binary64
    (below 2^-1075 in magnitude). *)
Definition bool_of_float (x : pyfloat) : bool :=
  match x with
  | FNum q => negb (Qeq_bool q 0)
  | _ => true
  end.

(** ** [parse_float] *)

Definition parse_float (str_value : string) : result pyfloat :=
  except_ValueError (py_float str_value)
                    (py_float (replace "d" "e" (lower str_value))).

Definition fl (z : Z) : pyfloat := FNum (inject_Z z).

(** ** Helpers shared by the decoders *)

Fixpoint foldM {S A} (f : S -> A -> result S) (l : list A) (s : S)
  : result S :=
  match l with
  | [] => Ok s
  | a :: l' => s' <- f s a ;; foldM f l' s'
  end.

(** [parse_float(parameters[i])], [int(parameters[i])] and
    [float(parameters[i])] on a list of [str] tokens. *)
Definition float_at (parameters : list string) (i : Z) : result pyfloat :=
  tok <- getitem parameters i ;; parse_float tok.

Definition int_at (parameters : list string) (i : Z) : result Z :=
  tok <- getitem parameters i ;; py_int tok.

Definition point3 : Type := (pyfloat * pyfloat * pyfloat)%type.

(** ** class Line *)

Module Line.

Record t : Type := mk {
  parameters : list string;
  parameter_pointers : list bool;
  _x1 : pyfloat; _y1 : pyfloat; _z1 : pyfloat;
  _x2 : pyfloat; _y2 : pyfloat; _z2 : pyfloat
}.

Definition _add_parameters (parameters : list string) : result t :=
  let parameter_pointers := replicate false (len parameters) in
  x1 <- float_at parameters 1 ;;
  y1 <- float_at parameters 2 ;;
  z1 <- float_at parameters 3 ;;
  x2 <- float_at parameters 4 ;;
  y2 <- float_at parameters 5 ;;
  z2 <- float_at parameters 6 ;;
  Ok (mk parameters parameter_pointers x1 y1 z1 x2 y2 z2).

(** The [coordinates] property: starting and ending point. *)
Definition coordinates (self : t) : point3 * point3 :=
  ((self.(_x1), self.(_y1), self.(_z1)), (self.(_x2), self.(_y2), self.(_z2))).

End Line.

(** ** class RationalBSplineCurve *)

Module RationalBSplineCurve.

Record t : Type := mk {
  parameters : list string;
  parameter_pointers : list bool;
  K : Z; M : Z;
  prop1 : Z; prop2 : Z; prop3 : Z; prop4 : Z;
  N : Z; A : Z;
  T : list pyfloat;
  W : list pyfloat;
  control_points : list point3;
  V0 : pyfloat; V1 : pyfloat;
  planar_curve : bool;
  (* XNORM, YNORM, ZNORM: attributes that exist on planar curves only *)
  NORM : option point3
}.

Definition read_point (parameters : list string) (i : Z) : result point3 :=
  x <- float_at parameters i ;;
  y <- float_at parameters (i + 1) ;;
  z <- float_at parameters (i + 2) ;;
  Ok (x, y, z).

Definition _add_parameters (parameters : list string) : result t :=
  let parameter_pointers := replicate false (len parameters) in
  K <- int_at parameters 1 ;;
  M <- int_at parameters 2 ;;
  prop1 <- int_at parameters 3 ;;
  prop2 <- int_at parameters 4 ;;
  prop3 <- int_at parameters 5 ;;
  prop4 <- int_at parameters 6 ;;
  let N := 1 + K - M in
  let A := N + 2 * M in
  (* Knot sequence *)
  T <- mapM (float_at parameters) (range 7 (7 + A + 1)) ;;
  (* Weights *)
  W <- mapM (float_at parameters) (range (A + 8) (A + K + 8)) ;;
  (* Control points *)
  control_points <-
    mapM (read_point parameters)
         (range_step (9 + A + K) (9 + A + 4 * K + 1) 3) ;;
  (* Parameter values *)
  V0 <- float_at parameters (12 + A + 4 * K) ;;
  V1 <- float_at parameters (13 + A + 4 * K) ;;
  (* Unit normal (only for planar curves) *)
  if len parameters >? 14 + A + 4 * K + 1 then
    XNORM <- float_at parameters (14 + A + 4 * K) ;;
    YNORM <- float_at parameters (15 + A + 4 * K) ;;
    ZNORM <- float_at parameters (16 + A + 4 * K) ;;
    Ok (mk parameters parameter_pointers K M prop1 prop2 prop3 prop4 N A
           T W control_points V0 V1 true (Some (XNORM, YNORM, ZNORM)))
  else
    Ok (mk parameters parameter_pointers K M prop1 prop2 prop3 prop4 N A
           T W control_points V0 V1 false None).

(** What [to_geomdl] assigns to the [geomdl.NURBS.Curve] it returns.  (The
    decorator [assert_full_module_variant] only checks that the optional
    dependencies are installed.) *)
Record NURBS_Curve : Type := mk_curve {
  _kv_normalize : bool;
  degree : Z;
  ctrlpts : list point3;
  weights : list pyfloat;
  knotvector : list pyfloat
}.

Definition to_geomdl (self : t) : NURBS_Curve :=
  mk_curve false self.(M) self.(control_points)
           (self.(W) ++ [fl 1]) self.(T).

End RationalBSplineCurve.

(** ** class RationalBSplineSurface *)

(** [a.reshape(-1, 3)] on a one-dimensional array. *)
Fixpoint reshape3 (l : list pyfloat) : result (list point3) :=
  match l with
  | [] => Ok []
  | x :: y :: z :: l' => ps <- reshape3 l' ;; Ok ((x, y, z) :: ps)
  | _ => Raise ValueError
  end.

Module RationalBSplineSurface.

Record t : Type := mk {
  parameters : list string;
  parameter_pointers : list bool;
  _k1 : Z; _k2 : Z; _m1 : Z; _m2 : Z;
  _flag1 : bool; _flag2 : bool; _flag3 : bool; _flag4 : bool; _flag5 : bool;
  _knot1 : list pyfloat;
  _knot2 : list pyfloat;
  _weights : list pyfloat;
  _cp : list point3;
  _u0 : pyfloat; _u1 : pyfloat; _v0 : pyfloat; _v1 : pyfloat
}.

Definition int_item (parameters : list pyfloat) (i : Z) : result Z :=
  x <- getitem parameters i ;; int_of_float x.

Definition bool_item (parameters : list pyfloat) (i : Z) : result bool :=
  x <- getitem parameters i ;; Ok (bool_of_float x).

Definition _add_parameters (input_parameters : list string) : result t :=
  parameters <- mapM parse_float input_parameters ;;
  let parameter_pointers := replicate false (len parameters) in
  k1 <- int_item parameters 1 ;;
  k2 <- int_item parameters 2 ;;
  m1 <- int_item parameters 3 ;;
  m2 <- int_item parameters 4 ;;
  flag1 <- bool_item parameters 5 ;;
  flag2 <- bool_item parameters 6 ;;
  flag3 <- bool_item parameters 7 ;;
  flag4 <- bool_item parameters 8 ;;
  flag5 <- bool_item parameters 9 ;;
  (* load knot sequences *)
  let knot1 := slice parameters 10 (12 + k1 + m1) in
  let knot2 := slice parameters (12 + k1 + m1) (14 + k2 + m1 + k1 + m2) in
  (* weights *)
  let st := 14 + k2 + m1 + k1 + m2 in
  let en := st + (1 + k2) * (1 + k1) in
  let weights := slice parameters st en in
  (* control points *)
  let st := 14 + k2 + k1 + m1 + m2 + (1 + k2) * (1 + k1) in
  let en := st + 3 * (1 + k2) * (1 + k1) in
  cp <- reshape3 (slice parameters st en) ;;
  u0 <- getitem parameters en ;;
  u1 <- getitem parameters (en + 1) ;;
  v0 <- getitem parameters (en + 2) ;;
  v1 <- getitem parameters (en + 3) ;;
  Ok (mk input_parameters parameter_pointers k1 k2 m1 m2
         flag1 flag2 flag3 flag4 flag5 knot1 knot2 weights cp u0 u1 v0 v1).

End RationalBSplineSurface.

(** ** class Composite_Curve *)

Module Composite_Curve.

Record t : Type := mk {
  parameters : list string;
  parameter_pointers : list bool;
  N_curves : Z;
  curves : list Z
}.

(** One turn of the loop: [curves.append(int(parameters[ii+2]))], then
    [parameter_pointers.append(True)]. *)
Definition loop_body (parameters : list string)
    (st : list Z * list bool) (ii : Z) : result (list Z * list bool) :=
  let (curves, parameter_pointers) := st in
  c <- int_at parameters (ii + 2) ;;
  Ok (curves ++ [c], parameter_pointers ++ [true]).

Definition _add_parameters (parameters : list string) : result t :=
  let parameter_pointers := [false; false] in
  N_curves <- int_at parameters 1 ;;
  st <- foldM (loop_body parameters) (range 0 N_curves)
              ([], parameter_pointers) ;;
  Ok (mk parameters (snd st) N_curves (fst st)).

End Composite_Curve.

(** ** class Trimmed_Surface *)

Module Trimmed_Surface.

Record t : Type := mk {
  parameters : list string;
  parameter_pointers : list bool;
  surface_pointer : Z;
  flag_boundary : Z;
  n_inner_boundary : Z;
  OuterBound : Z;
  inner_curve_boundary : list string
}.

Definition loop_body (parameters : list string)
    (st : list string * list bool) (ii : Z)
  : result (list string * list bool) :=
  let (inner, parameter_pointers) := st in
  tok <- getitem parameters (5 + ii) ;;
  Ok (inner ++ [tok], parameter_pointers ++ [true]).

Definition _add_parameters (parameters : list string) : result t :=
  let parameter_pointers := [false; true; false; false; true] in
  surface_pointer <- int_at parameters 1 ;;
  flag_boundary <- int_at parameters 2 ;;
  n_inner_boundary <- int_at parameters 3 ;;
  OuterBound <- int_at parameters 4 ;;
  st <- foldM (loop_body parameters) (range 0 n_inner_boundary)
              ([], parameter_pointers) ;;
  let parameter_pointers :=
    snd st ++ replicate false (len parameters - len (snd st)) in
  Ok (mk parameters parameter_pointers surface_pointer flag_boundary
         n_inner_boundary OuterBound (fst st)).

End Trimmed_Surface.

(** ** class Bounded_Surface *)

Module Bounded_Surface.

Record t : Type := mk {
  parameters : list string;
  parameter_pointers : list bool;
  Type_ : Z;
  surface_pointer : Z;
  N_boundaries : Z;
  B : list Z
}.

(** One turn of the loop: [B.append(int(parameters[ii]))], then the
    expression statement [parameter_pointers[True]], which reads item 1
    ([True == 1]) and drops it. *)
Definition loop_body (parameters : list string)
    (st : list Z * list bool) (ii : Z) : result (list Z * list bool) :=
  let (B, parameter_pointers) := st in
  b <- int_at parameters ii ;;
  getitem parameter_pointers 1 ;;;
  Ok (B ++ [b], parameter_pointers).

Definition _add_parameters (parameters : list string) : result t :=
  let parameter_pointers := [false; false; true; false] in
  Type_ <- int_at parameters 1 ;;
  surface_pointer <- int_at parameters 2 ;;
  N_boundaries <- int_at parameters 3 ;;
  st <- foldM (loop_body parameters) (range 4 (4 + N_boundaries))
              ([], parameter_pointers) ;;
  Ok (mk parameters (snd st) Type_ surface_pointer N_boundaries (fst st)).

End Bounded_Surface.

(** ** class Subfigure *)

Module Subfigure.

Record t : Type := mk {
  parameters : list string;
  parameter_pointers : list bool;
  Depth_of_subfigure : Z;
  Subfigure_Name : string;
  Number_of_entities : Z;
  pointers : list Z
}.

Definition _add_parameters (parameters : list string) : result t :=
  let parameter_pointers := [false; false; false; false] in
  Depth_of_subfigure <- int_at parameters 1 ;;
  Subfigure_Name <- getitem parameters 2 ;;
  Number_of_entities <- int_at parameters 3 ;;
  pointers <- mapM py_int (slice parameters 4 (4 + Number_of_entities)) ;;
  let parameter_pointers :=
    parameter_pointers ++ replicate true Number_of_entities in
  let parameter_pointers :=
    parameter_pointers
      ++ replicate false (len parameters - len parameter_pointers) in
  Ok (mk parameters parameter_pointers Depth_of_subfigure Subfigure_Name
         Number_of_entities pointers).

End Subfigure.

(** ** class Boundary

    [Boundary] keeps several tokens as they are and does arithmetic on one
    of them, so the dynamic type of a token matters here: a token is a
    [str] (what splitting a record gives) or an [int]. *)

Inductive pyval : Type :=
| VStr (s : string)
| VInt (z : Z).

(** [int(v)] *)
Definition int_of (v : pyval) : result Z :=
  match v with
  | VStr s => py_int s
  | VInt z => Ok z
  end.

(** [n + v] for an [int] n: adding a [str] to an [int] is a TypeError. *)
Definition int_add (n : Z) (v : pyval) : result Z :=
  match v with
  | VInt z => Ok (n + z)
  | VStr _ => Raise TypeError
  end.

Definition unpack_boundary_curves_parameters
    (parameters : list pyval) (start_index : Z)
  : result (pyval * pyval * list pyval * Z) :=
  (* Get the parameters *)
  space_curve <- getitem parameters start_index ;;
  flag_1 <- getitem parameters (start_index + 1) ;;
  K1 <- getitem parameters (start_index + 2) ;;
  end_index <- int_add (start_index + 3) K1 ;;
  let list_curves := slice parameters (start_index + 3) end_index in
  Ok (space_curve, flag_1, list_curves, end_index + 1).

(** What is handed to [from_pointer]: a token, or a list of tokens. *)
Inductive pointer : Type :=
| PtrTok (v : pyval)
| PtrList (l : list pyval).

Module Boundary.

Record t : Type := mk {
  parameters : list pyval;
  Type_ : Z;
  pref : Z;
  surface_pointer : Z;
  N : Z;
  space_curves : list pyval;
  model_curves : list (list pyval);
  Flags : list pyval
}.

Record loop_state : Type := mk_state {
  st_space_curves : list pyval;
  st_model_curves : list (list pyval);
  st_Flags : list pyval;
  st_index : Z
}.

Definition loop_body (parameters : list pyval) (st : loop_state) (_ : Z)
  : result loop_state :=
  r <- unpack_boundary_curves_parameters parameters st.(st_index) ;;
  let '(space_curve, flag_1, list_curves, index) := r in
  Ok (mk_state (st.(st_space_curves) ++ [space_curve])
               (st.(st_model_curves) ++ [list_curves])
               (st.(st_Flags) ++ [flag_1])
               index).

Definition int_item (parameters : list pyval) (i : Z) : result Z :=
  v <- getitem parameters i ;; int_of v.

Definition _add_parameters (parameters : list pyval) : result t :=
  Type_ <- int_item parameters 1 ;;
  pref <- int_item parameters 2 ;;
  surface_pointer <- int_item parameters 3 ;;
  N <- int_item parameters 4 ;;
  st <- foldM (loop_body parameters) (range 0 N) (mk_state [] [] [] 5) ;;
  Ok (mk parameters Type_ pref surface_pointer N
         st.(st_space_curves) st.(st_model_curves) st.(st_Flags)).

Section Accessors.

(** [self.iges.from_pointer], which lives outside [geometry.py]: it
    resolves a pointer to an entity of the loaded file, or raises. *)
Variable Entity : Type.
Variable from_pointer : pointer -> result Entity.

(** What an accessor returns: a list of entities, or (as written) the
    last value of the loop variable. *)
Inductive returned : Type :=
| RetList (l : list Entity)
| RetPointer (p : pointer).

(** The loop [for p in ptrs: acc.append(from_pointer(p))]: the state is
    the list built so far and the loop variable (unbound before the first
    turn). *)
Definition resolve_body (st : list Entity * option pointer) (p : pointer)
  : result (list Entity * option pointer) :=
  e <- from_pointer p ;;
  Ok (fst st ++ [e], Some p).

(** [return sc] / [return mc]: the loop variable, not the list. *)
Definition return_loop_variable (st : list Entity * option pointer)
  : result returned :=
  match snd st with
  | Some p => Ok (RetPointer p)
  | None => Raise UnboundLocalError
  end.

Definition get_space_curves (self : t) : result returned :=
  st <- foldM resolve_body (map PtrTok self.(space_curves)) ([], None) ;;
  return_loop_variable st.

Definition get_model_curves (self : t) : result returned :=
  st <- foldM resolve_body (map PtrList self.(model_curves)) ([], None) ;;
  return_loop_variable st.

End Accessors.

End Boundary.

(** ** Notions used to state the properties *)

Fixpoint str_any (p : ascii -> bool) (s : string) : bool :=
  match s with
  | EmptyString => false
  | String c s' => p c || str_any p s'
  end.

Definition is_other (c : ascii) : bool :=
  match cls c with COther => true | _ => false end.

Definition d2e (c : ascii) : ascii := if Ascii.eqb c "d" then "e"%char else c.

(** A character-wise substitution [g] that [parse_float] undoes: on every
    character the grammar uses, [g] either changes nothing or produces a
    character [float] rejects, and lowering then turning "d" into "e" gives
    the lowered original. *)
Definition undone (g : ascii -> ascii) (c : ascii) : bool :=
  is_other c
  || ((Ascii.eqb (g c) c || is_other (g c))
      && Ascii.eqb (d2e (lower_ascii (g c))) (lower_ascii c)).

Definition E_to_D (c : ascii) : ascii :=
  if Ascii.eqb c "E" then "D"%char else c.
Definition e_to_d (c : ascii) : ascii :=
  if Ascii.eqb c "e" then "d"%char else c.


(** The parameter data of a rational B-spline curve, piece by piece: the
    seven leading tokens (type code, K, M, four flags), the knots, the
    weights, the control points, the parameter range, and what follows. *)
Definition curve_layout (header knots weights points : list string)
    (v0 v1 : string) (rest : list string) : list string :=
  header ++ knots ++ weights ++ points ++ [v0; v1] ++ rest.

(** What follows the parameter range: nothing (or one stray token), and no
    unit normal is decoded; or the three components of the unit normal,
    possibly followed by more tokens. *)
Inductive trailing : list string -> option point3 -> Prop :=
| no_normal rest : len rest <= 1 -> trailing rest None
| with_normal x y z more nx ny nz :
    parse_float x = Ok nx -> parse_float y = Ok ny -> parse_float z = Ok nz ->
    trailing (x :: y :: z :: more) (Some (nx, ny, nz)).

Definition is_some {A} (o : option A) : bool :=
  match o with Some _ => true | None => false end.

(** ** Sample records *)

(** A Line record: the type code and seven more tokens. *)
Definition line_record : list string :=
  ["110"; "1"; "1"; "2"; "3"; "4"; "5"; "6"].

(** A rational B-spline curve with K = 3 and M = 3: 8 knots, 4 weights (the
    last one is 2), 4 control points, the parameter range. *)
Definition curve_record : list string :=
  curve_layout ["126"; "3"; "3"; "0"; "0"; "1"; "0"]
               ["0"; "0"; "0"; "0"; "1"; "1"; "1"; "1"]
               ["1"; "1"; "1"; "2"]
               ["0"; "0"; "0"; "1"; "2"; "0"; "3"; "2"; "0"; "4"; "0"; "0"]
               "0" "1" [].

(** The same record with its last token missing. *)
Definition curve_record_short : list string := removelast curve_record.

(** The parameter data of a rational B-spline surface: the ten leading
    tokens (type code, K1, K2, M1, M2, five flags), the two knot vectors,
    the weights, the control points, the parameter range, and what
    follows. *)
Definition surface_layout (header knot1 knot2 weights points : list string)
    (u0 u1 v0 v1 : string) (rest : list string) : list string :=
  header ++ knot1 ++ knot2 ++ weights ++ points ++ [u0; u1; v0; v1] ++ rest.

(** A surface with K1 = K2 = M1 = M2 = 1. *)
Definition surface_record : list string :=
  surface_layout ["128"; "1"; "1"; "1"; "1"; "0"; "0"; "1"; "0"; "0"]
                 ["0"; "0"; "1"; "1"] ["0"; "0"; "2"; "2"]
                 ["1"; "1"; "1"; "1"]
                 ["0"; "0"; "0"; "1"; "0"; "0"; "0"; "1"; "0"; "1"; "1"; "5"]
                 "0" "1" "0" "2" [].

Definition surface_record_short : list string := removelast surface_record.

(** ** Decoding errors *)

(** The exceptions indexing and number conversion raise. *)
Definition decoding_error (e : exn) : bool :=
  match e with
  | IndexError | ValueError | OverflowError => true
  | _ => false
  end.

Definition raises_only {A} (r : result A) : Prop :=
  forall e, r = Raise e -> decoding_error e = true.

(** A Subfigure record that announces three entities and holds one. *)
Definition subfigure_record_short : list string :=
  ["308"; "0"; "NAME"; "3"; "7"].

(** A Bounded_Surface record with two boundary pointers (positions 4, 5). *)
Definition bounded_surface_record : list string :=
  ["143"; "1"; "10"; "2"; "21"; "23"].

(** A Composite_Curve record with two curve pointers and two more tokens. *)
Definition composite_curve_record : list string :=
  ["102"; "2"; "21"; "23"; "0"; "0"].

(** A Boundary record as splitting a line of text gives it: one curve with
    one parameter-space curve. *)
Definition boundary_record : list string :=
  ["141"; "1"; "0"; "12"; "1"; "21"; "0"; "1"; "31"].

(** A Boundary record of [int] tokens with two curves, laid out as the
    docstring says: the second group starts right after the first. *)
Definition boundary_record_ints : list pyval :=
  map VInt [141; 1; 0; 12; 2; 21; 0; 1; 31; 22; 1; 1; 32].

(** A decoded Boundary with two curves. *)
Definition boundary_entity : Boundary.t :=
  Boundary.mk boundary_record_ints 1 0 12 2
              [VInt 21; VInt 22] [[VInt 31]; [VInt 32]] [VInt 0; VInt 1].

(** A stand-in for a loaded file: the entity behind a pointer is named by
    the pointer's number (a list of pointers by its first one). *)
Definition sample_from_pointer (p : pointer) : result Z :=
  match p with
  | PtrTok v => int_of v
  | PtrList [] => Raise IndexError
  | PtrList (v :: _) => int_of v
  end.

(** * The other entities of [geometry.py] *)

(** [float(parameters[i])]: the built-in, with no second try for the
    legacy exponent. *)
Definition builtin_float_at (parameters : list string) (i : Z)
  : result pyfloat :=
  tok <- getitem parameters i ;; py_float tok.

(** [bool(s)] for a [str]: only the empty string is false. *)
Definition bool_of_str (s : string) : bool :=
  match s with
  | EmptyString => false
  | String _ _ => true
  end.

(** ** class Point *)

Module Point.

Record t : Type := mk {
  parameter_pointers : list bool;
  _x : pyfloat; _y : pyfloat; _z : pyfloat
}.

Definition _add_parameters (parameters : list string) : result t :=
  let parameter_pointers := replicate false (len parameters) in
  x <- float_at parameters 1 ;;
  y <- float_at parameters 2 ;;
  z <- float_at parameters 3 ;;
  Ok (mk parameter_pointers x y z).

Definition coordinate (self : t) : point3 :=
  (self.(_x), self.(_y), self.(_z)).

End Point.

(** ** class Transformation *)

Module Transformation.

Record t : Type := mk {
  parameters : list string;
  parameter_pointers : list bool;
  r11 : pyfloat; r12 : pyfloat; r13 : pyfloat; t1 : pyfloat;
  r21 : pyfloat; r22 : pyfloat; r23 : pyfloat; t2 : pyfloat;
  r31 : pyfloat; r32 : pyfloat; r33 : pyfloat; t3 : pyfloat
}.

Definition _add_parameters (parameters : list string) : result t :=
  let parameter_pointers := replicate false (len parameters) in
  r11 <- float_at parameters 1 ;;
  r12 <- float_at parameters 2 ;;
  r13 <- float_at parameters 3 ;;
  t1 <- float_at parameters 4 ;;
  r21 <- float_at parameters 5 ;;
  r22 <- float_at parameters 6 ;;
  r23 <- float_at parameters 7 ;;
  t2 <- float_at parameters 8 ;;
  r31 <- float_at parameters 9 ;;
  r32 <- float_at parameters 10 ;;
  r33 <- float_at parameters 11 ;;
  t3 <- float_at parameters 12 ;;
  Ok (mk parameters parameter_pointers
         r11 r12 r13 t1 r21 r22 r23 t2 r31 r32 r33 t3).

(** The 4x4 affine matrix, row by row. *)
Definition to_affine (self : t) : list (list pyfloat) :=
  [ [self.(r11); self.(r12); self.(r13); self.(t1)];
    [self.(r21); self.(r22); self.(r23); self.(t2)];
    [self.(r31); self.(r32); self.(r33); self.(t3)];
    [fl 0; fl 0; fl 0; fl 1] ].

End Transformation.

(** ** class ConicArc: the twelve tokens are kept as they are *)

Module ConicArc.

Record t : Type := mk {
  parameters : list string;
  parameter_pointers : list bool;
  a : string; b : string; c : string; d : string; e : string; f : string;
  x1 : string; y1 : string; z1 : string;
  x2 : string; y2 : string; z2 : string
}.

Definition _add_parameters (parameters : list string) : result t :=
  let parameter_pointers := replicate false (len parameters) in
  a <- getitem parameters 1 ;;
  b <- getitem parameters 2 ;;
  c <- getitem parameters 3 ;;
  d <- getitem parameters 4 ;;
  e <- getitem parameters 5 ;;
  f <- getitem parameters 6 ;;
  x1 <- getitem parameters 7 ;;
  y1 <- getitem parameters 8 ;;
  z1 <- getitem parameters 9 ;;
  x2 <- getitem parameters 10 ;;
  y2 <- getitem parameters 11 ;;
  z2 <- getitem parameters 12 ;;
  Ok (mk parameters parameter_pointers a b c d e f x1 y1 z1 x2 y2 z2).

End ConicArc.

(** ** class CircularArc

    [self.d] is the directory entry of the entity, which is filled in
    outside [geometry.py]; [transform] stands for what
    [self.d.get("transform", None)] gives. *)

Module CircularArc.

Record t : Type := mk {
  parameters : list string;
  parameter_pointers : list bool;
  z : pyfloat; x : pyfloat; y : pyfloat;
  x1 : pyfloat; y1 : pyfloat;
  x2 : pyfloat; y2 : pyfloat;
  _transform : option pyval
}.

Definition _add_parameters (transform : option pyval)
    (parameters : list string) : result t :=
  let parameter_pointers := replicate false (len parameters) in
  z <- float_at parameters 1 ;;
  x <- float_at parameters 2 ;;
  y <- float_at parameters 3 ;;
  x1 <- float_at parameters 4 ;;
  y1 <- float_at parameters 5 ;;
  x2 <- float_at parameters 6 ;;
  y2 <- float_at parameters 7 ;;
  Ok (mk parameters parameter_pointers z x y x1 y1 x2 y2 transform).

End CircularArc.

(** ** class Surface_of_Revolution *)

Module Surface_of_Revolution.

Record t : Type := mk {
  parameters : list string;
  parameter_pointers : list bool;
  axis : Z;
  surface : Z;
  SA : pyfloat;
  EA : pyfloat
}.

Definition _add_parameters (parameters : list string) : result t :=
  let parameter_pointers := [false; true; true; false; false] in
  axis <- int_at parameters 1 ;;
  surface <- int_at parameters 2 ;;
  SA <- builtin_float_at parameters 3 ;;
  EA <- builtin_float_at parameters 4 ;;
  Ok (mk parameters parameter_pointers axis surface SA EA).

End Surface_of_Revolution.

(** ** class Tabulated_Cylinder *)

Module Tabulated_Cylinder.

Record t : Type := mk {
  parameters : list string;
  parameter_pointers : list bool;
  curve : Z;
  Lx : pyfloat; Ly : pyfloat; Lz : pyfloat
}.

Definition _add_parameters (parameters : list string) : result t :=
  let parameter_pointers := [false; true; false; false; false] in
  curve <- int_at parameters 1 ;;
  Lx <- builtin_float_at parameters 2 ;;
  Ly <- builtin_float_at parameters 3 ;;
  Lz <- builtin_float_at parameters 4 ;;
  Ok (mk parameters parameter_pointers curve Lx Ly Lz).

End Tabulated_Cylinder.

(** ** class Curve_On_A_Parametric_Surface *)

Module Curve_On_A_Parametric_Surface.

Record t : Type := mk {
  parameters : list string;
  parameter_pointers : list bool;
  how_created : Z;
  surface_pointer : Z;
  curve_pointer : Z;
  mapping : Z;
  representation : string
}.

Definition _add_parameters (parameters : list string) : result t :=
  let parameter_pointers := [false; false; true; true; true; false] in
  let parameter_pointers :=
    parameter_pointers
      ++ replicate false (len parameters - len parameter_pointers) in
  how_created <- int_at parameters 1 ;;
  surface_pointer <- int_at parameters 2 ;;
  curve_pointer <- int_at parameters 3 ;;
  mapping <- int_at parameters 4 ;;
  representation <- getitem parameters 5 ;;
  Ok (mk parameters parameter_pointers how_created surface_pointer
         curve_pointer mapping representation).

End Curve_On_A_Parametric_Surface.

(** ** class Color *)

Module Color.

Record t : Type := mk {
  parameters : list string;
  parameter_pointers : list bool;
  RED : pyfloat; GREEN : pyfloat; BLUE : pyfloat
}.

Definition _add_parameters (parameters : list string) : result t :=
  let parameter_pointers := replicate false (len parameters) in
  RED <- builtin_float_at parameters 1 ;;
  GREEN <- builtin_float_at parameters 2 ;;
  BLUE <- builtin_float_at parameters 3 ;;
  Ok (mk parameters parameter_pointers RED GREEN BLUE).

End Color.

(** ** class Singular_Subgfigure_Instance *)

Module Singular_Subgfigure_Instance.

Record t : Type := mk {
  parameters : list string;
  parameter_pointers : list bool;
  pointer_ : Z;
  X : pyfloat; Y : pyfloat; Z_ : pyfloat; S_ : pyfloat
}.

Definition _add_parameters (parameters : list string) : result t :=
  let parameter_pointers := [false; true; false; false; false; false] in
  pointer_ <- int_at parameters 1 ;;
  X <- builtin_float_at parameters 2 ;;
  Y <- builtin_float_at parameters 3 ;;
  Z_ <- builtin_float_at parameters 4 ;;
  S_ <- builtin_float_at parameters 5 ;;
  let parameter_pointers :=
    parameter_pointers
      ++ replicate false (len parameters - len parameter_pointers) in
  Ok (mk parameters parameter_pointers pointer_ X Y Z_ S_).

End Singular_Subgfigure_Instance.

(** ** class Face *)

Module Face.

Record t : Type := mk {
  surf_pointer : Z;
  n_loops : Z;
  outer_loop_flag : bool;
  loop_pointers : list Z
}.

Definition _add_parameters (parameters : list string) : result t :=
  surf_pointer <- int_at parameters 1 ;;
  n_loops <- int_at parameters 2 ;;
  flag <- getitem parameters 3 ;;
  let outer_loop_flag := bool_of_str flag in
  loop_pointers <-
    mapM (fun i => int_at parameters (4 + i)) (range 0 n_loops) ;;
  Ok (mk surf_pointer n_loops outer_loop_flag loop_pointers).

End Face.

(** ** class Loop *)

Module Loop.

(** The dictionaries built for a parameter-space curve and for an edge. *)
Record curve : Type := mk_curve {
  iso : bool;
  psc : Z
}.

Record edge : Type := mk_edge {
  type : Z;
  e1 : Z;
  index1 : Z;
  flag1 : bool;
  k1 : Z;
  curves : list curve
}.

Record t : Type := mk {
  parameters : list string;
  n_edges : Z;
  _edges : list edge
}.

Definition read_curve (parameters : list string) (c j : Z) : result curve :=
  tok <- getitem parameters (7 + c + j * 2) ;;
  psc <- int_at parameters (8 + c + j * 2) ;;
  Ok (mk_curve (bool_of_str tok) psc).

(** One turn of the outer loop; the state is the list of edges and the
    offset [c]. *)
Definition loop_body (parameters : list string)
    (st : list edge * Z) (i : Z) : result (list edge * Z) :=
  let (edges, c) := st in
  type <- int_at parameters (2 + c) ;;
  e1 <- int_at parameters (3 + c) ;;
  index1 <- int_at parameters (4 + c) ;;
  flag <- getitem parameters (5 + c) ;;
  k1 <- int_at parameters (6 + c) ;;
  curves <- mapM (read_curve parameters c) (range 0 k1) ;;
  let c := c + (5 + 2 * k1) in
  Ok (edges ++ [mk_edge type e1 index1 (bool_of_str flag) k1 curves], c).

Definition _add_parameters (parameters : list string) : result t :=
  n_edges <- int_at parameters 1 ;;
  st <- foldM (loop_body parameters) (range 0 n_edges) ([], 0) ;;
  Ok (mk parameters n_edges (fst st)).

End Loop.

(** ** class EdgeList *)

Module EdgeList.

Record edge : Type := mk_edge {
  curve1 : Z;
  svl : Z;
  s : Z;
  evl : Z;
  e : Z
}.

Record t : Type := mk {
  parameters : list string;
  n_edges : Z;
  edges : list edge
}.

Definition read_edge (parameters : list string) (i : Z) : result edge :=
  curve1 <- int_at parameters (2 + 5 * i) ;;
  svl <- int_at parameters (3 + 5 * i) ;;
  s <- int_at parameters (4 + 5 * i) ;;
  evl <- int_at parameters (5 + 5 * i) ;;
  e <- int_at parameters (6 + 5 * i) ;;
  Ok (mk_edge curve1 svl s evl e).

Definition _add_parameters (parameters : list string) : result t :=
  n_edges <- int_at parameters 1 ;;
  edges <- mapM (read_edge parameters) (range 0 n_edges) ;;
  Ok (mk parameters n_edges edges).

(** [len(self)] *)
Definition __len__ (self : t) : Z := len self.(edges).

End EdgeList.

(** ** class VertexList *)

Module VertexList.

Record t : Type := mk {
  parameters : list string;
  parameter_pointers : list bool;
  n_points : Z;
  points : list point3
}.

Definition read_point (parameters : list string) (i : Z) : result point3 :=
  x <- float_at parameters (2 + i * 3) ;;
  y <- float_at parameters (3 + i * 3) ;;
  z <- float_at parameters (4 + i * 3) ;;
  Ok (x, y, z).

Definition _add_parameters (parameters : list string) : result t :=
  let parameter_pointers := replicate false (len parameters) in
  n_points <- int_at parameters 1 ;;
  points <- mapM (read_point parameters) (range 0 n_points) ;;
  Ok (mk parameters parameter_pointers n_points points).

End VertexList.

(** ** The accessors that resolve pointers

    [self.iges.from_pointer] is outside [geometry.py]; it is a parameter
    here, as for [Boundary]. *)

Section Accessors.

Variable Entity : Type.
Variable from_pointer : pointer -> result Entity.

(** The loop [for p in ptrs: acc.append(from_pointer(p))]. *)
Definition collect_body (acc : list Entity) (ptr : Z) : result (list Entity) :=
  e <- from_pointer (PtrTok (VInt ptr)) ;;
  Ok (acc ++ [e]).

Definition Composite_Curve_get_curves (self : Composite_Curve.t)
  : result (list Entity) :=
  foldM collect_body self.(Composite_Curve.curves) [].

Definition Bounded_Surface_get_boundaries (self : Bounded_Surface.t)
  : result (list Entity) :=
  foldM collect_body self.(Bounded_Surface.B) [].

Definition Face_loops (self : Face.t) : result (list Entity) :=
  foldM collect_body self.(Face.loop_pointers) [].

(** [EdgeList.__getitem__]: the curve of the edge at [indices]. *)
Definition EdgeList___getitem__ (self : EdgeList.t) (indices : Z)
  : result Entity :=
  edge <- getitem self.(EdgeList.edges) indices ;;
  from_pointer (PtrTok (VInt edge.(EdgeList.curve1))).

End Accessors.

(** ** Notions used to state the further properties *)

(** The string holds a "d" or a "D". *)
Definition has_d (s : string) : bool :=
  str_any (fun c => Ascii.eqb c "d" || Ascii.eqb c "D") s.

(** The tokens of one edge of a Loop record: type, edge-list pointer,
    index, orientation flag, the number K of parameter-space curves, then
    K pairs (isoparametric flag, curve pointer). *)
Record loop_group : Type := mk_group {
  g_type : string;
  g_e1 : string;
  g_index1 : string;
  g_flag1 : string;
  g_k1 : string;
  g_curves : list (string * string)
}.

Definition curve_tokens (c : string * string) : list string :=
  [fst c; snd c].

Definition group_tokens (g : loop_group) : list string :=
  [g.(g_type); g.(g_e1); g.(g_index1); g.(g_flag1); g.(g_k1)]
    ++ flat_map curve_tokens g.(g_curves).

(** The Loop record with the given edges: type code, their number, the
    edges one after the other, and whatever follows. *)
Definition loop_layout (ty n : string) (groups : list loop_group)
    (rest : list string) : list string :=
  [ty; n] ++ flat_map group_tokens groups ++ rest.

(** The tokens of a curve, and of an edge, read as the decoder reads
    them. *)
Definition curve_reads (c : string * string) (cv : Loop.curve) : Prop :=
  Loop.iso cv = bool_of_str (fst c) /\ py_int (snd c) = Ok (Loop.psc cv).

Definition group_reads (g : loop_group) (e : Loop.edge) : Prop :=
  py_int g.(g_type) = Ok (Loop.type e)
  /\ py_int g.(g_e1) = Ok (Loop.e1 e)
  /\ py_int g.(g_index1) = Ok (Loop.index1 e)
  /\ Loop.flag1 e = bool_of_str g.(g_flag1)
  /\ py_int g.(g_k1) = Ok (Loop.k1 e)
  /\ Loop.k1 e = len g.(g_curves)
  /\ Forall2 curve_reads g.(g_curves) (Loop.curves e).

(** ** Decoding by kind, and the length a decoder needs

    The decoders that read their tokens by index.  Left out are Subfigure
    and Boundary, which take their pointers with a slice, and
    Parametric_Spline_Curve and Property_Entity, which read no token. *)

Inductive kind : Type :=
| KPoint
| KLine
| KCircularArc (transform : option pyval)
| KTransformation
| KConicArc
| KSurface_of_Revolution
| KTabulated_Cylinder
| KCurve
| KSurface
| KComposite_Curve
| KCurve_On_A_Parametric_Surface
| KTrimmed_Surface
| KBounded_Surface
| KColor
| KSingular_Subgfigure_Instance
| KFace
| KLoop
| KEdgeList
| KVertexList.

Inductive entity : Type :=
| EPoint (p : Point.t)
| ELine (l : Line.t)
| ECircularArc (a : CircularArc.t)
| ETransformation (t : Transformation.t)
| EConicArc (a : ConicArc.t)
| ESurface_of_Revolution (s : Surface_of_Revolution.t)
| ETabulated_Cylinder (c : Tabulated_Cylinder.t)
| ECurve (c : RationalBSplineCurve.t)
| ESurface (s : RationalBSplineSurface.t)
| EComposite_Curve (c : Composite_Curve.t)
| ECurve_On_A_Parametric_Surface (c : Curve_On_A_Parametric_Surface.t)
| ETrimmed_Surface (s : Trimmed_Surface.t)
| EBounded_Surface (s : Bounded_Surface.t)
| EColor (c : Color.t)
| ESingular_Subgfigure_Instance (i : Singular_Subgfigure_Instance.t)
| EFace (f : Face.t)
| ELoop (l : Loop.t)
| EEdgeList (l : EdgeList.t)
| EVertexList (l : VertexList.t).

Definition decode (k : kind) (toks : list string) : result entity :=
  match k with
  | KPoint => p <- Point._add_parameters toks ;; Ok (EPoint p)
  | KLine => l <- Line._add_parameters toks ;; Ok (ELine l)
  | KCircularArc transform =>
      a <- CircularArc._add_parameters transform toks ;; Ok (ECircularArc a)
  | KTransformation =>
      t <- Transformation._add_parameters toks ;; Ok (ETransformation t)
  | KConicArc => a <- ConicArc._add_parameters toks ;; Ok (EConicArc a)
  | KSurface_of_Revolution =>
      s <- Surface_of_Revolution._add_parameters toks ;;
      Ok (ESurface_of_Revolution s)
  | KTabulated_Cylinder =>
      c <- Tabulated_Cylinder._add_parameters toks ;;
      Ok (ETabulated_Cylinder c)
  | KCurve => c <- RationalBSplineCurve._add_parameters toks ;; Ok (ECurve c)
  | KSurface =>
      s <- RationalBSplineSurface._add_parameters toks ;; Ok (ESurface s)
  | KComposite_Curve =>
      c <- Composite_Curve._add_parameters toks ;; Ok (EComposite_Curve c)
  | KCurve_On_A_Parametric_Surface =>
      c <- Curve_On_A_Parametric_Surface._add_parameters toks ;;
      Ok (ECurve_On_A_Parametric_Surface c)
  | KTrimmed_Surface =>
      s <- Trimmed_Surface._add_parameters toks ;; Ok (ETrimmed_Surface s)
  | KBounded_Surface =>
      s <- Bounded_Surface._add_parameters toks ;; Ok (EBounded_Surface s)
  | KColor => c <- Color._add_parameters toks ;; Ok (EColor c)
  | KSingular_Subgfigure_Instance =>
      i <- Singular_Subgfigure_Instance._add_parameters toks ;;
      Ok (ESingular_Subgfigure_Instance i)
  | KFace => f <- Face._add_parameters toks ;; Ok (EFace f)
  | KLoop => l <- Loop._add_parameters toks ;; Ok (ELoop l)
  | KEdgeList => l <- EdgeList._add_parameters toks ;; Ok (EEdgeList l)
  | KVertexList => l <- VertexList._add_parameters toks ;; Ok (EVertexList l)
  end.

(** The length of a count-prefixed record: [header] tokens, the count among
    them at [idx], then [stride] tokens for each of the announced items (a
    count below 1 announces none). *)
Definition counted (toks : list string) (header idx stride : Z) : option Z :=
  if len toks <? header then Some header
  else match int_at toks idx with
       | Ok n => Some (header + stride * Z.max 0 n)
       | Raise _ => None
       end.

(** The length of a Loop record with [n] more edges to read from offset
    [c]: an edge is five tokens, the last of them the number K of its
    parameter-space curves, followed by K pairs. *)
Fixpoint loop_required (toks : list string) (n : nat) (c : Z) : option Z :=
  match n with
  | O => Some (2 + c)
  | S n' =>
      if len toks <? 7 + c then Some (7 + c)
      else match int_at toks (6 + c) with
           | Ok k1 =>
               if 0 <=? k1 then loop_required toks n' (c + (5 + 2 * k1))
               else None
           | Raise _ => None
           end
  end.

(** The number of tokens the decoder of a kind reads, as its own index
    arithmetic gives it: fixed for the decoders that read given positions;
    for the count-prefixed ones a function of the count found in the
    record; for a curve and a surface a function of the upper indices and
    degrees found in the record (and the fixed leading part when the record
    is too short to hold even those).  There is none when a count that the
    arithmetic depends on is no number, or when an upper index, a degree or
    the number of curves of an edge is negative. *)
Definition required_length (k : kind) (toks : list string) : option Z :=
  match k with
  | KPoint => Some 4
  | KLine => Some 7
  | KCircularArc _ => Some 8
  | KTransformation => Some 13
  | KConicArc => Some 13
  | KSurface_of_Revolution => Some 5
  | KTabulated_Cylinder => Some 5
  | KCurve =>
      if len toks <? 7 then Some 7
      else match int_at toks 1, int_at toks 2 with
           | Ok K, Ok M =>
               if (0 <=? K) && (0 <=? M)
               then Some (14 + (1 + K - M + 2 * M) + 4 * K)
               else None
           | _, _ => None
           end
  | KSurface =>
      if len toks <? 10 then Some 10
      else match mapM parse_float toks with
           | Ok vals =>
               match RationalBSplineSurface.int_item vals 1,
                     RationalBSplineSurface.int_item vals 2,
                     RationalBSplineSurface.int_item vals 3,
                     RationalBSplineSurface.int_item vals 4 with
               | Ok k1, Ok k2, Ok m1, Ok m2 =>
                   if (0 <=? k1) && (0 <=? k2) && (0 <=? m1) && (0 <=? m2)
                   then Some (14 + k2 + k1 + m1 + m2
                              + (1 + k2) * (1 + k1)
                              + 3 * (1 + k2) * (1 + k1) + 4)
                   else None
               | _, _, _, _ => None
               end
           | Raise _ => None
           end
  | KComposite_Curve => counted toks 2 1 1
  | KCurve_On_A_Parametric_Surface => Some 6
  | KTrimmed_Surface => counted toks 5 3 1
  | KBounded_Surface => counted toks 4 3 1
  | KColor => Some 4
  | KSingular_Subgfigure_Instance => Some 6
  | KFace => counted toks 4 2 1
  | KLoop =>
      if len toks <? 2 then Some 2
      else match int_at toks 1 with
           | Ok n => loop_required toks (Z.to_nat n) 0
           | Raise _ => None
           end
  | KEdgeList => counted toks 2 1 5
  | KVertexList => counted toks 2 1 3
  end.

(** Records one token short: a Face that announces two loops, and a Loop
    whose one edge announces one parameter-space curve. *)
Definition face_record_short : list string :=
  ["510"; "11"; "2"; "1"; "21"].

Definition loop_record_short : list string :=
  ["508"; "1"; "0"; "31"; "1"; "1"; "1"; "0"].

(** A Boundary record of [int] tokens whose one curve announces three
    parameter-space curves and holds one. *)
Definition boundary_record_short : list pyval :=
  map VInt [141; 1; 0; 12; 1; 21; 0; 3; 31].

(** * Properties *)

(** ** The result monad *)

Lemma bind_Ok_inv {A B} (r : result A) (k : A -> result B) (b : B) :
  bind r k = Ok b -> exists a, r = Ok a /\ k a = Ok b.
Proof.
  destruct r as [a|e]; simpl; intros H; [eauto | discriminate].
Qed.

Lemma bind_Raise_inv {A B} (r : result A) (k : A -> result B) (e : exn) :
  bind r k = Raise e -> r = Raise e \/ exists a, r = Ok a /\ k a = Raise e.
Proof.
  destruct r as [a|e']; simpl; intros H; [right; eauto | left; congruence].
Qed.

(** ** [parse_float] and the legacy exponent marker *)

Ltac each_ascii c :=
  destruct c as [[] [] [] [] [] [] [] []]; vm_compute; reflexivity.

Lemma cls_lower (c : ascii) : cls (lower_ascii c) = cls c.
Proof. each_ascii c. Qed.

Lemma fstep_lower st c : fstep st (lower_ascii c) = fstep st c.
Proof. unfold fstep. now rewrite cls_lower. Qed.

Lemma frun_lower s : forall st, frun st (lower s) = frun st s.
Proof.
  induction s as [|c s IH]; intros st; simpl; [reflexivity|].
  now rewrite fstep_lower, IH.
Qed.

Lemma py_float_lower s : py_float (lower s) = py_float s.
Proof. unfold py_float. now rewrite frun_lower. Qed.

Lemma frun_reject s :
  forall st, fst st = P_reject -> fst (frun st s) = P_reject.
Proof.
  induction s as [|c s IH]; intros [p a] Hp; simpl in *; [exact Hp|].
  subst p. apply IH. unfold fstep. destruct (cls c); reflexivity.
Qed.

Lemma fstep_other st c : is_other c = true -> fst (fstep st c) = P_reject.
Proof.
  unfold is_other, fstep. destruct (cls c); try discriminate.
  intros _. destruct st as [[] a]; reflexivity.
Qed.

Lemma frun_other s :
  forall st, str_any is_other s = true -> fst (frun st s) = P_reject.
Proof.
  induction s as [|c s IH]; intros st H; simpl in *; [discriminate|].
  apply orb_true_iff in H. destruct H as [H|H].
  - apply frun_reject. now apply fstep_other.
  - now apply IH.
Qed.

(** A string [float] accepts holds none of the characters the grammar has
    no use for; "d" and "D" are among those. *)
Lemma py_float_Ok_clean s v : py_float s = Ok v -> str_any is_other s = false.
Proof.
  unfold py_float. intros H.
  destruct (str_any is_other s) eqn:E; [|reflexivity].
  pose proof (frun_other s (P_start, facc0) E) as R.
  destruct (frun (P_start, facc0) s) as [p a]. simpl in R. subst p.
  discriminate.
Qed.

Lemma py_float_raises s e : py_float s = Raise e -> e = ValueError.
Proof.
  unfold py_float. destruct (frun (P_start, facc0) s) as [p a].
  destruct (accepting p); congruence.
Qed.

Lemma str_map_clean_id g s :
  (forall c, undone g c = true) ->
  str_any is_other s = false ->
  str_any is_other (str_map g s) = false -> str_map g s = s.
Proof.
  intros Hg. induction s as [|c s IH]; simpl; [reflexivity|].
  intros Hs Hm. apply orb_false_iff in Hs, Hm.
  destruct Hs as [Hc Hs], Hm as [Hgc Hm].
  rewrite (IH Hs Hm). f_equal.
  specialize (Hg c). unfold undone in Hg. rewrite Hc, Hgc in Hg. simpl in Hg.
  apply andb_true_iff in Hg. destruct Hg as [Hg _].
  rewrite orb_false_r in Hg. now apply Ascii.eqb_eq.
Qed.

Lemma str_map_undone g s :
  (forall c, undone g c = true) ->
  str_any is_other s = false ->
  replace "d" "e" (lower (str_map g s)) = lower s.
Proof.
  intros Hg. unfold replace, lower.
  induction s as [|c s IH]; simpl; [reflexivity|].
  intros Hs. apply orb_false_iff in Hs. destruct Hs as [Hc Hs].
  rewrite (IH Hs). f_equal.
  specialize (Hg c). unfold undone in Hg. rewrite Hc in Hg. simpl in Hg.
  apply andb_true_iff in Hg. destruct Hg as [_ Hg].
  apply Ascii.eqb_eq in Hg. exact Hg.
Qed.

Lemma parse_float_str_map g s v :
  (forall c, undone g c = true) ->
  py_float s = Ok v -> parse_float (str_map g s) = Ok v.
Proof.
  intros Hg Hs. pose proof (py_float_Ok_clean _ Hs) as Hc.
  unfold parse_float.
  destruct (py_float (str_map g s)) as [w|e] eqn:E; simpl.
  - rewrite (str_map_clean_id g s Hg Hc (py_float_Ok_clean _ E)) in E.
    congruence.
  - rewrite (py_float_raises _ E).
    now rewrite (str_map_undone g s Hg Hc), py_float_lower.
Qed.

Lemma str_map_compose f g s :
  str_map f (str_map g s) = str_map (fun c => f (g c)) s.
Proof. induction s as [|c s IH]; simpl; [reflexivity | now rewrite IH]. Qed.

Lemma undone_E_to_D c : undone E_to_D c = true.
Proof. each_ascii c. Qed.

Lemma undone_both c : undone (fun c => e_to_d (E_to_D c)) c = true.
Proof. each_ascii c. Qed.

Lemma parse_float_std s v : py_float s = Ok v -> parse_float s = Ok v.
Proof. unfold parse_float. now intros ->. Qed.

(** C7. Whenever [float] accepts [s], [parse_float] gives the same value
    on [s], on [s] with every "E" turned into "D", and on [s] with the
    exponent marker turned into "D"/"d" in either case; "1.2D3" and "1.2E3"
    both give 1200; and [parse_float] raises exactly when both the standard
    parse and the parse after the case-insensitive D-to-E substitution
    raise. *)
Theorem parse_float_legacy_exponent (s : string) (v : pyfloat) :
  py_float s = Ok v ->
  parse_float s = Ok v
  /\ parse_float (replace "E" "D" s) = Ok v
  /\ parse_float (replace "e" "d" (replace "E" "D" s)) = Ok v
  /\ parse_float "1.2D3" = Ok (fl 1200)
  /\ parse_float "1.2E3" = Ok (fl 1200)
  /\ (forall t e,
        parse_float t = Raise e <->
        py_float t = Raise ValueError
        /\ py_float (replace "d" "e" (lower t)) = Raise e).
Proof.
  intros Hs. repeat split.
  - now apply parse_float_std.
  - apply (parse_float_str_map E_to_D s undone_E_to_D Hs).
  - unfold replace. rewrite str_map_compose.
    apply (parse_float_str_map _ s undone_both Hs).
  - unfold parse_float in H.
    destruct (py_float t) as [w|e'] eqn:E; simpl in H; [discriminate|].
    now rewrite (py_float_raises _ E).
  - unfold parse_float in H.
    destruct (py_float t) as [w|e'] eqn:E; simpl in H; [discriminate|].
    rewrite (py_float_raises _ E) in H. exact H.
  - intros [H1 H2]. unfold parse_float. rewrite H1. exact H2.
Qed.

Lemma parse_float_legacy_exponent_witness :
  py_float "1.2E3" = Ok (fl 1200)
  /\ parse_float (replace "E" "D" "1.2E3") = Ok (fl 1200).
Proof.
  split; [reflexivity|].
  apply (parse_float_legacy_exponent "1.2E3" (v := fl 1200)). reflexivity.
Defined.

(** ** Python sequences *)

Lemma len_nil {A} : len (@nil A) = 0.
Proof. reflexivity. Qed.

Lemma len_cons {A} (x : A) l : len (x :: l) = 1 + len l.
Proof. unfold len. simpl List.length. lia. Qed.

Lemma len_app {A} (l1 l2 : list A) : len (l1 ++ l2) = len l1 + len l2.
Proof. unfold len. rewrite length_app. lia. Qed.

Lemma len_nonneg {A} (l : list A) : 0 <= len l.
Proof. unfold len. lia. Qed.

Create Rewrite HintDb len.
#[local] Hint Rewrite @len_nil @len_cons @len_app : len.

Ltac len_simpl := autorewrite with len in *.

Lemma getitem_nth {A} (l : list A) i a :
  0 <= i -> nth_error l (Z.to_nat i) = Some a -> getitem l i = Ok a.
Proof.
  intros Hi Hn. unfold getitem.
  assert (Hlt : (Z.to_nat i < List.length l)%nat).
  { apply nth_error_Some. congruence. }
  destruct (i <? 0) eqn:E; [lia|].
  replace ((i <? 0) || (len l <=? i)) with false.
  - now rewrite Hn.
  - symmetry. apply orb_false_iff. unfold len. split; lia.
Qed.

Lemma getitem_app_mid {A} (pre post : list A) x i :
  i = len pre -> getitem (pre ++ x :: post) i = Ok x.
Proof.
  intros ->. apply getitem_nth; [apply len_nonneg|].
  unfold len. rewrite Nat2Z.id, nth_error_app2, Nat.sub_diag; [reflexivity|lia].
Qed.

Lemma getitem_Ok_bound {A} (l : list A) i a :
  getitem l i = Ok a -> 0 <= i -> i < len l.
Proof.
  unfold getitem. intros H Hi.
  destruct (i <? 0) eqn:E; [lia|].
  destruct ((i <? 0) || (len l <=? i)) eqn:E'; [discriminate|].
  apply orb_false_iff in E'. lia.
Qed.

Lemma getitem_past_end {A} (l : list A) i :
  len l <= i -> getitem l i = Raise IndexError.
Proof.
  intros H. pose proof (len_nonneg l). unfold getitem.
  destruct (i <? 0) eqn:E; [lia|].
  replace ((i <? 0) || (len l <=? i)) with true; [reflexivity|].
  symmetry. apply orb_true_iff. right. lia.
Qed.

Lemma range_nil a b : b <= a -> range a b = [].
Proof.
  intros H. unfold range. replace (Z.to_nat (b - a)) with 0%nat by lia.
  reflexivity.
Qed.

Lemma range_cons a b : a < b -> range a b = a :: range (a + 1) b.
Proof.
  intros H. unfold range.
  replace (Z.to_nat (b - a)) with (S (Z.to_nat (b - (a + 1)))) by lia.
  simpl. f_equal; [lia|].
  rewrite <- seq_shift, map_map. apply map_ext. intros k. lia.
Qed.

Lemma range_step_nil a b step : 0 < step -> b <= a -> range_step a b step = [].
Proof.
  intros Hs H. unfold range_step.
  replace (Z.to_nat ((b - a + step - 1) / step)) with 0%nat; [reflexivity|].
  assert ((b - a + step - 1) / step <= 0); [|lia].
  apply Z.lt_succ_r. apply Z.div_lt_upper_bound; lia.
Qed.

Lemma range_step_cons a b step :
  0 < step -> a < b -> range_step a b step = a :: range_step (a + step) b step.
Proof.
  intros Hs H. unfold range_step.
  replace (b - a + step - 1) with ((b - (a + step) + step - 1) + 1 * step)
    by lia.
  rewrite Z.div_add by lia.
  assert (0 <= (b - (a + step) + step - 1) / step).
  { apply Z.div_pos; lia. }
  replace (Z.to_nat ((b - (a + step) + step - 1) / step + 1))
    with (S (Z.to_nat ((b - (a + step) + step - 1) / step))) by lia.
  simpl. f_equal; [lia|].
  rewrite <- seq_shift, map_map. apply map_ext. intros k. lia.
Qed.

Lemma mapM_length {A B} (f : A -> result B) l bs :
  mapM f l = Ok bs -> len bs = len l.
Proof.
  revert bs. induction l as [|a l IH]; simpl; intros bs H.
  - now inversion H.
  - apply bind_Ok_inv in H. destruct H as [b [_ H]].
    apply bind_Ok_inv in H. destruct H as [bs' [Hbs H]].
    inversion H; subst. len_simpl. now rewrite (IH _ Hbs).
Qed.

Lemma mapM_app {A B} (f : A -> result B) l1 l2 b1 b2 :
  mapM f l1 = Ok b1 -> mapM f l2 = Ok b2 -> mapM f (l1 ++ l2) = Ok (b1 ++ b2).
Proof.
  revert b1. induction l1 as [|a l1 IH]; simpl; intros b1 H1 H2.
  - inversion H1. exact H2.
  - apply bind_Ok_inv in H1. destruct H1 as [b [Hb H1]].
    apply bind_Ok_inv in H1. destruct H1 as [bs [Hbs H1]].
    inversion H1; subst. rewrite Hb. simpl. now rewrite (IH _ Hbs H2).
Qed.

(** Reading, one index at a time, a segment [mid] of the token list. *)
Lemma mapM_range_segment {B} (f : string -> result B) mid :
  forall pre post vals a b,
    mapM f mid = Ok vals ->
    a = len pre -> b = a + len mid ->
    mapM (fun i => tok <- getitem (pre ++ mid ++ post) i ;; f tok) (range a b)
    = Ok vals.
Proof.
  induction mid as [|x mid IH]; intros pre post vals a b Hm Ha Hb; simpl in Hm.
  - inversion Hm. rewrite range_nil; [reflexivity | len_simpl; lia].
  - apply bind_Ok_inv in Hm. destruct Hm as [v [Hv Hm]].
    apply bind_Ok_inv in Hm. destruct Hm as [vs [Hvs Hm]].
    inversion Hm; subst vals.
    pose proof (len_nonneg mid).
    rewrite range_cons by (len_simpl; lia). simpl.
    rewrite (getitem_app_mid pre (mid ++ post) x Ha). simpl. rewrite Hv. simpl.
    replace (pre ++ x :: mid ++ post) with ((pre ++ [x]) ++ mid ++ post)
      by (now rewrite <- app_assoc).
    rewrite (IH (pre ++ [x]) post vs (a + 1) b Hvs);
      [reflexivity | len_simpl; lia | len_simpl; lia].
Qed.

Lemma reshape3_length l pts : reshape3 l = Ok pts -> len l = 3 * len pts.
Proof.
  revert l. induction pts as [|p pts IH]; intros l H.
  - destruct l as [|x [|y [|z l]]]; simpl in H; try discriminate;
      [reflexivity|].
    destruct (reshape3 l); simpl in H; discriminate.
  - destruct l as [|x [|y [|z l]]]; simpl in H; try discriminate.
    apply bind_Ok_inv in H. destruct H as [ps [Hps H]].
    inversion H; subst. len_simpl. rewrite (IH _ Hps). lia.
Qed.

(** [slice] on a segment of the list. *)
Lemma slice_segment {A} (pre mid post : list A) a b :
  a = len pre -> b = a + len mid -> slice (pre ++ mid ++ post) a b = mid.
Proof.
  intros Ha Hb. unfold slice, slice_bound.
  pose proof (len_nonneg pre). pose proof (len_nonneg mid).
  pose proof (len_nonneg post).
  assert (Hl : len (pre ++ mid ++ post) = len pre + len mid + len post)
    by (len_simpl; lia).
  rewrite Hl.
  destruct (a <? 0) eqn:Ea; [lia|]. destruct (b <? 0) eqn:Eb; [lia|].
  replace (Z.min (len pre + len mid + len post) (Z.max 0 a)) with a by lia.
  replace (Z.min (len pre + len mid + len post) (Z.max 0 b)) with b by lia.
  subst a b. unfold len.
  replace (Z.to_nat (Z.of_nat (List.length pre) + Z.of_nat (List.length mid)
                     - Z.of_nat (List.length pre)))
    with (List.length mid) by lia.
  rewrite Nat2Z.id.
  rewrite skipn_app, skipn_all, Nat.sub_diag. simpl.
  rewrite firstn_app, firstn_all, Nat.sub_diag. simpl. apply app_nil_r.
Qed.

Lemma getitem_app_r {A} (pre l : list A) i :
  len pre <= i -> getitem (pre ++ l) i = getitem l (i - len pre).
Proof.
  intros H. pose proof (len_nonneg pre). unfold getitem.
  destruct (i <? 0) eqn:E; [lia|].
  destruct (i - len pre <? 0) eqn:E'; [lia|].
  rewrite len_app.
  replace (len pre + len l <=? i) with (len l <=? i - len pre)
    by (destruct (len l <=? i - len pre) eqn:E1;
        destruct (len pre + len l <=? i) eqn:E2; lia).
  rewrite nth_error_app2 by (unfold len in *; lia).
  replace (Z.to_nat i - List.length pre)%nat with (Z.to_nat (i - len pre))
    by (unfold len; lia).
  rewrite E, E'. reflexivity.
Qed.

Lemma getitem_at {A} (pre l : list A) i k a :
  i = len pre + k -> 0 <= k -> nth_error l (Z.to_nat k) = Some a ->
  getitem (pre ++ l) i = Ok a.
Proof.
  intros -> Hk Hn. rewrite getitem_app_r by lia.
  replace (len pre + k - len pre) with k by lia. now apply getitem_nth.
Qed.

(** Reading the control points, three tokens at a time. *)
Lemma mapM_read_points pts :
  forall mid vals pre post a b,
    mapM parse_float mid = Ok vals -> reshape3 vals = Ok pts ->
    a = len pre -> b = a + len mid - 2 ->
    mapM (RationalBSplineCurve.read_point (pre ++ mid ++ post))
         (range_step a b 3) = Ok pts.
Proof.
  induction pts as [|p pts IH]; intros mid vals pre post a b Hm Hr Ha Hb.
  - pose proof (reshape3_length _ Hr) as Hl.
    pose proof (mapM_length _ _ Hm) as Hl'.
    rewrite range_step_nil; [reflexivity | lia | len_simpl; lia].
  - destruct vals as [|vx [|vy [|vz vals]]]; simpl in Hr; try discriminate.
    apply bind_Ok_inv in Hr. destruct Hr as [ps [Hps Hr]].
    inversion Hr; subst p pts. clear Hr.
    destruct mid as [|x mid]; simpl in Hm; [discriminate|].
    apply bind_Ok_inv in Hm. destruct Hm as [vx' [Hx Hm]].
    apply bind_Ok_inv in Hm. destruct Hm as [vs1 [Hm E1]].
    inversion E1; subst vx' vs1. clear E1.
    destruct mid as [|y mid]; simpl in Hm; [discriminate|].
    apply bind_Ok_inv in Hm. destruct Hm as [vy' [Hy Hm]].
    apply bind_Ok_inv in Hm. destruct Hm as [vs1 [Hm E1]].
    inversion E1; subst vy' vs1. clear E1.
    destruct mid as [|z mid]; simpl in Hm; [discriminate|].
    apply bind_Ok_inv in Hm. destruct Hm as [vz' [Hz Hm]].
    apply bind_Ok_inv in Hm. destruct Hm as [vs1 [Hm E1]].
    inversion E1; subst vz' vs1. clear E1.
    pose proof (len_nonneg mid).
    rewrite range_step_cons by (len_simpl; lia).
    cbn [mapM]. unfold RationalBSplineCurve.read_point at 1. unfold float_at.
    rewrite (getitem_at pre ((x :: y :: z :: mid) ++ post) (k := 0) (a := x))
      by (try reflexivity; lia).
    cbn [bind]. rewrite Hx. cbn [bind].
    rewrite (getitem_at pre ((x :: y :: z :: mid) ++ post) (k := 1) (a := y))
      by (try reflexivity; lia).
    cbn [bind]. rewrite Hy. cbn [bind].
    rewrite (getitem_at pre ((x :: y :: z :: mid) ++ post) (k := 2) (a := z))
      by (try reflexivity; lia).
    cbn [bind]. rewrite Hz. cbn [bind].
    replace (pre ++ (x :: y :: z :: mid) ++ post)
      with ((pre ++ [x; y; z]) ++ mid ++ post)
      by (now rewrite <- app_assoc).
    rewrite (IH mid vals (pre ++ [x; y; z]) post (a + 3) b Hm Hps);
      [reflexivity | len_simpl; lia | len_simpl; lia].
Qed.

Lemma mapM_float_segment toks pre mid post vals a b :
  toks = pre ++ mid ++ post ->
  mapM parse_float mid = Ok vals -> a = len pre -> b = a + len mid ->
  mapM (float_at toks) (range a b) = Ok vals.
Proof.
  intros -> Hm Ha Hb. unfold float_at.
  now apply mapM_range_segment.
Qed.

Lemma float_at_segment toks pre x post v i :
  toks = pre ++ x :: post -> parse_float x = Ok v -> i = len pre ->
  float_at toks i = Ok v.
Proof.
  intros -> Hx Hi. unfold float_at. now rewrite getitem_app_mid.
Qed.

Lemma int_at_nth toks i s z :
  0 <= i -> nth_error toks (Z.to_nat i) = Some s -> py_int s = Ok z ->
  int_at toks i = Ok z.
Proof.
  intros Hi Hn Hs. unfold int_at. now rewrite (@getitem_nth _ toks i s Hi Hn).
Qed.

Lemma float_at_short toks i : len toks <= i -> float_at toks i = Raise IndexError.
Proof. intros H. unfold float_at. now rewrite getitem_past_end. Qed.

Lemma ro_parse_float_value s e : parse_float s = Raise e -> e = ValueError.
Proof.
  unfold parse_float. destruct (py_float s) as [v|e'] eqn:E; simpl;
    [discriminate|].
  rewrite (py_float_raises _ E). apply py_float_raises.
Qed.

(** ** RationalBSplineCurve on a well-formed record *)

Section CurveLayout.

Variables ty sK sM s1 s2 s3 s4 : string.
Variables knots ws points rest : list string.
Variables wlast v0 v1 : string.
Variables K M p1 p2 p3 p4 : Z.
Variables Tv Wv pv : list pyfloat.
Variable cps : list point3.
Variables V0 V1 : pyfloat.
Variable norm : option point3.

Let header := [ty; sK; sM; s1; s2; s3; s4].
Let toks := curve_layout header knots (ws ++ [wlast]) points v0 v1 rest.
Let N := 1 + K - M.
Let A := N + 2 * M.

Hypothesis HK : py_int sK = Ok K.
Hypothesis HM : py_int sM = Ok M.
Hypothesis Hp1 : py_int s1 = Ok p1.
Hypothesis Hp2 : py_int s2 = Ok p2.
Hypothesis Hp3 : py_int s3 = Ok p3.
Hypothesis Hp4 : py_int s4 = Ok p4.
Hypothesis K_nonneg : 0 <= K.
Hypothesis M_nonneg : 0 <= M.
(* N + 2M + 1 knots *)
Hypothesis Hknots : mapM parse_float knots = Ok Tv.
Hypothesis knots_len : len knots = N + 2 * M + 1.
(* K + 1 weights: [ws] and [wlast] *)
Hypothesis Hws : mapM parse_float ws = Ok Wv.
Hypothesis ws_len : len ws = K.
(* K + 1 control points, three tokens each *)
Hypothesis Hpoints : mapM parse_float points = Ok pv.
Hypothesis Hcps : reshape3 pv = Ok cps.
Hypothesis points_len : len points = 3 * (K + 1).
Hypothesis HV0 : parse_float v0 = Ok V0.
Hypothesis HV1 : parse_float v1 = Ok V1.
Hypothesis Hrest : trailing rest norm.

Lemma curve_len_toks : len toks = 14 + A + 4 * K + len rest.
Proof.
  unfold toks, curve_layout, header, A, N in *. len_simpl. lia.
Qed.

(** The decoder up to the test for the unit normal; nothing is assumed of
    what follows the parameter range. *)
Lemma curve_decoded_upto_normal :
  RationalBSplineCurve._add_parameters toks
  = (if len toks >? 14 + A + 4 * K + 1 then
       XNORM <- float_at toks (14 + A + 4 * K) ;;
       YNORM <- float_at toks (15 + A + 4 * K) ;;
       ZNORM <- float_at toks (16 + A + 4 * K) ;;
       Ok (RationalBSplineCurve.mk toks (replicate false (len toks))
             K M p1 p2 p3 p4 N A Tv Wv cps V0 V1 true
             (Some (XNORM, YNORM, ZNORM)))
     else
       Ok (RationalBSplineCurve.mk toks (replicate false (len toks))
             K M p1 p2 p3 p4 N A Tv Wv cps V0 V1 false None)).
Proof.
  pose proof curve_len_toks as Hlen.
  pose proof (len_nonneg rest) as Hrest0.
  assert (E0 : toks = header ++ knots ++ ((ws ++ [wlast]) ++ points
                                          ++ [v0; v1] ++ rest))
    by reflexivity.
  assert (E1 : toks = (header ++ knots) ++ ws
                      ++ ([wlast] ++ points ++ [v0; v1] ++ rest)).
  { unfold toks, curve_layout. now rewrite <- !app_assoc. }
  assert (E2 : toks = (header ++ knots ++ ws ++ [wlast]) ++ points
                      ++ ([v0; v1] ++ rest)).
  { unfold toks, curve_layout. now rewrite <- !app_assoc. }
  assert (E3 : toks = (header ++ knots ++ ws ++ [wlast] ++ points)
                      ++ v0 :: ([v1] ++ rest)).
  { unfold toks, curve_layout. now rewrite <- !app_assoc. }
  assert (E4 : toks = (header ++ knots ++ ws ++ [wlast] ++ points ++ [v0])
                      ++ v1 :: rest).
  { unfold toks, curve_layout. now rewrite <- !app_assoc. }
  unfold RationalBSplineCurve._add_parameters.
  rewrite (@int_at_nth toks 1 sK K) 
    by (try reflexivity; lia || assumption).
  cbn [bind].
  rewrite (@int_at_nth toks 2 sM M) 
    by (try reflexivity; lia || assumption).
  cbn [bind].
  rewrite (@int_at_nth toks 3 s1 p1) 
    by (try reflexivity; lia || assumption).
  cbn [bind].
  rewrite (@int_at_nth toks 4 s2 p2) 
    by (try reflexivity; lia || assumption).
  cbn [bind].
  rewrite (@int_at_nth toks 5 s3 p3) 
    by (try reflexivity; lia || assumption).
  cbn [bind].
  rewrite (@int_at_nth toks 6 s4 p4) 
    by (try reflexivity; lia || assumption).
  cbn [bind]. fold N. fold A.
  rewrite (@mapM_float_segment toks header knots _ Tv _ _ E0 Hknots)
    by (unfold header, A, N in *; len_simpl; lia).
  cbn [bind].
  rewrite (@mapM_float_segment toks (header ++ knots) ws _ Wv _ _ E1 Hws)
    by (unfold header, A, N in *; len_simpl; lia).
  cbn [bind].
  rewrite E2 at 1.
  rewrite (@mapM_read_points cps points pv
             (header ++ knots ++ ws ++ [wlast]) ([v0; v1] ++ rest) _ _
             Hpoints Hcps)
    by (unfold header, A, N in *; len_simpl; lia).
  cbn [bind].
  rewrite (@float_at_segment toks _ v0 _ _ _ E3 HV0)
    by (unfold header, A, N in *; len_simpl; lia).
  cbn [bind].
  rewrite (@float_at_segment toks _ v1 _ _ _ E4 HV1)
    by (unfold header, A, N in *; len_simpl; lia).
  cbn [bind].
  reflexivity.
Qed.

Lemma curve_decoded :
  RationalBSplineCurve._add_parameters toks
  = Ok (RationalBSplineCurve.mk toks (replicate false (len toks))
          K M p1 p2 p3 p4 N A Tv Wv cps V0 V1 (is_some norm) norm).
Proof.
  pose proof curve_len_toks as Hlen.
  pose proof (len_nonneg rest) as Hrest0.
  rewrite curve_decoded_upto_normal.
  destruct Hrest as [r Hr | x y z more nx ny nz Hx Hy Hz].
  - replace (len toks >? 14 + A + 4 * K + 1) with false
      by (symmetry; rewrite Z.gtb_ltb; apply Z.ltb_ge; lia).
    reflexivity.
  - replace (len toks >? 14 + A + 4 * K + 1) with true
      by (symmetry; rewrite Z.gtb_ltb; apply Z.ltb_lt; len_simpl;
          pose proof (len_nonneg more); lia).
    assert (E5 : toks = (header ++ knots ++ ws ++ [wlast] ++ points
                         ++ [v0; v1]) ++ x :: (y :: z :: more)).
    { unfold toks, curve_layout. now rewrite <- !app_assoc. }
    assert (E6 : toks = (header ++ knots ++ ws ++ [wlast] ++ points
                         ++ [v0; v1; x]) ++ y :: (z :: more)).
    { unfold toks, curve_layout. now rewrite <- !app_assoc. }
    assert (E7 : toks = (header ++ knots ++ ws ++ [wlast] ++ points
                         ++ [v0; v1; x; y]) ++ z :: more).
    { unfold toks, curve_layout. now rewrite <- !app_assoc. }
    rewrite (@float_at_segment toks _ x _ _ _ E5 Hx)
      by (unfold header, A, N in *; len_simpl; lia).
    cbn [bind].
    rewrite (@float_at_segment toks _ y _ _ _ E6 Hy)
      by (unfold header, A, N in *; len_simpl; lia).
    cbn [bind].
    rewrite (@float_at_segment toks _ z _ _ _ E7 Hz)
      by (unfold header, A, N in *; len_simpl; lia).
    reflexivity.
Qed.

(** C8 (as the code has it). On a record laid out as the decoder reads it,
    the knot sequence has N + 2M + 1 elements, there are K + 1 control
    points of three numbers each, and V0 and V1 are the two tokens after the
    control points.  With at most one token after V1 the record decodes with
    [planar_curve] False and no unit normal; with three or more it decodes
    with [planar_curve] True and the three tokens as the unit normal.  With
    exactly two tokens after V1 the list is too short to hold the unit
    normal, yet the length test passes and the record is not decoded: the
    read of ZNORM raises IndexError (ValueError if one of the two tokens is
    no number). *)
Theorem curve_decoding_by_trailing_tokens :
  len toks = 14 + A + 4 * K + len rest
  /\ (len rest <= 1 ->
      exists c,
        RationalBSplineCurve._add_parameters toks = Ok c
        /\ RationalBSplineCurve.T c = Tv
        /\ len (RationalBSplineCurve.T c) = N + 2 * M + 1
        /\ RationalBSplineCurve.control_points c = cps
        /\ len (RationalBSplineCurve.control_points c) = K + 1
        /\ RationalBSplineCurve.V0 c = V0
        /\ RationalBSplineCurve.V1 c = V1
        /\ RationalBSplineCurve.planar_curve c = false
        /\ RationalBSplineCurve.NORM c = None)
  /\ (forall x y z more nx ny nz,
        rest = x :: y :: z :: more ->
        parse_float x = Ok nx -> parse_float y = Ok ny ->
        parse_float z = Ok nz ->
        exists c,
          RationalBSplineCurve._add_parameters toks = Ok c
          /\ RationalBSplineCurve.T c = Tv
          /\ len (RationalBSplineCurve.T c) = N + 2 * M + 1
          /\ RationalBSplineCurve.control_points c = cps
          /\ len (RationalBSplineCurve.control_points c) = K + 1
          /\ RationalBSplineCurve.V0 c = V0
          /\ RationalBSplineCurve.V1 c = V1
          /\ RationalBSplineCurve.planar_curve c = true
          /\ RationalBSplineCurve.NORM c = Some (nx, ny, nz))
  /\ (forall x y,
        rest = [x; y] ->
        len toks < 17 + A + 4 * K
        /\ RationalBSplineCurve._add_parameters toks
           = match parse_float x, parse_float y with
             | Ok _, Ok _ => Raise IndexError
             | _, _ => Raise ValueError
             end).
Proof.
  pose proof curve_len_toks as L4.
  pose proof (mapM_length _ _ Hknots) as L1.
  pose proof (mapM_length _ _ Hpoints) as L2.
  pose proof (reshape3_length _ Hcps) as L3.
  split; [exact L4|]. split; [|split].
  - intros Hr. eexists. split.
    + rewrite curve_decoded_upto_normal.
      replace (len toks >? 14 + A + 4 * K + 1) with false
        by (symmetry; rewrite Z.gtb_ltb; apply Z.ltb_ge; lia).
      reflexivity.
    + cbn [RationalBSplineCurve.T RationalBSplineCurve.control_points
           RationalBSplineCurve.V0 RationalBSplineCurve.V1
           RationalBSplineCurve.NORM RationalBSplineCurve.planar_curve].
      unfold A, N in *.
      repeat match goal with |- _ /\ _ => split end;
        try reflexivity; lia.
  - intros x y z more nx ny nz Er Hx Hy Hz. eexists. split.
    + rewrite curve_decoded_upto_normal.
      assert (Hl : len rest = 3 + len more) by (rewrite Er; len_simpl; lia).
      pose proof (len_nonneg more) as Hm.
      replace (len toks >? 14 + A + 4 * K + 1) with true
        by (symmetry; rewrite Z.gtb_ltb; apply Z.ltb_lt; lia).
      assert (E5 : toks = (header ++ knots ++ ws ++ [wlast] ++ points
                           ++ [v0; v1]) ++ x :: (y :: z :: more)).
      { unfold toks, curve_layout. rewrite Er. now rewrite <- !app_assoc. }
      assert (E6 : toks = (header ++ knots ++ ws ++ [wlast] ++ points
                           ++ [v0; v1; x]) ++ y :: (z :: more)).
      { unfold toks, curve_layout. rewrite Er. now rewrite <- !app_assoc. }
      assert (E7 : toks = (header ++ knots ++ ws ++ [wlast] ++ points
                           ++ [v0; v1; x; y]) ++ z :: more).
      { unfold toks, curve_layout. rewrite Er. now rewrite <- !app_assoc. }
      rewrite (@float_at_segment toks _ x _ _ _ E5 Hx)
        by (unfold header, A, N in *; len_simpl; lia).
      cbn [bind].
      rewrite (@float_at_segment toks _ y _ _ _ E6 Hy)
        by (unfold header, A, N in *; len_simpl; lia).
      cbn [bind].
      rewrite (@float_at_segment toks _ z _ _ _ E7 Hz)
        by (unfold header, A, N in *; len_simpl; lia).
      reflexivity.
    + cbn [RationalBSplineCurve.T RationalBSplineCurve.control_points
           RationalBSplineCurve.V0 RationalBSplineCurve.V1
           RationalBSplineCurve.NORM RationalBSplineCurve.planar_curve].
      unfold A, N in *.
      repeat match goal with |- _ /\ _ => split end;
        try reflexivity; lia.
  - intros x y Er.
    assert (Hl : len rest = 2) by (rewrite Er; reflexivity).
    split; [lia|].
    rewrite curve_decoded_upto_normal.
    replace (len toks >? 14 + A + 4 * K + 1) with true
      by (symmetry; rewrite Z.gtb_ltb; apply Z.ltb_lt; lia).
    assert (E5 : toks = (header ++ knots ++ ws ++ [wlast] ++ points
                         ++ [v0; v1]) ++ x :: [y]).
    { unfold toks, curve_layout. rewrite Er. now rewrite <- !app_assoc. }
    assert (E6 : toks = (header ++ knots ++ ws ++ [wlast] ++ points
                         ++ [v0; v1; x]) ++ y :: []).
    { unfold toks, curve_layout. rewrite Er. now rewrite <- !app_assoc. }
    destruct (parse_float x) as [nx|e] eqn:Hx.
    + rewrite (@float_at_segment toks _ x _ _ _ E5 Hx)
        by (unfold header, A, N in *; len_simpl; lia).
      cbn [bind].
      destruct (parse_float y) as [ny|e] eqn:Hy.
      * rewrite (@float_at_segment toks _ y _ _ _ E6 Hy)
          by (unfold header, A, N in *; len_simpl; lia).
        cbn [bind].
        rewrite float_at_short by lia. reflexivity.
      * rewrite (ro_parse_float_value _ Hy) in Hy.
        unfold float_at at 1.
        rewrite E6 at 1. rewrite getitem_app_mid
          by (unfold header, A, N in *; len_simpl; lia).
        cbn [bind]. rewrite Hy. reflexivity.
    + rewrite (ro_parse_float_value _ Hx) in Hx.
      unfold float_at at 1.
      rewrite E5 at 1. rewrite getitem_app_mid
        by (unfold header, A, N in *; len_simpl; lia).
      cbn [bind]. rewrite Hx. reflexivity.
Qed.

(** C1 (as the code has it). On a well-formed record, which holds K + 1
    weight tokens, the decoded [W] holds K weights: the first K of them.
    The last weight token is never read. *)
Theorem curve_decodes_only_K_weights :
  exists c,
    RationalBSplineCurve._add_parameters toks = Ok c
    /\ RationalBSplineCurve.W c = Wv
    /\ len (RationalBSplineCurve.W c) = K.
Proof.
  eexists. split; [apply curve_decoded|].
  cbn [RationalBSplineCurve.T RationalBSplineCurve.W
       RationalBSplineCurve.control_points RationalBSplineCurve.V0
       RationalBSplineCurve.V1 RationalBSplineCurve.NORM
       RationalBSplineCurve.planar_curve].
  pose proof (mapM_length _ _ Hws) as L1. split; [reflexivity | lia].
Qed.

End CurveLayout.

Lemma curve_decoding_by_trailing_tokens_witness :
  len (curve_record ++ ["0"; "0"]) < 17 + ((1 + 3 - 3) + 2 * 3) + 4 * 3
  /\ RationalBSplineCurve._add_parameters (curve_record ++ ["0"; "0"])
     = Raise IndexError.
Proof.
  refine (proj2 (proj2 (proj2
    (@curve_decoding_by_trailing_tokens
       "126" "3" "3" "0" "0" "1" "0"
       ["0"; "0"; "0"; "0"; "1"; "1"; "1"; "1"] ["1"; "1"; "1"]
       ["0"; "0"; "0"; "1"; "2"; "0"; "3"; "2"; "0"; "4"; "0"; "0"]
       ["0"; "0"]
       "2" "0" "1" 3 3 0 0 1 0
       [fl 0; fl 0; fl 0; fl 0; fl 1; fl 1; fl 1; fl 1]
       [fl 1; fl 1; fl 1]
       [fl 0; fl 0; fl 0; fl 1; fl 2; fl 0; fl 3; fl 2; fl 0; fl 4; fl 0;
        fl 0]
       [(fl 0, fl 0, fl 0); (fl 1, fl 2, fl 0);
        (fl 3, fl 2, fl 0); (fl 4, fl 0, fl 0)]
       (fl 0) (fl 1)
       eq_refl eq_refl eq_refl eq_refl eq_refl eq_refl eq_refl eq_refl
       eq_refl eq_refl eq_refl eq_refl eq_refl eq_refl eq_refl)))
    "0" "0" eq_refl).
Defined.

Lemma curve_decodes_only_K_weights_witness :
  exists c,
    RationalBSplineCurve._add_parameters curve_record = Ok c
    /\ RationalBSplineCurve.W c = [fl 1; fl 1; fl 1]
    /\ len (RationalBSplineCurve.W c) = 3.
Proof.
  apply (@curve_decodes_only_K_weights
           "126" "3" "3" "0" "0" "1" "0"
           ["0"; "0"; "0"; "0"; "1"; "1"; "1"; "1"] ["1"; "1"; "1"]
           ["0"; "0"; "0"; "1"; "2"; "0"; "3"; "2"; "0"; "4"; "0"; "0"] []
           "2" "0" "1" 3 3 0 0 1 0
           [fl 0; fl 0; fl 0; fl 0; fl 1; fl 1; fl 1; fl 1]
           [fl 1; fl 1; fl 1]
           [fl 0; fl 0; fl 0; fl 1; fl 2; fl 0; fl 3; fl 2; fl 0; fl 4; fl 0;
            fl 0]
           [(fl 0, fl 0, fl 0); (fl 1, fl 2, fl 0);
            (fl 3, fl 2, fl 0); (fl 4, fl 0, fl 0)]
           (fl 0) (fl 1) None);
    try reflexivity; try lia.
  apply no_normal. vm_compute. discriminate.
Defined.

(** Two stray tokens after the parameter range pass the length test of the
    unit normal, whose third component is then missing. *)
Lemma curve_two_stray_tokens :
  RationalBSplineCurve._add_parameters (curve_record ++ ["0"; "0"])
  = Raise IndexError.
Proof. vm_compute. reflexivity. Qed.

(** C10. [to_geomdl] hands the NURBS library the decoded [W] followed by
    the constant 1, so the last weight is 1 whatever the file says. *)
Theorem to_geomdl_appends_unit_weight (self : RationalBSplineCurve.t) :
  RationalBSplineCurve.weights (RationalBSplineCurve.to_geomdl self)
  = RationalBSplineCurve.W self ++ [fl 1]
  /\ last (RationalBSplineCurve.weights (RationalBSplineCurve.to_geomdl self))
          FNan = fl 1
  /\ len (RationalBSplineCurve.weights (RationalBSplineCurve.to_geomdl self))
     = len (RationalBSplineCurve.W self) + 1.
Proof.
  unfold RationalBSplineCurve.to_geomdl.
  cbn [RationalBSplineCurve.weights].
  repeat split.
  - apply last_last.
  - len_simpl. lia.
Qed.

(** ** Line *)

(** C6 (as stated): the record does not decode to the end points (1,2,3)
    and (4,5,6). *)
Lemma line_record_not_123_456 :
  ~ exists l,
      Line._add_parameters line_record = Ok l
      /\ Line.coordinates l = ((fl 1, fl 2, fl 3), (fl 4, fl 5, fl 6)).
Proof.
  intros [l [H C]]. vm_compute in H. inversion H; subst l.
  vm_compute in C. discriminate.
Qed.

(** C6 (amended). The decoder reads the coordinates at positions 1 to 6
    (position 0 is the type code), so the record decodes to the end points
    (1,1,2) and (3,4,5); the end points (1,2,3) and (4,5,6) come from the
    record ["110","1","2","3","4","5","6"]. *)
Theorem line_record_decoding :
  (exists l,
      Line._add_parameters line_record = Ok l
      /\ Line.coordinates l = ((fl 1, fl 1, fl 2), (fl 3, fl 4, fl 5)))
  /\ (exists l,
        Line._add_parameters ["110"; "1"; "2"; "3"; "4"; "5"; "6"] = Ok l
        /\ Line.coordinates l = ((fl 1, fl 2, fl 3), (fl 4, fl 5, fl 6))).
Proof.
  split; eexists; split; reflexivity.
Qed.

(** ** RationalBSplineSurface on a well-formed record *)

Lemma slice_of_segment {A} (l pre mid post : list A) a b :
  l = pre ++ mid ++ post -> a = len pre -> b = a + len mid ->
  slice l a b = mid.
Proof. intros ->. apply slice_segment. Qed.

Lemma getitem_of_segment {A} (l pre post : list A) x i :
  l = pre ++ x :: post -> i = len pre -> getitem l i = Ok x.
Proof. intros ->. apply getitem_app_mid. Qed.

Section SurfaceLayout.

Variables t0 tK1 tK2 tM1 tM2 tf1 tf2 tf3 tf4 tf5 : string.
Variables knot1 knot2 weights points rest : list string.
Variables tu0 tu1 tv0 tv1 : string.
Variables x0 xK1 xK2 xM1 xM2 x1 x2 x3 x4 x5 : pyfloat.
Variables K1 K2 M1 M2 : Z.
Variables kn1 kn2 wv pv rv : list pyfloat.
Variable cps : list point3.
Variables u0 u1 v0 v1 : pyfloat.

Let header := [t0; tK1; tK2; tM1; tM2; tf1; tf2; tf3; tf4; tf5].
Let toks :=
  surface_layout header knot1 knot2 weights points tu0 tu1 tv0 tv1 rest.
Let vals :=
  [x0; xK1; xK2; xM1; xM2; x1; x2; x3; x4; x5]
    ++ kn1 ++ kn2 ++ wv ++ pv ++ [u0; u1; v0; v1] ++ rv.

(* every token of the record is a number *)
Hypothesis Hheader :
  mapM parse_float header = Ok [x0; xK1; xK2; xM1; xM2; x1; x2; x3; x4; x5].
Hypothesis Hknot1 : mapM parse_float knot1 = Ok kn1.
Hypothesis Hknot2 : mapM parse_float knot2 = Ok kn2.
Hypothesis Hweights : mapM parse_float weights = Ok wv.
Hypothesis Hpoints : mapM parse_float points = Ok pv.
Hypothesis Hrange :
  mapM parse_float [tu0; tu1; tv0; tv1] = Ok [u0; u1; v0; v1].
Hypothesis Hrest : mapM parse_float rest = Ok rv.
(* the upper indices and the degrees *)
Hypothesis HK1 : int_of_float xK1 = Ok K1.
Hypothesis HK2 : int_of_float xK2 = Ok K2.
Hypothesis HM1 : int_of_float xM1 = Ok M1.
Hypothesis HM2 : int_of_float xM2 = Ok M2.
(* the sizes they announce *)
Hypothesis knot1_len : len knot1 = K1 + M1 + 2.
Hypothesis knot2_len : len knot2 = K2 + M2 + 2.
Hypothesis weights_len : len weights = (K1 + 1) * (K2 + 1).
Hypothesis points_len : len points = 3 * ((K1 + 1) * (K2 + 1)).
Hypothesis Hcps : reshape3 pv = Ok cps.

Lemma surface_parsed : mapM parse_float toks = Ok vals.
Proof.
  unfold toks, vals, surface_layout.
  repeat (apply mapM_app; [assumption|]). assumption.
Qed.

Lemma surface_decoded :
  RationalBSplineSurface._add_parameters toks
  = Ok (RationalBSplineSurface.mk toks (replicate false (len vals))
          K1 K2 M1 M2
          (bool_of_float x1) (bool_of_float x2) (bool_of_float x3)
          (bool_of_float x4) (bool_of_float x5)
          kn1 kn2 wv cps u0 u1 v0 v1).
Proof.
  pose proof (mapM_length _ _ Hknot1) as L1.
  pose proof (mapM_length _ _ Hknot2) as L2.
  pose proof (mapM_length _ _ Hweights) as L3.
  pose proof (mapM_length _ _ Hpoints) as L4.
  set (hv := [x0; xK1; xK2; xM1; xM2; x1; x2; x3; x4; x5]).
  assert (E1 : vals = hv ++ kn1 ++ (kn2 ++ wv ++ pv ++ [u0; u1; v0; v1] ++ rv))
    by reflexivity.
  assert (E2 : vals = (hv ++ kn1) ++ kn2
                      ++ (wv ++ pv ++ [u0; u1; v0; v1] ++ rv)).
  { unfold vals. fold hv. now rewrite <- !app_assoc. }
  assert (E3 : vals = (hv ++ kn1 ++ kn2) ++ wv
                      ++ (pv ++ [u0; u1; v0; v1] ++ rv)).
  { unfold vals. fold hv. now rewrite <- !app_assoc. }
  assert (E4 : vals = (hv ++ kn1 ++ kn2 ++ wv) ++ pv
                      ++ ([u0; u1; v0; v1] ++ rv)).
  { unfold vals. fold hv. now rewrite <- !app_assoc. }
  assert (E5 : vals = (hv ++ kn1 ++ kn2 ++ wv ++ pv)
                      ++ u0 :: ([u1; v0; v1] ++ rv)).
  { unfold vals. fold hv. now rewrite <- !app_assoc. }
  assert (E6 : vals = (hv ++ kn1 ++ kn2 ++ wv ++ pv ++ [u0])
                      ++ u1 :: ([v0; v1] ++ rv)).
  { unfold vals. fold hv. now rewrite <- !app_assoc. }
  assert (E7 : vals = (hv ++ kn1 ++ kn2 ++ wv ++ pv ++ [u0; u1])
                      ++ v0 :: ([v1] ++ rv)).
  { unfold vals. fold hv. now rewrite <- !app_assoc. }
  assert (E8 : vals = (hv ++ kn1 ++ kn2 ++ wv ++ pv ++ [u0; u1; v0])
                      ++ v1 :: rv).
  { unfold vals. fold hv. now rewrite <- !app_assoc. }
  unfold RationalBSplineSurface._add_parameters.
  rewrite surface_parsed. cbn [bind].
  unfold RationalBSplineSurface.int_item, RationalBSplineSurface.bool_item.
  rewrite (@getitem_nth _ vals 1 xK1) by (try reflexivity; lia).
  cbn [bind]. rewrite HK1. cbn [bind].
  rewrite (@getitem_nth _ vals 2 xK2) by (try reflexivity; lia).
  cbn [bind]. rewrite HK2. cbn [bind].
  rewrite (@getitem_nth _ vals 3 xM1) by (try reflexivity; lia).
  cbn [bind]. rewrite HM1. cbn [bind].
  rewrite (@getitem_nth _ vals 4 xM2) by (try reflexivity; lia).
  cbn [bind]. rewrite HM2. cbn [bind].
  rewrite (@getitem_nth _ vals 5 x1) by (try reflexivity; lia).
  rewrite (@getitem_nth _ vals 6 x2) by (try reflexivity; lia).
  rewrite (@getitem_nth _ vals 7 x3) by (try reflexivity; lia).
  rewrite (@getitem_nth _ vals 8 x4) by (try reflexivity; lia).
  rewrite (@getitem_nth _ vals 9 x5) by (try reflexivity; lia).
  cbn [bind].
  rewrite (@slice_of_segment _ vals hv kn1 _ 10 (12 + K1 + M1) E1)
    by (unfold hv; len_simpl; lia).
  rewrite (@slice_of_segment _ vals (hv ++ kn1) kn2 _ (12 + K1 + M1)
             (14 + K2 + M1 + K1 + M2) E2)
    by (unfold hv; len_simpl; lia).
  rewrite (@slice_of_segment _ vals (hv ++ kn1 ++ kn2) wv _
             (14 + K2 + M1 + K1 + M2)
             (14 + K2 + M1 + K1 + M2 + (1 + K2) * (1 + K1)) E3)
    by (unfold hv; len_simpl; lia).
  rewrite (@slice_of_segment _ vals (hv ++ kn1 ++ kn2 ++ wv) pv _ _ _ E4)
    by (unfold hv; len_simpl; lia).
  rewrite Hcps. cbn [bind].
  rewrite (@getitem_of_segment _ vals _ _ u0 _ E5)
    by (unfold hv; len_simpl; lia).
  cbn [bind].
  rewrite (@getitem_of_segment _ vals _ _ u1 _ E6)
    by (unfold hv; len_simpl; lia).
  cbn [bind].
  rewrite (@getitem_of_segment _ vals _ _ v0 _ E7)
    by (unfold hv; len_simpl; lia).
  cbn [bind].
  rewrite (@getitem_of_segment _ vals _ _ v1 _ E8)
    by (unfold hv; len_simpl; lia).
  reflexivity.
Qed.

(** C9. On a well-formed record the two knot vectors have K1 + M1 + 2 and
    K2 + M2 + 2 elements, the weight grid has (K1 + 1)(K2 + 1) entries, the
    control points are the (K1 + 1)(K2 + 1) rows of three coordinates that
    follow the weights, and u0, u1, v0, v1 are the four tokens after the
    control points. *)
Theorem surface_well_formed_decoding :
  exists s,
    RationalBSplineSurface._add_parameters toks = Ok s
    /\ RationalBSplineSurface._k1 s = K1
    /\ RationalBSplineSurface._k2 s = K2
    /\ RationalBSplineSurface._m1 s = M1
    /\ RationalBSplineSurface._m2 s = M2
    /\ RationalBSplineSurface._knot1 s = kn1
    /\ len (RationalBSplineSurface._knot1 s) = K1 + M1 + 2
    /\ RationalBSplineSurface._knot2 s = kn2
    /\ len (RationalBSplineSurface._knot2 s) = K2 + M2 + 2
    /\ RationalBSplineSurface._weights s = wv
    /\ len (RationalBSplineSurface._weights s) = (K1 + 1) * (K2 + 1)
    /\ RationalBSplineSurface._cp s = cps
    /\ len (RationalBSplineSurface._cp s) = (K1 + 1) * (K2 + 1)
    /\ RationalBSplineSurface._u0 s = u0
    /\ RationalBSplineSurface._u1 s = u1
    /\ RationalBSplineSurface._v0 s = v0
    /\ RationalBSplineSurface._v1 s = v1.
Proof.
  eexists. split; [apply surface_decoded|].
  cbn [RationalBSplineSurface._k1 RationalBSplineSurface._k2
       RationalBSplineSurface._m1 RationalBSplineSurface._m2
       RationalBSplineSurface._knot1 RationalBSplineSurface._knot2
       RationalBSplineSurface._weights RationalBSplineSurface._cp
       RationalBSplineSurface._u0 RationalBSplineSurface._u1
       RationalBSplineSurface._v0 RationalBSplineSurface._v1].
  pose proof (mapM_length _ _ Hknot1) as L1.
  pose proof (mapM_length _ _ Hknot2) as L2.
  pose proof (mapM_length _ _ Hweights) as L3.
  pose proof (mapM_length _ _ Hpoints) as L4.
  pose proof (reshape3_length _ Hcps) as L5.
  repeat split; try reflexivity; lia.
Qed.

End SurfaceLayout.

Lemma surface_well_formed_decoding_witness :
  exists s,
    RationalBSplineSurface._add_parameters surface_record = Ok s
    /\ RationalBSplineSurface._k1 s = 1
    /\ RationalBSplineSurface._k2 s = 1
    /\ RationalBSplineSurface._m1 s = 1
    /\ RationalBSplineSurface._m2 s = 1
    /\ RationalBSplineSurface._knot1 s = [fl 0; fl 0; fl 1; fl 1]
    /\ len (RationalBSplineSurface._knot1 s) = 1 + 1 + 2
    /\ RationalBSplineSurface._knot2 s = [fl 0; fl 0; fl 2; fl 2]
    /\ len (RationalBSplineSurface._knot2 s) = 1 + 1 + 2
    /\ RationalBSplineSurface._weights s = [fl 1; fl 1; fl 1; fl 1]
    /\ len (RationalBSplineSurface._weights s) = (1 + 1) * (1 + 1)
    /\ RationalBSplineSurface._cp s
       = [(fl 0, fl 0, fl 0); (fl 1, fl 0, fl 0);
          (fl 0, fl 1, fl 0); (fl 1, fl 1, fl 5)]
    /\ len (RationalBSplineSurface._cp s) = (1 + 1) * (1 + 1)
    /\ RationalBSplineSurface._u0 s = fl 0
    /\ RationalBSplineSurface._u1 s = fl 1
    /\ RationalBSplineSurface._v0 s = fl 0
    /\ RationalBSplineSurface._v1 s = fl 2.
Proof.
  apply (@surface_well_formed_decoding
           "128" "1" "1" "1" "1" "0" "0" "1" "0" "0"
           ["0"; "0"; "1"; "1"] ["0"; "0"; "2"; "2"] ["1"; "1"; "1"; "1"]
           ["0"; "0"; "0"; "1"; "0"; "0"; "0"; "1"; "0"; "1"; "1"; "5"] []
           "0" "1" "0" "2"
           (fl 128) (fl 1) (fl 1) (fl 1) (fl 1)
           (fl 0) (fl 0) (fl 1) (fl 0) (fl 0)
           1 1 1 1
           [fl 0; fl 0; fl 1; fl 1] [fl 0; fl 0; fl 2; fl 2]
           [fl 1; fl 1; fl 1; fl 1]
           [fl 0; fl 0; fl 0; fl 1; fl 0; fl 0; fl 0; fl 1; fl 0; fl 1; fl 1;
            fl 5]
           []
           [(fl 0, fl 0, fl 0); (fl 1, fl 0, fl 0);
            (fl 0, fl 1, fl 0); (fl 1, fl 1, fl 5)]
           (fl 0) (fl 1) (fl 0) (fl 2));
    reflexivity.
Defined.

(** ** The exceptions the decoders raise, and the lengths they need *)

Lemma ro_Ok {A} (a : A) : raises_only (Ok a).
Proof. intros e H. discriminate. Qed.

Lemma ro_bind {A B} (r : result A) (k : A -> result B) :
  raises_only r -> (forall a, raises_only (k a)) -> raises_only (bind r k).
Proof.
  intros Hr Hk e H. apply bind_Raise_inv in H.
  destruct H as [H | [a [_ H]]]; [now apply Hr | now apply (Hk a)].
Qed.

Lemma ro_mapM {A B} (f : A -> result B) l :
  (forall a, raises_only (f a)) -> raises_only (mapM f l).
Proof.
  intros Hf. induction l as [|a l IH]; simpl; [apply ro_Ok|].
  apply ro_bind; [apply Hf|]. intros b.
  apply ro_bind; [apply IH|]. intros bs. apply ro_Ok.
Qed.

Lemma ro_getitem {A} (l : list A) i : raises_only (getitem l i).
Proof.
  intros e. unfold getitem.
  destruct (_ || _); [intros H; now inversion H|].
  destruct (nth_error _ _); intros H; now inversion H.
Qed.

Lemma py_int_raises s e : py_int s = Raise e -> e = ValueError.
Proof.
  unfold py_int. destruct (irun _ s) as [[] [neg v]]; congruence.
Qed.

Lemma ro_py_int s : raises_only (py_int s).
Proof. intros e H. now rewrite (py_int_raises _ H). Qed.

Lemma ro_py_float s : raises_only (py_float s).
Proof. intros e H. now rewrite (py_float_raises _ H). Qed.

Lemma ro_parse_float s : raises_only (parse_float s).
Proof.
  unfold parse_float. intros e.
  destruct (py_float s) as [v|e'] eqn:E; simpl; [discriminate|].
  rewrite (py_float_raises _ E). apply ro_py_float.
Qed.

Lemma ro_int_of_float x : raises_only (int_of_float x).
Proof. destruct x; intros e H; inversion H; reflexivity. Qed.

Lemma ro_reshape3_upto n :
  forall l, (List.length l <= n)%nat -> raises_only (reshape3 l).
Proof.
  induction n as [|n IH]; intros l Hl.
  - destruct l; [apply ro_Ok | simpl in Hl; lia].
  - destruct l as [|y [|z [|w l']]]; simpl;
      try (intros e H; inversion H; reflexivity).
    apply ro_bind; [|intros; apply ro_Ok].
    apply IH. simpl in Hl. lia.
Qed.

Lemma ro_reshape3 l : raises_only (reshape3 l).
Proof. apply (@ro_reshape3_upto (List.length l)). lia. Qed.

Lemma ro_float_at toks i : raises_only (float_at toks i).
Proof.
  unfold float_at. apply ro_bind; [apply ro_getitem|].
  intros. apply ro_parse_float.
Qed.

Lemma ro_int_at toks i : raises_only (int_at toks i).
Proof.
  unfold int_at. apply ro_bind; [apply ro_getitem|]. intros. apply ro_py_int.
Qed.

Ltac ro_step :=
  first
    [ apply ro_Ok
    | apply ro_float_at
    | apply ro_int_at
    | apply ro_getitem
    | apply ro_parse_float
    | apply ro_int_of_float
    | apply ro_reshape3
    | apply ro_mapM; intros ?
    | apply ro_bind; [|intros ?]
    | match goal with
      | |- raises_only (if ?b then _ else _) => destruct b
      end ].

Lemma ro_Line toks : raises_only (Line._add_parameters toks).
Proof. unfold Line._add_parameters. cbv zeta. repeat ro_step. Qed.

Lemma ro_Curve toks : raises_only (RationalBSplineCurve._add_parameters toks).
Proof.
  unfold RationalBSplineCurve._add_parameters,
    RationalBSplineCurve.read_point.
  cbv zeta. repeat ro_step.
Qed.

Lemma ro_Surface toks :
  raises_only (RationalBSplineSurface._add_parameters toks).
Proof.
  unfold RationalBSplineSurface._add_parameters,
    RationalBSplineSurface.int_item, RationalBSplineSurface.bool_item.
  cbv zeta. repeat ro_step.
Qed.

Ltac bind_inv H :=
  let a := fresh "a" in
  let Ha := fresh "Ha" in
  apply bind_Ok_inv in H; destruct H as [a [Ha H]].

Lemma float_at_Ok_bound toks i v :
  float_at toks i = Ok v -> 0 <= i -> i < len toks.
Proof.
  unfold float_at. intros H Hi. bind_inv H.
  eapply getitem_Ok_bound; eassumption.
Qed.

Lemma Line_Ok_length toks l : Line._add_parameters toks = Ok l -> 7 <= len toks.
Proof.
  unfold Line._add_parameters. cbv zeta. intros H.
  do 5 bind_inv H. bind_inv H.
  match goal with
  | X : float_at toks 6 = Ok _ |- _ =>
      pose proof (@float_at_Ok_bound _ _ _ X)
  end. lia.
Qed.

Lemma Curve_Ok_length toks c K M :
  RationalBSplineCurve._add_parameters toks = Ok c ->
  int_at toks 1 = Ok K -> int_at toks 2 = Ok M -> 0 <= K -> 0 <= M ->
  14 + (1 + K - M + 2 * M) + 4 * K <= len toks.
Proof.
  unfold RationalBSplineCurve._add_parameters. cbv zeta.
  intros H HK HM K0 M0. rewrite HK, HM in H. cbn [bind] in H.
  do 9 bind_inv H.
  match goal with
  | X : float_at toks (13 + _ + _) = Ok _ |- _ =>
      pose proof (@float_at_Ok_bound _ _ _ X)
  end. lia.
Qed.

Lemma Surface_Ok_length toks s vals k1 k2 m1 m2 :
  RationalBSplineSurface._add_parameters toks = Ok s ->
  mapM parse_float toks = Ok vals ->
  RationalBSplineSurface.int_item vals 1 = Ok k1 ->
  RationalBSplineSurface.int_item vals 2 = Ok k2 ->
  RationalBSplineSurface.int_item vals 3 = Ok m1 ->
  RationalBSplineSurface.int_item vals 4 = Ok m2 ->
  0 <= k1 -> 0 <= k2 -> 0 <= m1 -> 0 <= m2 ->
  14 + k2 + k1 + m1 + m2 + (1 + k2) * (1 + k1) + 3 * (1 + k2) * (1 + k1) + 4
  <= len toks.
Proof.
  unfold RationalBSplineSurface._add_parameters. cbv zeta.
  intros H Hv H1 H2 H3 H4 P1 P2 P3 P4.
  rewrite Hv in H. cbn [bind] in H. rewrite H1, H2, H3, H4 in H.
  cbn [bind] in H.
  do 9 bind_inv H. bind_inv H.
  match goal with
  | X : getitem vals (_ + 3) = Ok _ |- _ =>
      pose proof (@getitem_Ok_bound _ _ _ _ X) as B
  end.
  rewrite <- (mapM_length _ _ Hv). nia.
Qed.

Lemma int_at_Ok_bound toks i z : int_at toks i = Ok z -> 0 <= i -> i < len toks.
Proof.
  unfold int_at. intros H Hi. bind_inv H.
  eapply getitem_Ok_bound; eassumption.
Qed.

Lemma Curve_Ok_header toks c :
  RationalBSplineCurve._add_parameters toks = Ok c -> 7 <= len toks.
Proof.
  unfold RationalBSplineCurve._add_parameters. cbv zeta. intros H.
  do 6 bind_inv H.
  match goal with
  | X : int_at toks 6 = Ok _ |- _ => pose proof (@int_at_Ok_bound _ _ _ X)
  end. lia.
Qed.

Lemma Surface_Ok_header toks s :
  RationalBSplineSurface._add_parameters toks = Ok s -> 10 <= len toks.
Proof.
  unfold RationalBSplineSurface._add_parameters. cbv zeta. intros H.
  bind_inv H. do 9 bind_inv H.
  match goal with
  | X : RationalBSplineSurface.bool_item _ 9 = Ok _ |- _ =>
      unfold RationalBSplineSurface.bool_item in X; bind_inv X
  end.
  match goal with
  | X : getitem _ 9 = Ok _, Y : mapM parse_float toks = Ok _ |- _ =>
      pose proof (@getitem_Ok_bound _ _ _ _ X);
      rewrite <- (mapM_length _ _ Y)
  end. lia.
Qed.

(** ** The pointer markers *)

Lemma foldM_invariant {S A} (P : S -> Prop) (f : S -> A -> result S) l :
  (forall s a s', P s -> f s a = Ok s' -> P s') ->
  forall s s', P s -> foldM f l s = Ok s' -> P s'.
Proof.
  intros Hf. induction l as [|a l IH]; simpl; intros s s' Hs H.
  - inversion H; subst. exact Hs.
  - bind_inv H. eapply IH; [|exact H]. eapply Hf; eassumption.
Qed.

Lemma foldM_first {S A} (f : S -> A -> result S) a l s s' :
  foldM f (a :: l) s = Ok s' -> exists s1, f s a = Ok s1.
Proof. simpl. intros H. bind_inv H. eauto. Qed.

(** C3 (as the code has it). Whatever the record, a decoded
    Bounded_Surface has the four markers it started with: the statement in
    the loop reads [parameter_pointers[True]] and appends nothing, so no
    boundary pointer is marked, and with at least one boundary the array is
    shorter than the token list. *)
Theorem Bounded_Surface_pointers_unmarked
    (toks : list string) (b : Bounded_Surface.t) :
  Bounded_Surface._add_parameters toks = Ok b ->
  Bounded_Surface.parameter_pointers b = [false; false; true; false]
  /\ (forall i, 4 <= i ->
        getitem (Bounded_Surface.parameter_pointers b) i = Raise IndexError)
  /\ (1 <= Bounded_Surface.N_boundaries b ->
      len (Bounded_Surface.parameter_pointers b) < len toks).
Proof.
  unfold Bounded_Surface._add_parameters. cbv zeta. intros H.
  do 4 bind_inv H. inversion H; subst b; clear H.
  cbn [Bounded_Surface.parameter_pointers Bounded_Surface.N_boundaries].
  match goal with
  | X : foldM ?f ?l ?s0 = Ok ?st |- _ =>
      rename X into HF;
      assert (P : snd st = [false; false; true; false]);
      [ refine (@foldM_invariant _ _
                  (fun st => snd st = [false; false; true; false])
                  f l _ s0 st eq_refl HF) | ]
  end.
  { intros [B pp] ii [B' pp'] Hs Hb. simpl in Hs. subst pp.
    unfold Bounded_Surface.loop_body in Hb. do 2 bind_inv Hb.
    now inversion Hb. }
  rewrite P. split; [reflexivity|]. split.
  - intros i Hi. apply getitem_past_end. vm_compute (len _). lia.
  - intros HN. rewrite range_cons in HF by lia.
    apply foldM_first in HF. destruct HF as [s1 HF].
    unfold Bounded_Surface.loop_body in HF. bind_inv HF.
    match goal with
    | X : int_at toks 4 = Ok _ |- _ => pose proof (@int_at_Ok_bound _ _ _ X)
    end.
    vm_compute (len [false; false; true; false]). lia.
Qed.

Lemma Bounded_Surface_pointers_unmarked_witness :
  exists b,
    Bounded_Surface._add_parameters bounded_surface_record = Ok b
    /\ Bounded_Surface.parameter_pointers b = [false; false; true; false]
    /\ getitem (Bounded_Surface.parameter_pointers b) 4 = Raise IndexError
    /\ getitem (Bounded_Surface.parameter_pointers b) 5 = Raise IndexError
    /\ len (Bounded_Surface.parameter_pointers b) < len bounded_surface_record.
Proof.
  eexists. split; [vm_compute; reflexivity|].
  match goal with
  | |- context [Bounded_Surface.parameter_pointers ?b] =>
      destruct (@Bounded_Surface_pointers_unmarked bounded_surface_record b)
        as [P [Q R]]; [vm_compute; reflexivity|]
  end.
  split; [exact P|]. split; [apply Q; lia|]. split; [apply Q; lia|].
  apply R. vm_compute. discriminate.
Defined.

(** The sibling decoders do mark their pointers. *)
Lemma Composite_Curve_foldM parameters l :
  forall st st',
    foldM (Composite_Curve.loop_body parameters) l st = Ok st' ->
    snd st' = snd st ++ repeat true (List.length l).
Proof.
  induction l as [|ii l IH]; simpl; intros st st' H.
  - inversion H; subst. now rewrite app_nil_r.
  - bind_inv H. rewrite (IH _ _ H).
    destruct st as [curves pp]. unfold Composite_Curve.loop_body in Ha.
    bind_inv Ha. inversion Ha; subst. simpl. now rewrite <- app_assoc.
Qed.

Lemma Composite_Curve_pointers toks c :
  Composite_Curve._add_parameters toks = Ok c ->
  Composite_Curve.parameter_pointers c
  = [false; false] ++ replicate true (Composite_Curve.N_curves c).
Proof.
  unfold Composite_Curve._add_parameters. cbv zeta. intros H.
  do 2 bind_inv H. inversion H; subst c; clear H.
  cbn [Composite_Curve.parameter_pointers Composite_Curve.N_curves].
  match goal with
  | X : foldM _ _ _ = Ok _ |- _ => rewrite (Composite_Curve_foldM _ _ _ X)
  end.
  unfold range, replicate. rewrite length_map, length_seq. simpl.
  now rewrite Z.sub_0_r.
Qed.

(** Composite_Curve does not pad: with tokens after the last pointer the
    array is shorter than the list; Trimmed_Surface pads to the end. *)
Lemma pointer_arrays_of_siblings :
  (exists c,
      Composite_Curve._add_parameters composite_curve_record = Ok c
      /\ Composite_Curve.parameter_pointers c = [false; false; true; true]
      /\ len composite_curve_record = 6)
  /\ (exists s,
        Trimmed_Surface._add_parameters
          ["144"; "5"; "1"; "2"; "7"; "9"; "11"; "0"; "0"] = Ok s
        /\ Trimmed_Surface.parameter_pointers s
           = [false; true; false; false; true; true; true; false; false]).
Proof.
  split; eexists; (split; [vm_compute; reflexivity|]); repeat split.
Qed.

(** ** Boundary *)

Lemma getitem_in_range {A} (l : list A) i :
  0 <= i -> i < len l -> exists a, getitem l i = Ok a.
Proof.
  intros H0 H1.
  destruct (nth_error l (Z.to_nat i)) as [a|] eqn:E.
  - exists a. now apply getitem_nth.
  - apply nth_error_None in E. unfold len in H1. lia.
Qed.

Lemma getitem_map {A B} (f : A -> B) l i b :
  getitem (map f l) i = Ok b -> exists a, b = f a.
Proof.
  unfold getitem. destruct (_ || _); [discriminate|].
  rewrite nth_error_map. destruct (nth_error l _) as [a|]; simpl; intros H.
  - inversion H. eauto.
  - discriminate.
Qed.

(** On [str] tokens the arithmetic on K1 is a TypeError. *)
Lemma unpack_str_tokens_raise (toks : list string) (start_index : Z) :
  0 <= start_index -> start_index + 2 < len toks ->
  unpack_boundary_curves_parameters (map VStr toks) start_index
  = Raise TypeError.
Proof.
  intros H0 H1. unfold unpack_boundary_curves_parameters.
  assert (L : len (map VStr toks) = len toks)
    by (unfold len; now rewrite length_map).
  destruct (@getitem_in_range _ (map VStr toks) start_index) as [a Ea];
    [lia | lia |].
  destruct (@getitem_in_range _ (map VStr toks) (start_index + 1)) as [b Eb];
    [lia | lia |].
  destruct (@getitem_in_range _ (map VStr toks) (start_index + 2)) as [c Ec];
    [lia | lia |].
  rewrite Ea, Eb, Ec. cbn [bind].
  destruct (getitem_map _ _ _ Ec) as [s ->]. reflexivity.
Qed.

(** C5 (as the code has it). A Boundary record of [str] tokens that
    announces at least one curve, and is long enough to hold the first
    group, is never decoded: the loop adds the token K1, a [str], to an
    [int] and raises TypeError. *)
Theorem Boundary_str_record_raises
    (toks : list string) (Type_ pref surface_pointer N : Z) :
  Boundary.int_item (map VStr toks) 1 = Ok Type_ ->
  Boundary.int_item (map VStr toks) 2 = Ok pref ->
  Boundary.int_item (map VStr toks) 3 = Ok surface_pointer ->
  Boundary.int_item (map VStr toks) 4 = Ok N ->
  1 <= N ->
  8 <= len toks ->
  Boundary._add_parameters (map VStr toks) = Raise TypeError.
Proof.
  intros H1 H2 H3 H4 HN Hlen. unfold Boundary._add_parameters.
  rewrite H1, H2, H3, H4. cbn [bind].
  rewrite range_cons by lia. cbn [foldM].
  unfold Boundary.loop_body at 1. cbn [Boundary.st_index].
  rewrite unpack_str_tokens_raise by lia. reflexivity.
Qed.

Lemma Boundary_str_record_raises_witness :
  Boundary._add_parameters (map VStr boundary_record) = Raise TypeError.
Proof.
  apply (@Boundary_str_record_raises boundary_record 1 0 12 1);
    try reflexivity; try lia.
  vm_compute. discriminate.
Defined.

(** With [int] tokens the arithmetic goes through, but each group is taken
    to start one token too far: the second curve of a record laid out as
    documented is read from the wrong tokens. *)
Lemma Boundary_int_record_misread :
  exists b,
    Boundary._add_parameters boundary_record_ints = Ok b
    /\ Boundary.space_curves b = [VInt 21; VInt 1]
    /\ Boundary.Flags b = [VInt 0; VInt 1]
    /\ Boundary.model_curves b = [[VInt 31]; []].
Proof.
  eexists. split; [vm_compute; reflexivity|]. repeat split.
Qed.

Lemma unpack_skips_a_token parameters start_index r :
  unpack_boundary_curves_parameters parameters start_index = Ok r ->
  exists K1, getitem parameters (start_index + 2) = Ok (VInt K1)
             /\ snd r = start_index + 3 + K1 + 1.
Proof.
  unfold unpack_boundary_curves_parameters. intros H.
  do 4 bind_inv H. inversion H; subst r; clear H. simpl.
  match goal with
  | X : int_add _ ?v = Ok _ |- _ => destruct v as [s|K1]; [discriminate|];
      inversion X; subst; exists K1
  end.
  split; [assumption|reflexivity].
Qed.

Section Resolution.

Variable Entity : Type.
Variable from_pointer : pointer -> result Entity.

Lemma foldM_resolve ptrs :
  forall acc v ents,
    mapM from_pointer ptrs = Ok ents ->
    foldM (Boundary.resolve_body from_pointer) ptrs (acc, v)
    = Ok (acc ++ ents, fold_left (fun _ p => Some p) ptrs v).
Proof.
  induction ptrs as [|p ptrs IH]; simpl; intros acc v ents H.
  - inversion H. now rewrite app_nil_r.
  - do 2 bind_inv H. inversion H; subst ents; clear H.
    unfold Boundary.resolve_body at 1. rewrite Ha. cbn [bind fst].
    rewrite (IH _ _ _ Ha0). now rewrite <- app_assoc.
Qed.

Lemma fold_left_last {A} (l : list A) (x : A) v :
  fold_left (fun _ p => Some p) (l ++ [x]) v = Some x.
Proof. now rewrite fold_left_app. Qed.

(** C4 (as the code has it). When every stored reference resolves,
    [get_space_curves] and [get_model_curves] return the last value of
    their loop variable, which is the last stored pointer itself, and not
    the list of resolved entities. *)
Theorem Boundary_accessors_return_last_pointer
    (self : Boundary.t) (sents ments : list Entity)
    (scs : list pyval) (sc : pyval) (mcs : list (list pyval))
    (mc : list pyval) :
  mapM from_pointer (map PtrTok (Boundary.space_curves self)) = Ok sents ->
  mapM from_pointer (map PtrList (Boundary.model_curves self)) = Ok ments ->
  Boundary.space_curves self = scs ++ [sc] ->
  Boundary.model_curves self = mcs ++ [mc] ->
  Boundary.get_space_curves from_pointer self
  = Ok (Boundary.RetPointer Entity (PtrTok sc))
  /\ Boundary.get_model_curves from_pointer self
     = Ok (Boundary.RetPointer Entity (PtrList mc))
  /\ Boundary.get_space_curves from_pointer self
     <> Ok (Boundary.RetList sents)
  /\ Boundary.get_model_curves from_pointer self
     <> Ok (Boundary.RetList ments).
Proof.
  intros Hs Hm Es Em.
  assert (G1 : Boundary.get_space_curves from_pointer self
               = Ok (Boundary.RetPointer Entity (PtrTok sc))).
  { unfold Boundary.get_space_curves. rewrite (foldM_resolve _ [] None Hs).
    cbn [bind]. unfold Boundary.return_loop_variable. cbn [snd].
    rewrite Es, map_app. simpl map. now rewrite fold_left_last. }
  assert (G2 : Boundary.get_model_curves from_pointer self
               = Ok (Boundary.RetPointer Entity (PtrList mc))).
  { unfold Boundary.get_model_curves. rewrite (foldM_resolve _ [] None Hm).
    cbn [bind]. unfold Boundary.return_loop_variable. cbn [snd].
    rewrite Em, map_app. simpl map. now rewrite fold_left_last. }
  rewrite G1, G2. repeat split; discriminate.
Qed.

(** With no curve at all the loop variable is unbound. *)
Lemma Boundary_accessors_unbound (self : Boundary.t) :
  Boundary.space_curves self = [] ->
  Boundary.get_space_curves from_pointer self = Raise UnboundLocalError.
Proof.
  intros E. unfold Boundary.get_space_curves. now rewrite E.
Qed.

End Resolution.

Lemma Boundary_accessors_return_last_pointer_witness :
  Boundary.get_space_curves sample_from_pointer boundary_entity
  = Ok (Boundary.RetPointer Z (PtrTok (VInt 22)))
  /\ Boundary.get_model_curves sample_from_pointer boundary_entity
     = Ok (Boundary.RetPointer Z (PtrList [VInt 32]))
  /\ Boundary.get_space_curves sample_from_pointer boundary_entity
     <> Ok (Boundary.RetList [21; 22])
  /\ Boundary.get_model_curves sample_from_pointer boundary_entity
     <> Ok (Boundary.RetList [31; 32]).
Proof.
  apply (@Boundary_accessors_return_last_pointer Z sample_from_pointer
           boundary_entity [21; 22] [31; 32]
           [VInt 21] (VInt 22) [[VInt 31]] [VInt 32]);
    reflexivity.
Defined.

(** * Further properties *)

(** ** [parse_float] *)

Lemma d_is_other c :
  (Ascii.eqb c "d" || Ascii.eqb c "D") = true -> is_other c = true.
Proof.
  intros H. apply orb_true_iff in H.
  destruct H as [H|H]; apply Ascii.eqb_eq in H; subst c; reflexivity.
Qed.

Lemma has_d_other s : has_d s = true -> str_any is_other s = true.
Proof.
  unfold has_d. induction s as [|c s IH]; simpl; [discriminate|].
  intros H. apply orb_true_iff in H. apply orb_true_iff.
  destruct H as [H|H]; [left; now apply d_is_other | right; now apply IH].
Qed.

Lemma py_float_has_d s : has_d s = true -> py_float s = Raise ValueError.
Proof.
  intros H. apply has_d_other in H. unfold py_float.
  pose proof (frun_other s (P_start, facc0) H) as R.
  destruct (frun (P_start, facc0) s) as [p a]. simpl in R. now subst p.
Qed.

Lemma d2e_lower_no_d c :
  (Ascii.eqb c "d" || Ascii.eqb c "D")
  || Ascii.eqb (if Ascii.eqb (lower_ascii c) "d" then "e"%char
                else lower_ascii c)
               (lower_ascii c) = true.
Proof. each_ascii c. Qed.

Lemma replace_lower_no_d s :
  has_d s = false -> replace "d" "e" (lower s) = lower s.
Proof.
  unfold has_d, replace, lower. induction s as [|c s IH]; simpl;
    [reflexivity|].
  intros H. apply orb_false_iff in H. destruct H as [Hc Hs].
  rewrite (IH Hs). f_equal.
  pose proof (d2e_lower_no_d c) as D. rewrite Hc in D. simpl in D.
  now apply Ascii.eqb_eq in D.
Qed.

(** X1. [parse_float] is [float] applied to the lowered string with every
    "d" turned into "e": trying the plain parse first changes nothing.  So
    it accepts "D" and "d" wherever [float] accepts an exponent marker, it
    ignores case, and the only exception it raises is ValueError. *)
Theorem parse_float_normal_form (s : string) :
  parse_float s = py_float (replace "d" "e" (lower s))
  /\ parse_float (lower s) = parse_float s
  /\ (forall e, parse_float s = Raise e -> e = ValueError).
Proof.
  assert (NF : forall t, parse_float t = py_float (replace "d" "e" (lower t))).
  { intros t. unfold parse_float. destruct (has_d t) eqn:D.
    - now rewrite (py_float_has_d _ D).
    - rewrite (replace_lower_no_d _ D), py_float_lower.
      destruct (py_float t) as [v|e] eqn:E; [reflexivity|].
      now rewrite (py_float_raises _ E). }
  split; [apply NF|]. split.
  - rewrite (NF (lower s)), (NF s). unfold lower.
    rewrite str_map_compose. f_equal. f_equal.
    induction s as [|c s IH]; simpl; [reflexivity|]. rewrite IH. f_equal.
    destruct c as [[] [] [] [] [] [] [] []]; vm_compute; reflexivity.
  - intros e H. rewrite NF in H. now apply py_float_raises in H.
Qed.

(** ** Reading tokens by position *)

Lemma float_at_eq toks i s :
  0 <= i -> nth_error toks (Z.to_nat i) = Some s ->
  float_at toks i = parse_float s.
Proof.
  intros Hi Hn. unfold float_at. now rewrite (@getitem_nth _ toks i s Hi Hn).
Qed.

Lemma int_at_eq toks i s :
  0 <= i -> nth_error toks (Z.to_nat i) = Some s ->
  int_at toks i = py_int s.
Proof.
  intros Hi Hn. unfold int_at. now rewrite (@getitem_nth _ toks i s Hi Hn).
Qed.

Lemma builtin_float_at_eq toks i s :
  0 <= i -> nth_error toks (Z.to_nat i) = Some s ->
  builtin_float_at toks i = py_float s.
Proof.
  intros Hi Hn. unfold builtin_float_at.
  now rewrite (@getitem_nth _ toks i s Hi Hn).
Qed.

Lemma len_range a b : len (range a b) = Z.max 0 (b - a).
Proof. unfold len, range. rewrite length_map, length_seq. lia. Qed.

Lemma len_range_step3 a b :
  a <= b -> len (range_step a b 3) = (b - a + 2) / 3.
Proof.
  intros H. unfold len, range_step. rewrite length_map, length_seq.
  replace (b - a + 3 - 1) with (b - a + 2) by lia.
  assert (0 <= (b - a + 2) / 3) by (apply Z.div_pos; lia). lia.
Qed.

(** ** Point *)

(** X2. A Point record decodes exactly when it has at least four tokens
    and tokens 1, 2 and 3 are numbers (legacy exponents included); the
    coordinate is then made of those three numbers, whatever token 0 and
    the tokens after the third coordinate are, and no position is marked
    as a pointer. *)
Theorem Point_decodes_iff (toks : list string) (p : Point.t) :
  Point._add_parameters toks = Ok p
  <-> exists t0 t1 t2 t3 rest,
        toks = t0 :: t1 :: t2 :: t3 :: rest
        /\ parse_float t1 = Ok (Point._x p)
        /\ parse_float t2 = Ok (Point._y p)
        /\ parse_float t3 = Ok (Point._z p)
        /\ Point.parameter_pointers p = replicate false (len toks).
Proof.
  unfold Point._add_parameters. cbv zeta. split.
  - intros H.
    destruct toks as [|t0 [|t1 [|t2 [|t3 rest]]]];
      try (do 2 bind_inv H; bind_inv H;
           match goal with
           | X : float_at _ 3 = Ok _ |- _ =>
               rewrite float_at_short in X by (vm_compute; discriminate);
               discriminate
           end).
    rewrite (@float_at_eq _ 1 t1), (@float_at_eq _ 2 t2),
      (@float_at_eq _ 3 t3) in H by (try reflexivity; lia).
    do 3 bind_inv H. inversion H; subst p; clear H.
    exists t0, t1, t2, t3, rest. cbn. repeat split; assumption.
  - intros [t0 [t1 [t2 [t3 [rest [E [Hx [Hy [Hz Hp]]]]]]]]]. subst toks.
    rewrite (@float_at_eq _ 1 t1), (@float_at_eq _ 2 t2),
      (@float_at_eq _ 3 t3) by (try reflexivity; lia).
    rewrite Hx, Hy, Hz. cbn [bind]. destruct p as [pp x y z].
    cbn in Hp. now rewrite Hp.
Qed.

(** ** ConicArc *)

(** X3. ConicArc keeps its tokens as they are: a record of thirteen tokens
    or more always decodes, numeric or not, and its twelve fields are the
    tokens 1 to 12; a shorter record raises IndexError. *)
Theorem ConicArc_keeps_raw_tokens (toks : list string) :
  (len toks < 13 /\ ConicArc._add_parameters toks = Raise IndexError)
  \/ (13 <= len toks
      /\ exists c,
           ConicArc._add_parameters toks = Ok c
           /\ [ConicArc.a c; ConicArc.b c; ConicArc.c c; ConicArc.d c;
               ConicArc.e c; ConicArc.f c; ConicArc.x1 c; ConicArc.y1 c;
               ConicArc.z1 c; ConicArc.x2 c; ConicArc.y2 c; ConicArc.z2 c]
              = slice toks 1 13
           /\ ConicArc.parameters c = toks
           /\ ConicArc.parameter_pointers c = replicate false (len toks)).
Proof.
  destruct toks as
    [|t0 [|t1 [|t2 [|t3 [|t4 [|t5 [|t6 [|t7 [|t8 [|t9 [|t10 [|t11 [|t12 rest
    ]]]]]]]]]]]]];
    try (left; split; [vm_compute; reflexivity | vm_compute; reflexivity]).
  right. pose proof (len_nonneg rest). split; [len_simpl; lia|].
  unfold ConicArc._add_parameters. cbv zeta.
  rewrite (@getitem_nth _ _ 1 t1), (@getitem_nth _ _ 2 t2),
    (@getitem_nth _ _ 3 t3), (@getitem_nth _ _ 4 t4),
    (@getitem_nth _ _ 5 t5), (@getitem_nth _ _ 6 t6),
    (@getitem_nth _ _ 7 t7), (@getitem_nth _ _ 8 t8),
    (@getitem_nth _ _ 9 t9), (@getitem_nth _ _ 10 t10),
    (@getitem_nth _ _ 11 t11), (@getitem_nth _ _ 12 t12)
    by (try reflexivity; lia).
  cbn [bind]. eexists. split; [reflexivity|].
  cbn [ConicArc.a ConicArc.b ConicArc.c ConicArc.d ConicArc.e ConicArc.f
       ConicArc.x1 ConicArc.y1 ConicArc.z1 ConicArc.x2 ConicArc.y2
       ConicArc.z2 ConicArc.parameters ConicArc.parameter_pointers].
  split; [|split; reflexivity].
  symmetry.
  apply (@slice_segment _ [t0]
           [t1; t2; t3; t4; t5; t6; t7; t8; t9; t10; t11; t12] rest);
    reflexivity.
Qed.

(** ** Transformation *)

Lemma Transformation_as_mapM toks :
  Transformation._add_parameters toks
  = (vs <- mapM (float_at toks) (range 1 13) ;;
     match vs with
     | [r11; r12; r13; t1; r21; r22; r23; t2; r31; r32; r33; t3] =>
         Ok (Transformation.mk toks (replicate false (len toks))
               r11 r12 r13 t1 r21 r22 r23 t2 r31 r32 r33 t3)
     | _ => Raise IndexError
     end).
Proof.
  unfold Transformation._add_parameters. cbv zeta.
  change (range 1 13) with [1; 2; 3; 4; 5; 6; 7; 8; 9; 10; 11; 12].
  cbn [mapM].
  repeat match goal with
         | |- context [float_at toks ?i] =>
             destruct (float_at toks i); cbn [bind]; [|reflexivity]
         end.
  reflexivity.
Qed.

(** X4. Decoding a Transformation and calling [to_affine] lays the twelve
    numbers of tokens 1 to 12 out row by row, and adds the row 0 0 0 1. *)
Theorem Transformation_to_affine_rows
    (t0 : string) (ts rest : list string) (vs : list pyfloat) :
  len ts = 12 ->
  mapM parse_float ts = Ok vs ->
  exists t,
    Transformation._add_parameters (t0 :: ts ++ rest) = Ok t
    /\ List.concat (Transformation.to_affine t) = vs ++ [fl 0; fl 0; fl 0; fl 1]
    /\ map (@List.length pyfloat) (Transformation.to_affine t)
       = [4; 4; 4; 4]%nat.
Proof.
  intros Hl Hm. rewrite Transformation_as_mapM.
  rewrite (@mapM_float_segment (t0 :: ts ++ rest) [t0] ts rest vs 1 13)
    by (try reflexivity; try assumption; len_simpl; lia).
  cbn [bind].
  pose proof (mapM_length _ _ Hm) as Lv. rewrite Hl in Lv.
  destruct vs as
    [|v1 [|v2 [|v3 [|v4 [|v5 [|v6 [|v7 [|v8 [|v9 [|v10 [|v11 [|v12 [|v13 vs
    ]]]]]]]]]]]]];
    try (vm_compute in Lv; discriminate).
  - eexists. split; [reflexivity|]. split; reflexivity.
  - exfalso. revert Lv. len_simpl. pose proof (len_nonneg vs). lia.
Qed.

Lemma Transformation_to_affine_rows_witness :
  exists t,
    Transformation._add_parameters
      ("124" :: ["1"; "0"; "0"; "5"; "0"; "1"; "0"; "6"; "0"; "0"; "1"; "7.5D0"]
             ++ ["0"; "0"]) = Ok t
    /\ List.concat (Transformation.to_affine t)
       = [fl 1; fl 0; fl 0; fl 5; fl 0; fl 1; fl 0; fl 6; fl 0; fl 0; fl 1;
          FNum (15 # 2)] ++ [fl 0; fl 0; fl 0; fl 1]
    /\ map (@List.length pyfloat) (Transformation.to_affine t)
       = [4; 4; 4; 4]%nat.
Proof.
  apply Transformation_to_affine_rows; reflexivity.
Defined.

(** ** The decoders that call [float] directly *)

Ltac value_error_cases :=
  repeat match goal with
         | |- context [py_int ?s] =>
             let E := fresh "E" in
             destruct (py_int s) eqn:E; cbn [bind];
             [|rewrite (py_int_raises _ E); reflexivity]
         | |- context [py_float ?s] =>
             let E := fresh "E" in
             destruct (py_float s) eqn:E; cbn [bind];
             [|rewrite (py_float_raises _ E); reflexivity]
         end.

(** X5. Color, Tabulated_Cylinder, Surface_of_Revolution and
    Singular_Subgfigure_Instance convert their reals with [float] and not
    with [parse_float]: a record one of whose reals (RED, GREEN, BLUE; Lx,
    Ly, Lz; SA, EA; X, Y, Z, S) is written with the legacy exponent marker
    ("d" or "D") is never decoded, it raises ValueError, whatever the other
    tokens are. *)
Theorem float_decoders_reject_legacy_exponent
    (s t0 ptr ptr' p q r : string) (rest : list string) :
  has_d s = true ->
  Color._add_parameters (t0 :: s :: p :: q :: rest) = Raise ValueError
  /\ Color._add_parameters (t0 :: p :: s :: q :: rest) = Raise ValueError
  /\ Color._add_parameters (t0 :: p :: q :: s :: rest) = Raise ValueError
  /\ Tabulated_Cylinder._add_parameters (t0 :: ptr :: s :: p :: q :: rest)
     = Raise ValueError
  /\ Tabulated_Cylinder._add_parameters (t0 :: ptr :: p :: s :: q :: rest)
     = Raise ValueError
  /\ Tabulated_Cylinder._add_parameters (t0 :: ptr :: p :: q :: s :: rest)
     = Raise ValueError
  /\ Surface_of_Revolution._add_parameters
       (t0 :: ptr :: ptr' :: s :: p :: rest) = Raise ValueError
  /\ Surface_of_Revolution._add_parameters
       (t0 :: ptr :: ptr' :: p :: s :: rest) = Raise ValueError
  /\ Singular_Subgfigure_Instance._add_parameters
       (t0 :: ptr :: s :: p :: q :: r :: rest) = Raise ValueError
  /\ Singular_Subgfigure_Instance._add_parameters
       (t0 :: ptr :: p :: s :: q :: r :: rest) = Raise ValueError
  /\ Singular_Subgfigure_Instance._add_parameters
       (t0 :: ptr :: p :: q :: s :: r :: rest) = Raise ValueError
  /\ Singular_Subgfigure_Instance._add_parameters
       (t0 :: ptr :: p :: q :: r :: s :: rest) = Raise ValueError.
Proof.
  intros D. pose proof (py_float_has_d _ D) as F.
  unfold Color._add_parameters, Tabulated_Cylinder._add_parameters,
    Surface_of_Revolution._add_parameters,
    Singular_Subgfigure_Instance._add_parameters.
  cbv zeta.
  repeat match goal with
         | |- context [builtin_float_at ?l ?i] =>
             rewrite (@builtin_float_at_eq l i _ ltac:(lia) eq_refl)
         | |- context [int_at ?l ?i] =>
             rewrite (@int_at_eq l i _ ltac:(lia) eq_refl)
         end.
  rewrite F.
  repeat split; cbn [bind]; value_error_cases; reflexivity.
Qed.

Lemma float_decoders_reject_legacy_exponent_witness :
  Color._add_parameters ["314"; "1.0D2"; "0.0"; "0.0"; "RED"]
  = Raise ValueError
  /\ parse_float "1.0D2" = Ok (fl 100).
Proof.
  split; [|reflexivity].
  apply (@float_decoders_reject_legacy_exponent
           "1.0D2" "314" "1" "2" "0.0" "0.0" "0.0" ["RED"]).
  reflexivity.
Defined.

(** ** Loops over ranges *)

Lemma len_repeat {A} (x : A) n : 0 <= n -> len (replicate x n) = n.
Proof. intros H. unfold len, replicate. rewrite repeat_length. lia. Qed.

Lemma len_repeat_neg {A} (x : A) n : n <= 0 -> replicate x n = [].
Proof.
  intros H. unfold replicate. now replace (Z.to_nat n) with 0%nat by lia.
Qed.

Lemma getitem_In {A} (l : list A) i a : getitem l i = Ok a -> In a l.
Proof.
  unfold getitem. destruct (_ || _); [discriminate|].
  destruct (nth_error l _) as [x|] eqn:E; intros H; inversion H; subst.
  eapply nth_error_In; eassumption.
Qed.

Lemma getitem_replicate {A} (x y : A) n i :
  getitem (replicate x n) i = Ok y -> y = x.
Proof. intros H. apply getitem_In in H. now apply repeat_spec in H. Qed.

Lemma In_range i a b : In i (range a b) <-> a <= i < b.
Proof.
  unfold range. rewrite in_map_iff. split.
  - intros [k [E H]]. apply in_seq in H. lia.
  - intros H. exists (Z.to_nat (i - a)). split; [lia|]. apply in_seq. lia.
Qed.

Lemma mapM_Ok_In {A B} (g : A -> result B) l xs a :
  mapM g l = Ok xs -> In a l -> exists x, g a = Ok x.
Proof.
  revert xs. induction l as [|a' l IH]; simpl; intros xs H Hin; [tauto|].
  do 2 bind_inv H. destruct Hin as [->|Hin]; eauto.
Qed.

Lemma mapM_ext {A B} (g h : A -> result B) l :
  (forall a, In a l -> g a = h a) -> mapM g l = mapM h l.
Proof.
  induction l as [|a l IH]; simpl; intros H; [reflexivity|].
  rewrite (H a) by now left. rewrite IH; [reflexivity|].
  intros x Hx. apply H. now right.
Qed.

Lemma mapM_map {A B C} (g : B -> result C) (h : A -> B) l :
  mapM g (map h l) = mapM (fun a => g (h a)) l.
Proof.
  induction l as [|a l IH]; simpl; [reflexivity | now rewrite IH].
Qed.

Lemma range_shift a n : range a (a + n) = map (Z.add a) (range 0 n).
Proof.
  unfold range. rewrite map_map.
  replace (a + n - a) with (n - 0) by lia. apply map_ext. intros k. lia.
Qed.

(** A loop that reads one value per turn and adds it to its state is a
    [mapM] followed by a fold, as long as the state stays in [P]. *)
Lemma foldM_as_mapM {S A B} (P : S -> Prop) (f : A -> result B)
    (step : S -> B -> S) (body : S -> A -> result S) :
  (forall s b, P s -> P (step s b)) ->
  (forall s a, P s -> body s a = (b <- f a ;; Ok (step s b))) ->
  forall l s, P s ->
    foldM body l s = (bs <- mapM f l ;; Ok (fold_left step bs s)).
Proof.
  intros HP Hb. induction l as [|a l IH]; intros s Hs; simpl; [reflexivity|].
  rewrite (Hb s a Hs). destruct (f a) as [b|e]; simpl; [|reflexivity].
  rewrite (IH _ (HP s b Hs)). destruct (mapM f l); reflexivity.
Qed.

Lemma fold_left_append_mark {B} (bs : list B) :
  forall (acc : list B) (pp : list bool),
    fold_left (fun st b => (fst st ++ [b], snd st ++ [true])) bs (acc, pp)
    = (acc ++ bs, pp ++ repeat true (List.length bs)).
Proof.
  induction bs as [|b bs IH]; intros acc pp; simpl.
  - now rewrite !app_nil_r.
  - rewrite IH. simpl. now rewrite <- !app_assoc.
Qed.

Lemma fold_left_append_keep {B C} (bs : list B) :
  forall (acc : list B) (pp : C),
    fold_left (fun st b => (fst st ++ [b], snd st)) bs (acc, pp)
    = (acc ++ bs, pp).
Proof.
  induction bs as [|b bs IH]; intros acc pp; simpl.
  - now rewrite app_nil_r.
  - rewrite IH. simpl. now rewrite <- app_assoc.
Qed.

(** Reading the positions [a, b) one by one succeeds only if they are all
    there, and gives the tokens of that stretch. *)
Lemma mapM_range_bound {B} (f : string -> result B) toks a b xs :
  mapM (fun i => tok <- getitem toks i ;; f tok) (range a b) = Ok xs ->
  0 <= a -> a < b -> b <= len toks.
Proof.
  intros H Ha Hab.
  destruct (mapM_Ok_In _ _ (b - 1) H) as [x Hx]; [apply In_range; lia|].
  bind_inv Hx.
  match goal with
  | X : getitem _ _ = Ok _ |- _ => pose proof (@getitem_Ok_bound _ _ _ _ X)
  end. lia.
Qed.

Lemma split_at {A} (l : list A) a n :
  0 <= a -> 0 <= n -> a + n <= len l ->
  exists pre mid post,
    l = pre ++ mid ++ post /\ len pre = a /\ len mid = n
    /\ mid = slice l a (a + n).
Proof.
  intros Ha Hn Hl.
  exists (firstn (Z.to_nat a) l),
         (firstn (Z.to_nat n) (skipn (Z.to_nat a) l)),
         (skipn (Z.to_nat n) (skipn (Z.to_nat a) l)).
  unfold len in *.
  assert (L1 : List.length (firstn (Z.to_nat a) l) = Z.to_nat a)
    by (rewrite length_firstn; lia).
  assert (L2 : List.length (firstn (Z.to_nat n) (skipn (Z.to_nat a) l))
               = Z.to_nat n)
    by (rewrite length_firstn, length_skipn; lia).
  split; [now rewrite !firstn_skipn|].
  split; [lia|]. split; [lia|].
  unfold slice, slice_bound, len.
  destruct (a <? 0) eqn:E1; [lia|]. destruct (a + n <? 0) eqn:E2; [lia|].
  replace (Z.min (Z.of_nat (List.length l)) (Z.max 0 a)) with a by lia.
  replace (Z.min (Z.of_nat (List.length l)) (Z.max 0 (a + n)))
    with (a + n) by lia.
  now replace (a + n - a) with n by lia.
Qed.

Lemma mapM_range_segment_eq {B} (f : string -> result B) mid :
  forall pre post a b,
    a = len pre -> b = a + len mid ->
    mapM (fun i => tok <- getitem (pre ++ mid ++ post) i ;; f tok) (range a b)
    = mapM f mid.
Proof.
  induction mid as [|x mid IH]; intros pre post a b Ha Hb.
  - rewrite range_nil; [reflexivity | len_simpl; lia].
  - pose proof (len_nonneg mid).
    rewrite range_cons by (len_simpl; lia). simpl.
    rewrite (getitem_app_mid pre (mid ++ post) x Ha). simpl.
    replace (pre ++ x :: mid ++ post) with ((pre ++ [x]) ++ mid ++ post)
      by (now rewrite <- app_assoc).
    rewrite (IH (pre ++ [x]) post (a + 1) b);
      [reflexivity | len_simpl; lia | len_simpl; lia].
Qed.

Lemma mapM_range_tokens {B} (f : string -> result B) toks a n xs :
  mapM (fun i => tok <- getitem toks i ;; f tok) (range a (a + n)) = Ok xs ->
  0 <= a -> 0 <= n -> a <= len toks ->
  a + n <= len toks /\ mapM f (slice toks a (a + n)) = Ok xs.
Proof.
  intros H Ha Hn Hal.
  assert (Hb : a + n <= len toks).
  { destruct (Z.eq_dec n 0) as [->|Hn0]; [lia|].
    eapply mapM_range_bound; [exact H | lia | lia]. }
  split; [exact Hb|].
  destruct (split_at toks Ha Hn Hb) as [pre [mid [post [E [L1 [L2 Em]]]]]].
  rewrite <- Em. rewrite E in H.
  now rewrite (mapM_range_segment_eq f mid pre post) in H by lia.
Qed.

Lemma mapM_Ok_id {A} (l : list A) : mapM (@Ok A) l = Ok l.
Proof. induction l as [|a l IH]; simpl; [reflexivity | now rewrite IH]. Qed.

Lemma mapM_offsets {B} (f : string -> result B) (g : Z -> Z) toks a n xs :
  (forall i, g i = a + i) ->
  mapM (fun ii => tok <- getitem toks (g ii) ;; f tok) (range 0 n) = Ok xs ->
  0 <= a -> 0 <= n -> a <= len toks ->
  a + n <= len toks /\ mapM f (slice toks a (a + n)) = Ok xs.
Proof.
  intros Hg H Ha Hn Hal.
  apply (@mapM_range_tokens _ f toks a n xs); try assumption.
  rewrite range_shift, mapM_map. rewrite <- H.
  apply mapM_ext. intros i _. now rewrite Hg.
Qed.

Lemma len_slice {A} (l : list A) a b :
  0 <= a -> a <= len l -> a <= b -> len (slice l a b) = Z.min b (len l) - a.
Proof.
  intros Ha Hal Hab. unfold slice, slice_bound.
  destruct (a <? 0) eqn:E1; [lia|]. destruct (b <? 0) eqn:E2; [lia|].
  unfold len in *. rewrite length_firstn, length_skipn. lia.
Qed.

(** ** The pointer markers of the decoders that pad *)

(** X6. A decoded Curve_On_A_Parametric_Surface has at least six tokens,
    and its pointer markers are as many as its tokens: True at positions
    2, 3 and 4 (surface, curve, mapping) and False everywhere else. *)
Theorem Curve_On_A_Parametric_Surface_pointers
    (toks : list string) (c : Curve_On_A_Parametric_Surface.t) :
  Curve_On_A_Parametric_Surface._add_parameters toks = Ok c ->
  6 <= len toks
  /\ Curve_On_A_Parametric_Surface.parameter_pointers c
     = [false; false; true; true; true; false]
         ++ replicate false (len toks - 6)
  /\ len (Curve_On_A_Parametric_Surface.parameter_pointers c) = len toks.
Proof.
  unfold Curve_On_A_Parametric_Surface._add_parameters. cbv zeta. intros H.
  do 5 bind_inv H. inversion H; subst c; clear H.
  cbn [Curve_On_A_Parametric_Surface.parameter_pointers].
  match goal with
  | X : getitem toks 5 = Ok _ |- _ =>
      pose proof (@getitem_Ok_bound _ _ _ _ X) as B
  end.
  change (len [false; false; true; true; true; false]) with 6.
  split; [lia|]. split; [reflexivity|].
  rewrite !len_cons, len_repeat by lia. lia.
Qed.

Lemma Curve_On_A_Parametric_Surface_pointers_witness :
  exists c,
    Curve_On_A_Parametric_Surface._add_parameters
      ["142"; "1"; "11"; "13"; "15"; "2"; "0"; "0"] = Ok c
    /\ Curve_On_A_Parametric_Surface.parameter_pointers c
       = [false; false; true; true; true; false; false; false].
Proof.
  eexists. split; [vm_compute; reflexivity|].
  match goal with
  | |- Curve_On_A_Parametric_Surface.parameter_pointers ?c = _ =>
      destruct (@Curve_On_A_Parametric_Surface_pointers
                  ["142"; "1"; "11"; "13"; "15"; "2"; "0"; "0"] c)
        as [_ [P _]]; [vm_compute; reflexivity | exact P]
  end.
Defined.

Lemma Trimmed_Surface_loop toks l st :
  foldM (Trimmed_Surface.loop_body toks) l st
  = (bs <- mapM (fun ii => tok <- getitem toks (5 + ii) ;; Ok tok) l ;;
     Ok (fst st ++ bs, snd st ++ repeat true (List.length bs))).
Proof.
  rewrite (@foldM_as_mapM _ _ _ (fun _ => True)
             (fun ii => tok <- getitem toks (5 + ii) ;; Ok tok)
             (fun st b => (fst st ++ [b], snd st ++ [true])));
    try tauto.
  - destruct (mapM _ l) as [bs|e]; [|reflexivity]. cbn [bind].
    destruct st as [acc pp]. now rewrite fold_left_append_mark.
  - intros [acc pp] a _. unfold Trimmed_Surface.loop_body.
    destruct (getitem toks (5 + a)); reflexivity.
Qed.

(** X7. A decoded Trimmed_Surface that announces n inner boundaries holds
    them all: the record has at least 5 + n tokens, the inner boundaries
    are the tokens 5 to 4 + n as they are, and the pointer markers are as
    many as the tokens, True at position 1 (surface), position 4 (outer
    boundary) and the n positions of the inner boundaries. *)
Theorem Trimmed_Surface_pointers
    (toks : list string) (s : Trimmed_Surface.t) :
  Trimmed_Surface._add_parameters toks = Ok s ->
  0 <= Trimmed_Surface.n_inner_boundary s ->
  let n := Trimmed_Surface.n_inner_boundary s in
  5 + n <= len toks
  /\ Trimmed_Surface.inner_curve_boundary s = slice toks 5 (5 + n)
  /\ Trimmed_Surface.parameter_pointers s
     = [false; true; false; false; true]
         ++ replicate true n ++ replicate false (len toks - 5 - n)
  /\ len (Trimmed_Surface.parameter_pointers s) = len toks.
Proof.
  unfold Trimmed_Surface._add_parameters. cbv zeta. intros H.
  do 4 bind_inv H. rewrite Trimmed_Surface_loop in H. bind_inv H.
  inversion H; subst s; clear H.
  match goal with
  | X : bind (mapM _ _) _ = Ok _ |- _ =>
      bind_inv X; inversion X; subst; clear X
  end.
  cbn [Trimmed_Surface.n_inner_boundary Trimmed_Surface.parameter_pointers
       Trimmed_Surface.inner_curve_boundary fst snd].
  intros Hn.
  match goal with
  | X : int_at toks 4 = Ok _ |- _ =>
      pose proof (@int_at_Ok_bound _ _ _ X) as B4
  end.
  match goal with
  | X : mapM _ (range 0 ?n) = Ok ?bs |- _ =>
      destruct (@mapM_offsets _ (@Ok string) (fun i => 5 + i) toks 5 n bs)
        as [Hb Hm]; [reflexivity | exact X | lia | lia | lia |];
      pose proof (mapM_length _ _ X) as Lb
  end.
  rewrite mapM_Ok_id in Hm.
  match type of Hm with
  | Ok ?sl = Ok ?bs => assert (Eb : bs = sl) by congruence; subst bs
  end.
  cbn [fst snd app]. rewrite len_range in Lb.
  split; [exact Hb|]. split; [reflexivity|].
  match goal with
  | |- context [repeat true (List.length ?sl)] =>
      replace (repeat true (List.length sl)) with (replicate true a1)
        by (unfold replicate; f_equal; unfold len in Lb; lia)
  end.
  assert (L : len (false :: true :: false :: false :: true
                         :: replicate true a1) = 5 + a1)
    by (rewrite !len_cons, len_repeat by lia; lia).
  rewrite L. replace (len toks - (5 + a1)) with (len toks - 5 - a1) by lia.
  split; [reflexivity|].
  rewrite !len_cons, len_app, !len_repeat by lia. lia.
Qed.

Lemma Trimmed_Surface_pointers_witness :
  exists s,
    Trimmed_Surface._add_parameters
      ["144"; "5"; "1"; "2"; "7"; "9"; "11"; "0"; "0"] = Ok s
    /\ Trimmed_Surface.inner_curve_boundary s = ["9"; "11"]
    /\ Trimmed_Surface.parameter_pointers s
       = [false; true; false; false; true; true; true; false; false].
Proof.
  eexists. split; [vm_compute; reflexivity|].
  match goal with
  | |- Trimmed_Surface.inner_curve_boundary ?s = _ /\ _ =>
      destruct (@Trimmed_Surface_pointers
                  ["144"; "5"; "1"; "2"; "7"; "9"; "11"; "0"; "0"] s)
        as [_ [I [P _]]];
        [vm_compute; reflexivity | vm_compute; discriminate |]
  end.
  split; [exact I | exact P].
Defined.

(** ** Subfigure *)

(** X8. Subfigure takes its pointers with a slice, so a record that
    announces N entities and holds fewer still decodes: it has as many
    pointers as there are tokens from position 4 on, at most N.  The
    pointer markers are four False, N True, then False up to the length of
    the record, so they outnumber the tokens when the record is short. *)
Theorem Subfigure_truncates_silently
    (toks : list string) (s : Subfigure.t) :
  Subfigure._add_parameters toks = Ok s ->
  0 <= Subfigure.Number_of_entities s ->
  let N := Subfigure.Number_of_entities s in
  4 <= len toks
  /\ mapM py_int (slice toks 4 (4 + N)) = Ok (Subfigure.pointers s)
  /\ len (Subfigure.pointers s) = Z.min N (len toks - 4)
  /\ Subfigure.parameter_pointers s
     = [false; false; false; false]
         ++ replicate true N ++ replicate false (len toks - 4 - N)
  /\ len (Subfigure.parameter_pointers s) = Z.max (len toks) (4 + N).
Proof.
  unfold Subfigure._add_parameters. cbv zeta. intros H.
  do 4 bind_inv H. inversion H; subst s; clear H.
  cbn [Subfigure.Number_of_entities Subfigure.pointers
       Subfigure.parameter_pointers].
  intros HN.
  match goal with
  | X : int_at toks 3 = Ok ?n |- _ =>
      pose proof (@int_at_Ok_bound _ _ _ X) as B3; set (N := n) in *
  end.
  match goal with
  | X : mapM py_int _ = Ok _ |- _ =>
      pose proof (mapM_length _ _ X) as L; rename X into HP
  end.
  rewrite len_slice in L by lia.
  assert (L4 : len (false :: false :: false :: false :: replicate true N)
               = 4 + N)
    by (rewrite !len_cons, len_repeat by lia; lia).
  rewrite L4.
  replace (len toks - (4 + N)) with (len toks - 4 - N) by lia.
  split; [lia|]. split; [exact HP|]. split; [lia|].
  split; [reflexivity|].
  rewrite !len_cons, len_app. rewrite !len_cons in L4.
  destruct (Z_le_gt_dec (len toks - 4 - N) 0) as [Hs|Hs].
  - rewrite (@len_repeat_neg _ false) by lia. rewrite len_nil. lia.
  - rewrite (@len_repeat _ false) by lia. lia.
Qed.

Lemma Subfigure_truncates_silently_witness :
  exists s,
    Subfigure._add_parameters subfigure_record_short = Ok s
    /\ len (Subfigure.pointers s) = 1
    /\ len (Subfigure.parameter_pointers s) = 7
    /\ len subfigure_record_short = 5.
Proof.
  eexists. split; [vm_compute; reflexivity|].
  match goal with
  | |- len (Subfigure.pointers ?s) = _ /\ _ =>
      destruct (@Subfigure_truncates_silently subfigure_record_short s)
        as [_ [_ [L [_ L']]]];
        [vm_compute; reflexivity | vm_compute; discriminate |]
  end.
  split; [exact L|]. split; [exact L' | reflexivity].
Defined.

(** ** Composite_Curve, Bounded_Surface and Face *)

Lemma Composite_Curve_loop toks l st :
  foldM (Composite_Curve.loop_body toks) l st
  = (bs <- mapM (fun ii => int_at toks (ii + 2)) l ;;
     Ok (fst st ++ bs, snd st ++ repeat true (List.length bs))).
Proof.
  rewrite (@foldM_as_mapM _ _ _ (fun _ => True)
             (fun ii => int_at toks (ii + 2))
             (fun st b => (fst st ++ [b], snd st ++ [true])));
    try tauto; try (intros [acc pp] a _; reflexivity).
  destruct (mapM _ l) as [bs|e]; [|reflexivity]. cbn [bind].
  destruct st as [acc pp]. now rewrite fold_left_append_mark.
Qed.

(** X9. A decoded Composite_Curve that announces N curves holds them all:
    the record has at least 2 + N tokens and the curve pointers are the
    integers of tokens 2 to 1 + N, in order; its pointer markers are two
    False and N True, with nothing for the tokens that may follow. *)
Theorem Composite_Curve_decoded
    (toks : list string) (c : Composite_Curve.t) :
  Composite_Curve._add_parameters toks = Ok c ->
  0 <= Composite_Curve.N_curves c ->
  let N := Composite_Curve.N_curves c in
  2 + N <= len toks
  /\ mapM py_int (slice toks 2 (2 + N)) = Ok (Composite_Curve.curves c)
  /\ len (Composite_Curve.curves c) = N
  /\ Composite_Curve.parameter_pointers c
     = [false; false] ++ replicate true N
  /\ len (Composite_Curve.parameter_pointers c) = 2 + N.
Proof.
  intros H. pose proof (Composite_Curve_pointers _ H) as PP. revert H.
  unfold Composite_Curve._add_parameters. cbv zeta. intros H.
  do 2 bind_inv H. inversion H; subst c; clear H.
  rewrite Composite_Curve_loop in *.
  match goal with
  | X : bind (mapM _ _) _ = Ok _ |- _ =>
      bind_inv X; inversion X; subst; clear X
  end.
  cbn [Composite_Curve.N_curves Composite_Curve.curves
       Composite_Curve.parameter_pointers fst snd app] in *.
  intros HN.
  match goal with
  | X : int_at toks 1 = Ok ?n |- _ =>
      pose proof (@int_at_Ok_bound _ _ _ X) as B1; set (N := n) in *
  end.
  match goal with
  | X : mapM _ (range 0 N) = Ok ?bs |- _ =>
      destruct (@mapM_offsets _ py_int (fun i => i + 2) toks 2 N bs)
        as [Hb Hm]; [intros; lia | exact X | lia | lia | lia |];
      pose proof (mapM_length _ _ X) as Lb
  end.
  rewrite len_range in Lb.
  split; [exact Hb|]. split; [exact Hm|]. split; [lia|].
  split; [exact PP|]. rewrite PP. cbn [app].
  rewrite !len_cons, len_repeat by lia. lia.
Qed.

Lemma Composite_Curve_decoded_witness :
  exists c,
    Composite_Curve._add_parameters composite_curve_record = Ok c
    /\ Composite_Curve.curves c = [21; 23]
    /\ len (Composite_Curve.parameter_pointers c) = 4
    /\ len composite_curve_record = 6.
Proof.
  eexists. split; [vm_compute; reflexivity|].
  match goal with
  | |- Composite_Curve.curves ?c = _ /\ _ =>
      destruct (@Composite_Curve_decoded composite_curve_record c)
        as [_ [_ [_ [_ L]]]];
        [vm_compute; reflexivity | vm_compute; discriminate |]
  end.
  split; [reflexivity|]. split; [exact L | reflexivity].
Defined.

Lemma Bounded_Surface_loop toks l acc :
  foldM (Bounded_Surface.loop_body toks) l (acc, [false; false; true; false])
  = (bs <- mapM (int_at toks) l ;;
     Ok (acc ++ bs, [false; false; true; false])).
Proof.
  rewrite (@foldM_as_mapM _ _ _
             (fun st => snd st = [false; false; true; false])
             (int_at toks)
             (fun st b => (fst st ++ [b], snd st))).
  - destruct (mapM _ l) as [bs|e]; [|reflexivity]. cbn [bind].
    now rewrite fold_left_append_keep.
  - intros s b Hs. exact Hs.
  - intros [B pp] a Hs. simpl in Hs. subst pp.
    unfold Bounded_Surface.loop_body.
    destruct (int_at toks a); reflexivity.
  - reflexivity.
Qed.

(** X10. A decoded Bounded_Surface that announces N boundaries holds them
    all: the record has at least 4 + N tokens and the list B is made of the
    integers of tokens 4 to 3 + N, in order. *)
Theorem Bounded_Surface_decoded
    (toks : list string) (b : Bounded_Surface.t) :
  Bounded_Surface._add_parameters toks = Ok b ->
  0 <= Bounded_Surface.N_boundaries b ->
  let N := Bounded_Surface.N_boundaries b in
  4 + N <= len toks
  /\ mapM py_int (slice toks 4 (4 + N)) = Ok (Bounded_Surface.B b)
  /\ len (Bounded_Surface.B b) = N.
Proof.
  unfold Bounded_Surface._add_parameters. cbv zeta. intros H.
  do 3 bind_inv H. rewrite Bounded_Surface_loop in H. bind_inv H.
  inversion H; subst b; clear H.
  match goal with
  | X : bind (mapM _ _) _ = Ok _ |- _ =>
      bind_inv X; inversion X; subst; clear X
  end.
  cbn [Bounded_Surface.N_boundaries Bounded_Surface.B fst app].
  intros HN.
  match goal with
  | X : int_at toks 3 = Ok ?n |- _ =>
      pose proof (@int_at_Ok_bound _ _ _ X) as B3; set (N := n) in *
  end.
  match goal with
  | X : mapM _ (range 4 (4 + N)) = Ok ?bs |- _ =>
      destruct (@mapM_range_tokens _ py_int toks 4 N bs)
        as [Hb Hm]; [exact X | lia | lia | lia |];
      pose proof (mapM_length _ _ X) as Lb
  end.
  rewrite len_range in Lb.
  split; [exact Hb|]. split; [exact Hm|]. lia.
Qed.

Lemma Bounded_Surface_decoded_witness :
  exists b,
    Bounded_Surface._add_parameters bounded_surface_record = Ok b
    /\ Bounded_Surface.B b = [21; 23]
    /\ len (Bounded_Surface.B b) = 2.
Proof.
  eexists. split; [vm_compute; reflexivity|].
  match goal with
  | |- Bounded_Surface.B ?b = _ /\ _ =>
      destruct (@Bounded_Surface_decoded bounded_surface_record b)
        as [_ [_ L]];
        [vm_compute; reflexivity | vm_compute; discriminate |]
  end.
  split; [reflexivity | exact L].
Defined.

(** X11. A decoded Face that announces n loops holds them all: the record
    has at least 4 + n tokens and the loop pointers are the integers of
    tokens 4 to 3 + n.  The outer loop flag is [bool] of a string: it is
    False only when token 3 is empty, so the tokens "0" and "F" give
    True. *)
Theorem Face_decoded (toks : list string) (f : Face.t) :
  Face._add_parameters toks = Ok f ->
  0 <= Face.n_loops f ->
  let n := Face.n_loops f in
  4 + n <= len toks
  /\ mapM py_int (slice toks 4 (4 + n)) = Ok (Face.loop_pointers f)
  /\ len (Face.loop_pointers f) = n
  /\ (Face.outer_loop_flag f = false <-> getitem toks 3 = Ok "").
Proof.
  unfold Face._add_parameters. cbv zeta. intros H.
  do 4 bind_inv H. inversion H; subst f; clear H.
  cbn [Face.n_loops Face.loop_pointers Face.outer_loop_flag].
  intros HN.
  match goal with
  | X : getitem toks 3 = Ok ?fl |- _ =>
      pose proof (@getitem_Ok_bound _ _ _ _ X) as B3; rename X into HF
  end.
  match goal with
  | X : mapM _ (range 0 ?n) = Ok ?bs |- _ =>
      destruct (@mapM_offsets _ py_int (fun i => 4 + i) toks 4 n bs)
        as [Hb Hm]; [reflexivity | exact X | lia | lia | lia |];
      pose proof (mapM_length _ _ X) as Lb
  end.
  rewrite len_range in Lb.
  split; [exact Hb|]. split; [exact Hm|]. split; [lia|].
  rewrite HF. split.
  - intros E. f_equal.
    match goal with
    | |- ?s = "" => destruct s; [reflexivity | discriminate]
    end.
  - intros E. inversion E. reflexivity.
Qed.

Lemma Face_decoded_witness :
  exists f,
    Face._add_parameters ["510"; "7"; "2"; "0"; "9"; "11"] = Ok f
    /\ Face.loop_pointers f = [9; 11]
    /\ Face.outer_loop_flag f = true.
Proof.
  eexists. split; [vm_compute; reflexivity|].
  match goal with
  | |- Face.loop_pointers ?f = _ /\ _ =>
      destruct (@Face_decoded ["510"; "7"; "2"; "0"; "9"; "11"] f)
        as [_ [_ [_ F]]];
        [vm_compute; reflexivity | vm_compute; discriminate |]
  end.
  split; reflexivity.
Defined.

(** ** The accessors that resolve pointers *)

Section Collecting.

Variable Entity : Type.
Variable from_pointer : pointer -> result Entity.

Lemma foldM_collect ptrs :
  forall acc,
    foldM (collect_body from_pointer) ptrs acc
    = (es <- mapM (fun p => from_pointer (PtrTok (VInt p))) ptrs ;;
       Ok (acc ++ es)).
Proof.
  induction ptrs as [|p ptrs IH]; intros acc; simpl.
  - now rewrite app_nil_r.
  - unfold collect_body at 1.
    destruct (from_pointer (PtrTok (VInt p))) as [e|x]; simpl; [|reflexivity].
    rewrite IH. destruct (mapM _ ptrs) as [es|x]; simpl; [|reflexivity].
    now rewrite <- app_assoc.
Qed.

(** X12. [Composite_Curve.get_curves], [Bounded_Surface.get_boundaries]
    and [Face.loops] return the whole list: when every stored pointer
    resolves, one entity for each pointer, in the stored order; otherwise
    they raise what the resolver raises. *)
Theorem list_accessors_return_all
    (c : Composite_Curve.t) (b : Bounded_Surface.t) (f : Face.t) :
  let resolve := fun p => from_pointer (PtrTok (VInt p)) in
  Composite_Curve_get_curves from_pointer c
  = mapM resolve (Composite_Curve.curves c)
  /\ Bounded_Surface_get_boundaries from_pointer b
     = mapM resolve (Bounded_Surface.B b)
  /\ Face_loops from_pointer f = mapM resolve (Face.loop_pointers f)
  /\ (forall es,
        Composite_Curve_get_curves from_pointer c = Ok es ->
        len es = len (Composite_Curve.curves c))
  /\ (forall e,
        Composite_Curve_get_curves from_pointer c = Raise e ->
        exists p, In p (Composite_Curve.curves c) /\ resolve p = Raise e).
Proof.
  intros resolve.
  assert (G : forall ptrs,
             foldM (collect_body from_pointer) ptrs [] = mapM resolve ptrs).
  { intros ptrs. rewrite foldM_collect. fold resolve.
    destruct (mapM resolve ptrs); reflexivity. }
  unfold Composite_Curve_get_curves, Bounded_Surface_get_boundaries,
    Face_loops.
  rewrite !G. repeat split.
  - intros es H. exact (mapM_length _ _ H).
  - intros e. induction (Composite_Curve.curves c) as [|p ptrs IH]; simpl;
      [discriminate|].
    intros H. apply bind_Raise_inv in H. destruct H as [H | [x [_ H]]].
    + exists p. split; [now left | exact H].
    + apply bind_Raise_inv in H. destruct H as [H | [xs [_ H]]];
        [|discriminate].
      destruct (IH H) as [q [Hq Hr]]. exists q. split; [now right | exact Hr].
Qed.

End Collecting.

(** ** VertexList and EdgeList *)

Lemma mapM_nth {A B} (g : A -> result B) l :
  forall xs, mapM g l = Ok xs ->
  forall k a, nth_error l k = Some a ->
    exists x, g a = Ok x /\ nth_error xs k = Some x.
Proof.
  induction l as [|a' l IH]; simpl; intros xs H k a Hk.
  - destruct k; discriminate.
  - do 2 bind_inv H. inversion H; subst xs; clear H.
    destruct k as [|k]; simpl in Hk.
    + inversion Hk; subst a'. eauto.
    + destruct (IH _ Ha0 k a Hk) as [x [Hx Hn]]. eauto.
Qed.

Lemma nth_error_range a b k :
  Z.of_nat k < b - a -> nth_error (range a b) k = Some (a + Z.of_nat k).
Proof.
  intros H. unfold range. rewrite nth_error_map, nth_error_seq.
  destruct (Nat.ltb_spec k (Z.to_nat (b - a))) as [_|Hge]; [reflexivity|lia].
Qed.

(** What the i-th turn of a loop over [range(n)] put in the list. *)
Lemma mapM_range_item {B} (g : Z -> result B) n xs i :
  mapM g (range 0 n) = Ok xs -> 0 <= i < n ->
  exists x, g i = Ok x /\ getitem xs i = Ok x.
Proof.
  intros H Hi.
  destruct (mapM_nth _ _ H (Z.to_nat i) (a := i)) as [x [Hx Hn]].
  - rewrite nth_error_range by lia. f_equal. lia.
  - exists x. split; [exact Hx|]. apply getitem_nth; [lia | exact Hn].
Qed.

(** X13. A decoded VertexList that announces n vertices has n points;
    point i is made of the numbers of tokens 2 + 3i, 3 + 3i and 4 + 3i; the
    record has at least 2 + 3n tokens; and no position is marked as a
    pointer. *)
Theorem VertexList_decoded (toks : list string) (v : VertexList.t) :
  VertexList._add_parameters toks = Ok v ->
  0 <= VertexList.n_points v ->
  let n := VertexList.n_points v in
  len (VertexList.points v) = n
  /\ 2 + 3 * n <= len toks
  /\ (forall i, 0 <= i < n ->
        exists x y z,
          getitem (VertexList.points v) i = Ok (x, y, z)
          /\ float_at toks (2 + i * 3) = Ok x
          /\ float_at toks (3 + i * 3) = Ok y
          /\ float_at toks (4 + i * 3) = Ok z)
  /\ VertexList.parameter_pointers v = replicate false (len toks).
Proof.
  unfold VertexList._add_parameters. cbv zeta. intros H.
  do 2 bind_inv H. inversion H; subst v; clear H.
  cbn [VertexList.n_points VertexList.points VertexList.parameter_pointers].
  intros Hn.
  match goal with
  | X : int_at toks 1 = Ok ?n |- _ =>
      pose proof (@int_at_Ok_bound _ _ _ X) as B1; set (N := n) in *
  end.
  match goal with
  | X : mapM _ (range 0 N) = Ok ?ps |- _ =>
      pose proof (mapM_length _ _ X) as L; rename X into HP
  end.
  rewrite len_range in L.
  assert (Item : forall i, 0 <= i < N ->
            exists x y z,
              getitem a0 i = Ok (x, y, z)
              /\ float_at toks (2 + i * 3) = Ok x
              /\ float_at toks (3 + i * 3) = Ok y
              /\ float_at toks (4 + i * 3) = Ok z).
  { intros i Hi. destruct (@mapM_range_item _ _ _ _ i HP Hi) as [[[x y] z] [Hr Hg]].
    unfold VertexList.read_point in Hr. do 3 bind_inv Hr.
    inversion Hr; subst. eauto 10. }
  split; [lia|]. split; [|split; [exact Item | reflexivity]].
  destruct (Z.eq_dec N 0) as [E|E]; [lia|].
  destruct (Item (N - 1)) as [x [y [z [_ [_ [_ Hz]]]]]]; [lia|].
  pose proof (@float_at_Ok_bound _ _ _ Hz). lia.
Qed.

Lemma VertexList_decoded_witness :
  exists v,
    VertexList._add_parameters
      ["502"; "2"; "0"; "0"; "0"; "1.5"; "2D0"; "3"] = Ok v
    /\ VertexList.points v = [(fl 0, fl 0, fl 0); (FNum (3 # 2), fl 2, fl 3)]
    /\ len (VertexList.points v) = 2.
Proof.
  eexists. split; [vm_compute; reflexivity|].
  match goal with
  | |- VertexList.points ?v = _ /\ _ =>
      destruct (@VertexList_decoded
                  ["502"; "2"; "0"; "0"; "0"; "1.5"; "2D0"; "3"] v)
        as [L _]; [vm_compute; reflexivity | vm_compute; discriminate |]
  end.
  split; [reflexivity | exact L].
Defined.

Section EdgeListAccess.

Variable Entity : Type.
Variable from_pointer : pointer -> result Entity.

(** X14. A decoded EdgeList that announces n edges has n edges
    ([len] gives n); edge i is made of the integers of the five tokens
    from 2 + 5i on, and indexing the list at i resolves the pointer of
    token 2 + 5i; the record has at least 2 + 5n tokens; an index from n on
    raises IndexError. *)
Theorem EdgeList_decoded (toks : list string) (el : EdgeList.t) :
  EdgeList._add_parameters toks = Ok el ->
  0 <= EdgeList.n_edges el ->
  let n := EdgeList.n_edges el in
  EdgeList.__len__ el = n
  /\ 2 + 5 * n <= len toks
  /\ (forall i, 0 <= i < n ->
        exists ed,
          getitem (EdgeList.edges el) i = Ok ed
          /\ int_at toks (2 + 5 * i) = Ok (EdgeList.curve1 ed)
          /\ int_at toks (3 + 5 * i) = Ok (EdgeList.svl ed)
          /\ int_at toks (4 + 5 * i) = Ok (EdgeList.s ed)
          /\ int_at toks (5 + 5 * i) = Ok (EdgeList.evl ed)
          /\ int_at toks (6 + 5 * i) = Ok (EdgeList.e ed)
          /\ EdgeList___getitem__ from_pointer el i
             = from_pointer (PtrTok (VInt (EdgeList.curve1 ed))))
  /\ (forall i, n <= i ->
        EdgeList___getitem__ from_pointer el i = Raise IndexError).
Proof.
  unfold EdgeList._add_parameters. cbv zeta. intros H.
  do 2 bind_inv H. inversion H; subst el; clear H.
  unfold EdgeList.__len__, EdgeList___getitem__.
  cbn [EdgeList.n_edges EdgeList.edges].
  intros Hn.
  match goal with
  | X : int_at toks 1 = Ok ?n |- _ =>
      pose proof (@int_at_Ok_bound _ _ _ X) as B1; set (N := n) in *
  end.
  match goal with
  | X : mapM _ (range 0 N) = Ok ?ps |- _ =>
      pose proof (mapM_length _ _ X) as L; rename X into HP
  end.
  rewrite len_range in L.
  assert (Item : forall i, 0 <= i < N ->
            exists ed,
              getitem a0 i = Ok ed
              /\ int_at toks (2 + 5 * i) = Ok (EdgeList.curve1 ed)
              /\ int_at toks (3 + 5 * i) = Ok (EdgeList.svl ed)
              /\ int_at toks (4 + 5 * i) = Ok (EdgeList.s ed)
              /\ int_at toks (5 + 5 * i) = Ok (EdgeList.evl ed)
              /\ int_at toks (6 + 5 * i) = Ok (EdgeList.e ed)).
  { intros i Hi. destruct (@mapM_range_item _ _ _ _ i HP Hi) as [ed [Hr Hg]].
    unfold EdgeList.read_edge in Hr. do 5 bind_inv Hr.
    inversion Hr; subst. exists (EdgeList.mk_edge a1 a2 a3 a4 a5).
    cbn. repeat split; assumption. }
  split; [lia|]. split; [|split].
  - destruct (Z.eq_dec N 0) as [E|E]; [lia|].
    destruct (Item (N - 1)) as [ed [_ [_ [_ [_ [_ He]]]]]]; [lia|].
    pose proof (@int_at_Ok_bound _ _ _ He). lia.
  - intros i Hi. destruct (Item i Hi) as [ed [Hg R]].
    exists ed. rewrite Hg. cbn [bind]. tauto.
  - intros i Hi. rewrite getitem_past_end by lia. reflexivity.
Qed.

End EdgeListAccess.

Lemma EdgeList_decoded_witness :
  exists el,
    EdgeList._add_parameters
      ["504"; "2"; "11"; "3"; "1"; "3"; "2"; "13"; "3"; "2"; "3"; "1"] = Ok el
    /\ EdgeList.__len__ el = 2
    /\ EdgeList___getitem__ sample_from_pointer el 2 = Raise IndexError.
Proof.
  eexists. split; [vm_compute; reflexivity|].
  match goal with
  | |- EdgeList.__len__ ?el = _ /\ _ =>
      destruct (@EdgeList_decoded Z sample_from_pointer
                  ["504"; "2"; "11"; "3"; "1"; "3"; "2"; "13"; "3"; "2"; "3";
                   "1"] el)
        as [L [_ [_ O]]]; [vm_compute; reflexivity | vm_compute; discriminate |]
  end.
  split; [exact L | apply O; vm_compute; discriminate].
Defined.

(** ** Loop *)

Lemma getitem_at_eq {A} (l pre suf : list A) i k x :
  l = pre ++ suf -> i = len pre + k -> 0 <= k ->
  nth_error suf (Z.to_nat k) = Some x -> getitem l i = Ok x.
Proof. intros ->. apply getitem_at. Qed.

Lemma Loop_read_curves toks c cs :
  forall cvs pre post j,
    Forall2 curve_reads cs cvs ->
    toks = pre ++ flat_map curve_tokens cs ++ post ->
    len pre = 7 + c + j * 2 ->
    mapM (Loop.read_curve toks c) (range j (j + len cs)) = Ok cvs.
Proof.
  induction cs as [|[t1 t2] cs IH]; intros cvs pre post j F E L;
    inversion F as [|x cv xs cvs' Hr F' Ex Ecv]; subst cvs.
  - rewrite range_nil; [reflexivity | len_simpl; lia].
  - pose proof (len_nonneg cs). pose proof (len_nonneg pre).
    rewrite range_cons by (len_simpl; lia). cbn [mapM].
    destruct Hr as [Hiso Hpsc]. simpl in Hiso, Hpsc.
    unfold Loop.read_curve at 1. unfold int_at.
    cbn [flat_map curve_tokens fst snd app] in E.
    rewrite (@getitem_at_eq _ toks pre _ (7 + c + j * 2) 0 t1 E)
      by (try reflexivity; lia).
    cbn [bind].
    rewrite (@getitem_at_eq _ toks pre _ (8 + c + j * 2) 1 t2 E)
      by (try reflexivity; lia).
    cbn [bind]. rewrite Hpsc. cbn [bind].
    replace (j + len ((t1, t2) :: cs)) with (j + 1 + len cs)
      by (len_simpl; lia).
    rewrite (IH cvs' (pre ++ [t1; t2]) post (j + 1) F');
      [ destruct cv as [i p]; simpl in *; subst; reflexivity
      | rewrite E; now rewrite <- app_assoc
      | len_simpl; lia ].
Qed.

Lemma len_flat_map_curves (cs : list (string * string)) :
  len (flat_map curve_tokens cs) = 2 * len cs.
Proof.
  induction cs as [|c cs IH]; [reflexivity|].
  change (flat_map curve_tokens (c :: cs))
    with ([fst c; snd c] ++ flat_map curve_tokens cs).
  rewrite len_app, !len_cons, len_nil, IH. lia.
Qed.

Lemma len_group_tokens g : len (group_tokens g) = 5 + 2 * len (g_curves g).
Proof.
  unfold group_tokens. len_simpl. rewrite len_flat_map_curves. lia.
Qed.

Lemma Loop_read_groups toks groups :
  forall edges l acc c pre post,
    Forall2 group_reads groups edges ->
    List.length l = List.length groups ->
    toks = pre ++ flat_map group_tokens groups ++ post ->
    len pre = 2 + c ->
    foldM (Loop.loop_body toks) l (acc, c)
    = Ok (acc ++ edges, c + len (flat_map group_tokens groups)).
Proof.
  induction groups as [|g groups IH]; intros edges l acc c pre post F Hl E L;
    inversion F as [|x e xs edges' Hr F' Ex Ee]; subst edges.
  - destruct l; [|discriminate]. simpl. rewrite app_nil_r.
    f_equal. f_equal. change (len (@nil string)) with 0. lia.
  - destruct l as [|i l]; [discriminate|]. simpl in Hl.
    destruct Hr as [Ht [He1 [Hi1 [Hf [Hk [Hkl Hcs]]]]]].
    destruct g as [gt ge gi gf gk gcs].
    simpl in Ht, He1, Hi1, Hf, Hk, Hkl, Hcs.
    pose proof (len_nonneg pre) as P0.
    cbn [foldM]. unfold Loop.loop_body at 1. unfold int_at.
    cbn [flat_map group_tokens g_type g_e1 g_index1 g_flag1 g_k1 g_curves]
      in E.
    assert (ET : toks = pre ++ gt :: ge :: gi :: gf :: gk
                          :: (flat_map curve_tokens gcs
                                ++ flat_map group_tokens groups ++ post)).
    { rewrite E. cbn [app]. now rewrite <- app_assoc. }
    rewrite (@getitem_at_eq _ toks pre _ (2 + c) 0 gt ET)
      by (try reflexivity; lia).
    cbn [bind]. rewrite Ht. cbn [bind].
    rewrite (@getitem_at_eq _ toks pre _ (3 + c) 1 ge ET)
      by (try reflexivity; lia).
    cbn [bind]. rewrite He1. cbn [bind].
    rewrite (@getitem_at_eq _ toks pre _ (4 + c) 2 gi ET)
      by (try reflexivity; lia).
    cbn [bind]. rewrite Hi1. cbn [bind].
    rewrite (@getitem_at_eq _ toks pre _ (5 + c) 3 gf ET)
      by (try reflexivity; lia).
    cbn [bind].
    rewrite (@getitem_at_eq _ toks pre _ (6 + c) 4 gk ET)
      by (try reflexivity; lia).
    cbn [bind]. rewrite Hk. cbn [bind].
    replace (range 0 (Loop.k1 e)) with (range 0 (0 + len gcs))
      by (f_equal; lia).
    rewrite (@Loop_read_curves toks c gcs (Loop.curves e)
               (pre ++ [gt; ge; gi; gf; gk])
               (flat_map group_tokens groups ++ post) 0 Hcs);
      [ | rewrite ET; now rewrite <- app_assoc | len_simpl; lia ].
    cbn [bind].
    rewrite (IH edges' l _ (c + (5 + 2 * Loop.k1 e))
               (pre ++ gt :: ge :: gi :: gf :: gk :: flat_map curve_tokens gcs)
               post F');
      [ | lia
        | rewrite ET, <- app_assoc; reflexivity
        | len_simpl; rewrite len_flat_map_curves; lia ].
    f_equal. f_equal.
    + rewrite <- app_assoc. cbn [app]. do 2 f_equal.
      destruct e as [et ee ei ef ek ecs]. simpl in *. subst. reflexivity.
    + cbn [flat_map]. rewrite len_app, len_group_tokens.
      cbn [g_curves]. lia.
Qed.

(** X15. A Loop record made of its edges one after the other decodes to
    those edges: every edge is read from its own tokens, the next one
    starting right after the last parameter-space curve of the one
    before, whatever the numbers of curves are.  The orientation and
    isoparametric flags are False only for an empty token. *)
Theorem Loop_decodes_layout
    (ty n : string) (groups : list loop_group) (rest : list string)
    (edges : list Loop.edge) :
  py_int n = Ok (len groups) ->
  Forall2 group_reads groups edges ->
  Loop._add_parameters (loop_layout ty n groups rest)
  = Ok (Loop.mk (loop_layout ty n groups rest) (len groups) edges).
Proof.
  intros Hn F. unfold Loop._add_parameters.
  rewrite (@int_at_eq (loop_layout ty n groups rest) 1 n)
    by (try reflexivity; lia).
  rewrite Hn. cbn [bind].
  rewrite (@Loop_read_groups (loop_layout ty n groups rest) groups edges
             (range 0 (len groups)) [] 0 [ty; n] rest F);
    [reflexivity | | reflexivity | reflexivity].
  unfold range, len. rewrite length_map, length_seq. lia.
Qed.

Lemma Loop_decodes_layout_witness :
  Loop._add_parameters
    (loop_layout "508" "2"
       [mk_group "0" "21" "1" "1" "2" [("1", "31"); ("", "33")];
        mk_group "1" "23" "2" "" "0" []]
       ["0"])
  = Ok (Loop.mk
          (loop_layout "508" "2"
             [mk_group "0" "21" "1" "1" "2" [("1", "31"); ("", "33")];
              mk_group "1" "23" "2" "" "0" []]
             ["0"])
          2
          [Loop.mk_edge 0 21 1 true 2
             [Loop.mk_curve true 31; Loop.mk_curve false 33];
           Loop.mk_edge 1 23 2 false 0 []]).
Proof.
  apply (@Loop_decodes_layout "508" "2"
           [mk_group "0" "21" "1" "1" "2" [("1", "31"); ("", "33")];
            mk_group "1" "23" "2" "" "0" []]
           ["0"]).
  - reflexivity.
  - repeat constructor.
Defined.

(** ** RationalBSplineSurface and RationalBSplineCurve, whatever the record *)

Lemma mapM_parse_float_bad toks tok e :
  In tok toks -> parse_float tok = Raise e ->
  mapM parse_float toks = Raise ValueError.
Proof.
  induction toks as [|t toks IH]; simpl; [tauto|].
  intros [->|Hin] He.
  - rewrite He. simpl. f_equal. eapply ro_parse_float_value. exact He.
  - destruct (parse_float t) as [v|e'] eqn:E; simpl.
    + rewrite (IH Hin He). reflexivity.
    + f_equal. eapply ro_parse_float_value. exact E.
Qed.

(** X16. The surface decoder converts every token of the record to a
    number before it reads anything: one token that is not a number,
    wherever it stands, even after the last value the decoder uses, makes
    the whole record fail with ValueError. *)
Theorem Surface_rejects_any_bad_token
    (toks : list string) (tok : string) (e : exn) :
  In tok toks ->
  parse_float tok = Raise e ->
  RationalBSplineSurface._add_parameters toks = Raise ValueError.
Proof.
  intros Hin He. unfold RationalBSplineSurface._add_parameters.
  now rewrite (mapM_parse_float_bad _ _ Hin He).
Qed.

Lemma Surface_rejects_any_bad_token_witness :
  RationalBSplineSurface._add_parameters (surface_record ++ ["0"; "NAME"])
  = Raise ValueError
  /\ is_some
       (match RationalBSplineSurface._add_parameters
                (surface_record ++ ["0"; "7"]) with
        | Ok s => Some s
        | Raise _ => None
        end) = true.
Proof.
  split; [|vm_compute; reflexivity].
  apply (@Surface_rejects_any_bad_token _ "NAME" ValueError).
  - vm_compute. tauto.
  - reflexivity.
Defined.

Lemma Ok_inj {A} (x y : A) : Ok x = Ok y -> x = y.
Proof. intros H. now inversion H. Qed.

Lemma div3_exact k : (3 * k + 1 + 2) / 3 = k + 1.
Proof.
  replace (3 * k + 1 + 2) with ((k + 1) * 3) by lia. apply Z.div_mul. lia.
Qed.

(** X17. Every decoded RationalBSplineCurve with K >= 0 and M >= 0 has
    K + M + 2 knots, K weights and K + 1 control points, and its record
    has at least 14 + A + 4K tokens; [planar_curve] is True exactly when
    the record has at least 17 + A + 4K tokens, and a record with exactly
    16 + A + 4K tokens never decodes.  After [to_geomdl] there are as many
    weights as control points, and the knots are one more than control
    points plus degree. *)
Theorem curve_decoded_counts
    (toks : list string) (c : RationalBSplineCurve.t) :
  RationalBSplineCurve._add_parameters toks = Ok c ->
  0 <= RationalBSplineCurve.K c ->
  0 <= RationalBSplineCurve.M c ->
  let K := RationalBSplineCurve.K c in
  let M := RationalBSplineCurve.M c in
  let A := RationalBSplineCurve.A c in
  let g := RationalBSplineCurve.to_geomdl c in
  A = K + M + 1
  /\ len (RationalBSplineCurve.T c) = K + M + 2
  /\ len (RationalBSplineCurve.W c) = K
  /\ len (RationalBSplineCurve.control_points c) = K + 1
  /\ 14 + A + 4 * K <= len toks
  /\ len toks <> 16 + A + 4 * K
  /\ (RationalBSplineCurve.planar_curve c = true
      <-> 17 + A + 4 * K <= len toks)
  /\ len (RationalBSplineCurve.parameter_pointers c) = len toks
  /\ len (RationalBSplineCurve.weights g)
     = len (RationalBSplineCurve.ctrlpts g)
  /\ len (RationalBSplineCurve.knotvector g)
     = len (RationalBSplineCurve.ctrlpts g)
       + RationalBSplineCurve.degree g + 1.
Proof.
  unfold RationalBSplineCurve._add_parameters. cbv zeta. intros H.
  do 11 bind_inv H.
  match goal with
  | X : mapM _ (range 7 _) = Ok _ |- _ =>
      pose proof (mapM_length _ _ X) as LT; rewrite len_range in LT
  end.
  match goal with
  | X : mapM _ (range (_ + 8) _) = Ok _ |- _ =>
      pose proof (mapM_length _ _ X) as LW; rewrite len_range in LW
  end.
  match goal with
  | X : mapM _ (range_step _ _ 3) = Ok _ |- _ =>
      pose proof (mapM_length _ _ X) as LC
  end.
  match goal with
  | X : float_at toks (13 + _ + _) = Ok _ |- _ =>
      pose proof (@float_at_Ok_bound _ _ _ X) as BV
  end.
  pose proof (len_nonneg toks) as Lt.
  destruct (len toks >? _) eqn:G in H.
  - do 3 bind_inv H. apply Ok_inj in H; subst c.
    match goal with
    | X : float_at toks (16 + _ + _) = Ok _ |- _ =>
        pose proof (@float_at_Ok_bound _ _ _ X) as BZ
    end.
    cbv beta iota zeta delta
      [RationalBSplineCurve.to_geomdl
         RationalBSplineCurve.K RationalBSplineCurve.M RationalBSplineCurve.A
         RationalBSplineCurve.T RationalBSplineCurve.W
         RationalBSplineCurve.control_points
         RationalBSplineCurve.planar_curve
         RationalBSplineCurve.parameter_pointers
         RationalBSplineCurve.weights RationalBSplineCurve.ctrlpts
         RationalBSplineCurve.knotvector RationalBSplineCurve.degree].
    intros HK HM.
    rewrite len_range_step3 in LC by lia.
    replace (9 + (1 + a - a0 + 2 * a0) + 4 * a + 1
             - (9 + (1 + a - a0 + 2 * a0) + a) + 2)
      with (3 * a + 1 + 2) in LC by lia.
    rewrite div3_exact in LC.
    rewrite len_app, len_repeat by lia.
    change (len [fl 1]) with 1.
    repeat match goal with |- _ /\ _ => split end; try lia.
  - apply Ok_inj in H; subst c.
    cbv beta iota zeta delta
      [RationalBSplineCurve.to_geomdl
         RationalBSplineCurve.K RationalBSplineCurve.M RationalBSplineCurve.A
         RationalBSplineCurve.T RationalBSplineCurve.W
         RationalBSplineCurve.control_points
         RationalBSplineCurve.planar_curve
         RationalBSplineCurve.parameter_pointers
         RationalBSplineCurve.weights RationalBSplineCurve.ctrlpts
         RationalBSplineCurve.knotvector RationalBSplineCurve.degree].
    intros HK HM.
    rewrite len_range_step3 in LC by lia.
    replace (9 + (1 + a - a0 + 2 * a0) + 4 * a + 1
             - (9 + (1 + a - a0 + 2 * a0) + a) + 2)
      with (3 * a + 1 + 2) in LC by lia.
    rewrite div3_exact in LC.
    rewrite len_app, len_repeat by lia.
    change (len [fl 1]) with 1.
    rewrite Z.gtb_ltb in G. apply Z.ltb_ge in G.
    repeat match goal with |- _ /\ _ => split end; try lia.
Qed.

Lemma curve_decoded_counts_witness :
  exists c,
    RationalBSplineCurve._add_parameters curve_record = Ok c
    /\ len (RationalBSplineCurve.T c) = 8
    /\ len (RationalBSplineCurve.W c) = 3
    /\ len (RationalBSplineCurve.control_points c) = 4
    /\ len (RationalBSplineCurve.weights (RationalBSplineCurve.to_geomdl c))
       = 4.
Proof.
  eexists. split; [vm_compute; reflexivity|].
  match goal with
  | |- len (RationalBSplineCurve.T ?c) = _ /\ _ =>
      destruct (@curve_decoded_counts curve_record c)
        as [_ [LT [LW [LC [_ [_ [_ [_ [LG _]]]]]]]]];
        [vm_compute; reflexivity | vm_compute; discriminate
         | vm_compute; discriminate |]
  end.
  split; [exact LT|]. split; [exact LW|]. split; [exact LC|].
  rewrite LG. exact LC.
Defined.

(** X18. The surface decoder takes its arrays with slices, which never
    fail, yet a decoded surface with non-negative upper indices and degrees
    is never cut short: the record holds every value (at least
    18 + K1 + K2 + M1 + M2 + 4 (K1 + 1)(K2 + 1) tokens), the knot vectors
    have K1 + M1 + 2 and K2 + M2 + 2 elements, and there are
    (K1 + 1)(K2 + 1) weights and as many control points. *)
Theorem surface_decoded_counts
    (toks : list string) (s : RationalBSplineSurface.t) :
  RationalBSplineSurface._add_parameters toks = Ok s ->
  0 <= RationalBSplineSurface._k1 s ->
  0 <= RationalBSplineSurface._k2 s ->
  0 <= RationalBSplineSurface._m1 s ->
  0 <= RationalBSplineSurface._m2 s ->
  let K1 := RationalBSplineSurface._k1 s in
  let K2 := RationalBSplineSurface._k2 s in
  let M1 := RationalBSplineSurface._m1 s in
  let M2 := RationalBSplineSurface._m2 s in
  18 + K1 + K2 + M1 + M2 + 4 * ((K1 + 1) * (K2 + 1)) <= len toks
  /\ len (RationalBSplineSurface._knot1 s) = K1 + M1 + 2
  /\ len (RationalBSplineSurface._knot2 s) = K2 + M2 + 2
  /\ len (RationalBSplineSurface._weights s) = (K1 + 1) * (K2 + 1)
  /\ len (RationalBSplineSurface._cp s) = (K1 + 1) * (K2 + 1)
  /\ len (RationalBSplineSurface.parameter_pointers s) = len toks.
Proof.
  unfold RationalBSplineSurface._add_parameters. cbv zeta. intros H.
  do 15 bind_inv H. apply Ok_inj in H; subst s.
  cbv beta iota zeta delta
    [RationalBSplineSurface._k1 RationalBSplineSurface._k2
       RationalBSplineSurface._m1 RationalBSplineSurface._m2
       RationalBSplineSurface._knot1 RationalBSplineSurface._knot2
       RationalBSplineSurface._weights RationalBSplineSurface._cp
       RationalBSplineSurface.parameter_pointers].
  intros P1 P2 P3 P4.
  match goal with
  | X : mapM parse_float toks = Ok ?vals |- _ =>
      pose proof (mapM_length _ _ X) as LV
  end.
  match goal with
  | X : getitem _ (_ + 3) = Ok _ |- _ =>
      pose proof (@getitem_Ok_bound _ _ _ _ X) as B
  end.
  match goal with
  | X : reshape3 _ = Ok _ |- _ => pose proof (reshape3_length _ X) as LR
  end.
  assert (Q : 0 <= (1 + a1) * (1 + a0)) by nia.
  rewrite len_slice in LR by nia.
  rewrite !len_slice by nia.
  rewrite len_repeat by lia.
  repeat match goal with |- _ /\ _ => split end; nia.
Qed.

Lemma surface_decoded_counts_witness :
  exists s,
    RationalBSplineSurface._add_parameters surface_record = Ok s
    /\ len (RationalBSplineSurface._knot1 s) = 4
    /\ len (RationalBSplineSurface._cp s) = 4
    /\ 38 <= len surface_record.
Proof.
  eexists. split; [vm_compute; reflexivity|].
  match goal with
  | |- len (RationalBSplineSurface._knot1 ?s) = _ /\ _ =>
      destruct (@surface_decoded_counts surface_record s)
        as [LL [L1 [_ [_ [LC _]]]]];
        [vm_compute; reflexivity | vm_compute; discriminate
         | vm_compute; discriminate | vm_compute; discriminate
         | vm_compute; discriminate |]
  end.
  split; [exact L1|]. split; [exact LC | exact LL].
Defined.

(** ** Line *)

Lemma mapM_cons_inv {A B} (f : A -> result B) a l ys :
  mapM f (a :: l) = Ok ys ->
  exists y ys', ys = y :: ys' /\ f a = Ok y /\ mapM f l = Ok ys'.
Proof.
  simpl. intros H. do 2 bind_inv H. apply Ok_inj in H. eauto.
Qed.

(** X19. A Line record decodes exactly when it has at least seven tokens
    and tokens 1 to 6 are numbers (legacy exponents included); the end
    points are then made of tokens 1-3 and 4-6, whatever token 0 and the
    tokens from position 7 on are. *)
Theorem Line_decodes_iff (toks : list string) (l : Line.t) :
  Line._add_parameters toks = Ok l
  <-> exists t0 t1 t2 t3 t4 t5 t6 rest,
        toks = t0 :: t1 :: t2 :: t3 :: t4 :: t5 :: t6 :: rest
        /\ mapM parse_float [t1; t2; t3; t4; t5; t6]
           = Ok [Line._x1 l; Line._y1 l; Line._z1 l;
                 Line._x2 l; Line._y2 l; Line._z2 l]
        /\ Line.parameters l = toks
        /\ Line.parameter_pointers l = replicate false (len toks).
Proof.
  split.
  - intros H. pose proof (Line_Ok_length _ H) as L7. revert H.
    destruct toks as [|t0 [|t1 [|t2 [|t3 [|t4 [|t5 [|t6 rest]]]]]]];
      try (exfalso; vm_compute in L7; now apply L7).
    unfold Line._add_parameters. cbv zeta.
    rewrite (@float_at_eq _ 1 t1), (@float_at_eq _ 2 t2),
      (@float_at_eq _ 3 t3), (@float_at_eq _ 4 t4),
      (@float_at_eq _ 5 t5), (@float_at_eq _ 6 t6)
      by (try reflexivity; lia).
    intros H. do 6 bind_inv H. apply Ok_inj in H; subst l.
    exists t0, t1, t2, t3, t4, t5, t6, rest.
    cbn [Line._x1 Line._y1 Line._z1 Line._x2 Line._y2 Line._z2
         Line.parameters Line.parameter_pointers mapM].
    repeat match goal with
           | X : parse_float _ = Ok _ |- _ => rewrite X; clear X
           end.
    repeat split.
  - intros [t0 [t1 [t2 [t3 [t4 [t5 [t6 [rest [E [Hm [Hp Hpp]]]]]]]]]]].
    subst toks. unfold Line._add_parameters. cbv zeta.
    rewrite (@float_at_eq _ 1 t1), (@float_at_eq _ 2 t2),
      (@float_at_eq _ 3 t3), (@float_at_eq _ 4 t4),
      (@float_at_eq _ 5 t5), (@float_at_eq _ 6 t6)
      by (try reflexivity; lia).
    destruct l as [p pp x1 y1 z1 x2 y2 z2].
    cbn [Line._x1 Line._y1 Line._z1 Line._x2 Line._y2 Line._z2
         Line.parameters Line.parameter_pointers] in *.
    repeat match goal with
           | X : mapM parse_float (_ :: _) = Ok _ |- _ =>
               let y := fresh "y" in
               let ys := fresh "ys" in
               let E := fresh "E" in
               let F := fresh "F" in
               apply mapM_cons_inv in X;
               destruct X as [y [ys [E [F X]]]];
               injection E as <- <-; rewrite F; clear F
           end.
    cbn [bind]. subst. reflexivity.
Qed.

(** ** Counts that are zero or negative *)

(** X20. [range] of a count that is zero or negative is empty: a record
    that announces such a count decodes to an entity with no curves, no
    vertices, no edges, even when nothing follows the count. *)
Theorem nonpositive_count_decodes_empty
    (ty n : string) (rest : list string) (N : Z) :
  py_int n = Ok N ->
  N <= 0 ->
  let toks := ty :: n :: rest in
  Composite_Curve._add_parameters toks
  = Ok (Composite_Curve.mk toks [false; false] N [])
  /\ VertexList._add_parameters toks
     = Ok (VertexList.mk toks (replicate false (len toks)) N [])
  /\ EdgeList._add_parameters toks = Ok (EdgeList.mk toks N [])
  /\ Loop._add_parameters toks = Ok (Loop.mk toks N []).
Proof.
  intros Hn HN toks.
  unfold Composite_Curve._add_parameters, VertexList._add_parameters,
    EdgeList._add_parameters, Loop._add_parameters.
  cbv zeta.
  rewrite (@int_at_eq toks 1 n) by (try reflexivity; lia).
  rewrite Hn. cbn [bind]. rewrite range_nil by lia.
  repeat split.
Qed.

Lemma nonpositive_count_decodes_empty_witness :
  Composite_Curve._add_parameters ["102"; "-1"]
  = Ok (Composite_Curve.mk ["102"; "-1"] [false; false] (-1) [])
  /\ VertexList._add_parameters ["102"; "-1"]
     = Ok (VertexList.mk ["102"; "-1"] (replicate false 2) (-1) [])
  /\ EdgeList._add_parameters ["102"; "-1"]
     = Ok (EdgeList.mk ["102"; "-1"] (-1) [])
  /\ Loop._add_parameters ["102"; "-1"] = Ok (Loop.mk ["102"; "-1"] (-1) []).
Proof.
  apply (@nonpositive_count_decodes_empty "102" "-1" [] (-1));
    [reflexivity | lia].
Defined.

(** * Short records, for every decoder that reads by index *)

Lemma ro_builtin_float_at toks i : raises_only (builtin_float_at toks i).
Proof.
  unfold builtin_float_at.
  apply ro_bind; [apply ro_getitem | intros; apply ro_py_float].
Qed.

Lemma ro_foldM {S A} (f : S -> A -> result S) l :
  (forall s a, raises_only (f s a)) -> forall s, raises_only (foldM f l s).
Proof.
  intros Hf. induction l as [|a l IH]; intros s; simpl; [apply ro_Ok|].
  apply ro_bind; [apply Hf | intros; apply IH].
Qed.

Ltac ro_all :=
  repeat first
    [ apply ro_builtin_float_at
    | apply ro_py_int
    | apply ro_foldM; intros [? ?] ?; cbv beta iota zeta
    | ro_step ].

Lemma ro_decode k toks : raises_only (decode k toks).
Proof.
  destruct k; simpl; (apply ro_bind; [|intros; apply ro_Ok]);
    try apply ro_Line; try apply ro_Curve; try apply ro_Surface.
  - unfold Point._add_parameters. cbv zeta. ro_all.
  - unfold CircularArc._add_parameters. cbv zeta. ro_all.
  - unfold Transformation._add_parameters. cbv zeta. ro_all.
  - unfold ConicArc._add_parameters. cbv zeta. ro_all.
  - unfold Surface_of_Revolution._add_parameters. cbv zeta. ro_all.
  - unfold Tabulated_Cylinder._add_parameters. cbv zeta. ro_all.
  - unfold Composite_Curve._add_parameters, Composite_Curve.loop_body.
    cbv zeta. ro_all.
  - unfold Curve_On_A_Parametric_Surface._add_parameters. cbv zeta. ro_all.
  - unfold Trimmed_Surface._add_parameters, Trimmed_Surface.loop_body.
    cbv zeta. ro_all.
  - unfold Bounded_Surface._add_parameters, Bounded_Surface.loop_body.
    cbv zeta. ro_all.
  - unfold Color._add_parameters. cbv zeta. ro_all.
  - unfold Singular_Subgfigure_Instance._add_parameters. cbv zeta. ro_all.
  - unfold Face._add_parameters. cbv zeta. ro_all.
  - unfold Loop._add_parameters, Loop.loop_body, Loop.read_curve.
    cbv zeta. ro_all.
  - unfold EdgeList._add_parameters, EdgeList.read_edge. cbv zeta. ro_all.
  - unfold VertexList._add_parameters, VertexList.read_point.
    cbv zeta. ro_all.
Qed.

Lemma builtin_float_at_Ok_bound toks i v :
  builtin_float_at toks i = Ok v -> 0 <= i -> i < len toks.
Proof.
  unfold builtin_float_at. intros H Hi. bind_inv H.
  eapply getitem_Ok_bound; eassumption.
Qed.

(** The reads that succeeded bound the length of the list. *)
Ltac ok_bounds :=
  repeat match goal with
         | X : float_at _ _ = Ok _ |- _ =>
             apply float_at_Ok_bound in X; [|lia]
         | X : int_at _ _ = Ok _ |- _ =>
             apply int_at_Ok_bound in X; [|lia]
         | X : builtin_float_at _ _ = Ok _ |- _ =>
             apply builtin_float_at_Ok_bound in X; [|lia]
         | X : getitem _ _ = Ok _ |- _ =>
             apply getitem_Ok_bound in X; [|lia]
         end.

Lemma counted_Ok toks header idx stride N n :
  counted toks header idx stride = Some n ->
  header <= len toks ->
  int_at toks idx = Ok N ->
  (0 < N -> header + stride * N <= len toks) ->
  n <= len toks.
Proof.
  unfold counted. intros R Hh HN Hitems.
  destruct (len toks <? header) eqn:E; [lia|].
  rewrite HN in R. inversion R; subst n.
  destruct (Z.max_spec 0 N) as [[Hlt ->] | [Hge ->]]; [auto | lia].
Qed.

(** The last turn of a loop over [range a b] that ran to its end. *)
Lemma mapM_range_last {B} (g : Z -> result B) a b xs :
  mapM g (range a b) = Ok xs -> a < b -> exists x, g (b - 1) = Ok x.
Proof.
  intros H Hab. apply (@mapM_Ok_In _ _ g (range a b) xs (b - 1) H).
  apply In_range. lia.
Qed.

Lemma Loop_Ok_length toks l :
  forall acc c st n,
    foldM (Loop.loop_body toks) l (acc, c) = Ok st ->
    0 <= c -> 2 + c <= len toks ->
    loop_required toks (List.length l) c = Some n ->
    n <= len toks.
Proof.
  induction l as [|i l IH]; intros acc c st n F Hc Hlen R;
    cbn [foldM loop_required List.length] in F, R.
  - inversion R; subst n. exact Hlen.
  - bind_inv F. unfold Loop.loop_body in Ha. do 6 bind_inv Ha.
    apply Ok_inj in Ha. subst a.
    match goal with
    | X : int_at toks (6 + c) = Ok ?k |- _ =>
        rewrite X in R; pose proof (@int_at_Ok_bound _ _ _ X) as Hk;
        rename k into k1
    end.
    destruct (len toks <? 7 + c) eqn:E; [lia|].
    destruct (0 <=? k1) eqn:Ek; [|discriminate].
    refine (IH _ _ _ _ F _ _ R); [lia|].
    destruct (Z.eq_dec k1 0) as [->|Hk0]; [lia|].
    match goal with
    | X : mapM (Loop.read_curve toks c) (range 0 k1) = Ok _ |- _ =>
        destruct (@mapM_range_last _ _ 0 k1 _ X ltac:(lia)) as [cv Hcv]
    end.
    unfold Loop.read_curve in Hcv. do 2 bind_inv Hcv. ok_bounds. lia.
Qed.

Lemma decode_Ok_length k toks n x :
  decode k toks = Ok x -> required_length k toks = Some n -> n <= len toks.
Proof.
  destruct k; cbn [decode required_length]; intros D R; bind_inv D; clear D.
  - (* Point *)
    inversion R; subst n. unfold Point._add_parameters in Ha.
    cbv zeta in Ha. repeat bind_inv Ha. ok_bounds. lia.
  - (* Line *)
    inversion R; subst n. eapply Line_Ok_length; eassumption.
  - (* CircularArc *)
    inversion R; subst n. unfold CircularArc._add_parameters in Ha.
    cbv zeta in Ha. repeat bind_inv Ha. ok_bounds. lia.
  - (* Transformation *)
    inversion R; subst n. unfold Transformation._add_parameters in Ha.
    cbv zeta in Ha. repeat bind_inv Ha. ok_bounds. lia.
  - (* ConicArc *)
    inversion R; subst n. unfold ConicArc._add_parameters in Ha.
    cbv zeta in Ha. repeat bind_inv Ha. ok_bounds. lia.
  - (* Surface_of_Revolution *)
    inversion R; subst n. unfold Surface_of_Revolution._add_parameters in Ha.
    cbv zeta in Ha. repeat bind_inv Ha. ok_bounds. lia.
  - (* Tabulated_Cylinder *)
    inversion R; subst n. unfold Tabulated_Cylinder._add_parameters in Ha.
    cbv zeta in Ha. repeat bind_inv Ha. ok_bounds. lia.
  - (* RationalBSplineCurve *)
    pose proof (Curve_Ok_header _ Ha) as Hh.
    destruct (len toks <? 7) eqn:E; [lia|].
    destruct (int_at toks 1) as [K|] eqn:EK; [|discriminate].
    destruct (int_at toks 2) as [M|] eqn:EM; [|discriminate].
    destruct ((0 <=? K) && (0 <=? M)) eqn:Epos; [|discriminate].
    apply andb_true_iff in Epos. destruct Epos as [PK PM].
    inversion R; subst n.
    apply (Curve_Ok_length _ Ha EK EM); lia.
  - (* RationalBSplineSurface *)
    pose proof (Surface_Ok_header _ Ha) as Hh.
    destruct (len toks <? 10) eqn:E; [lia|].
    destruct (mapM parse_float toks) as [vals|] eqn:Ev; [|discriminate].
    destruct (RationalBSplineSurface.int_item vals 1) as [k1|] eqn:E1;
      [|discriminate].
    destruct (RationalBSplineSurface.int_item vals 2) as [k2|] eqn:E2;
      [|discriminate].
    destruct (RationalBSplineSurface.int_item vals 3) as [m1|] eqn:E3;
      [|discriminate].
    destruct (RationalBSplineSurface.int_item vals 4) as [m2|] eqn:E4;
      [|discriminate].
    destruct ((0 <=? k1) && (0 <=? k2) && (0 <=? m1) && (0 <=? m2)) eqn:Epos;
      [|discriminate].
    repeat (apply andb_true_iff in Epos; destruct Epos as [Epos ?]).
    inversion R; subst n.
    apply (Surface_Ok_length _ Ha Ev E1 E2 E3 E4); lia.
  - (* Composite_Curve *)
    unfold Composite_Curve._add_parameters in Ha. cbv zeta in Ha.
    bind_inv Ha. rewrite Composite_Curve_loop in Ha. bind_inv Ha.
    match goal with
    | X : bind (mapM _ _) _ = Ok _ |- _ => bind_inv X; clear X
    end.
    match goal with
    | X : int_at toks 1 = Ok ?N |- _ =>
        apply (@counted_Ok toks 2 1 1 N n R);
          [pose proof (@int_at_Ok_bound _ _ _ X); lia | exact X |]
    end.
    intros Hpos.
    match goal with
    | X : mapM _ (range 0 _) = Ok _ |- _ =>
        destruct (@mapM_range_last _ _ _ _ _ X ltac:(lia)) as [v Hv]
    end.
    cbv beta in Hv. ok_bounds. lia.
  - (* Curve_On_A_Parametric_Surface *)
    inversion R; subst n.
    unfold Curve_On_A_Parametric_Surface._add_parameters in Ha.
    cbv zeta in Ha. repeat bind_inv Ha. ok_bounds. lia.
  - (* Trimmed_Surface *)
    unfold Trimmed_Surface._add_parameters in Ha. cbv zeta in Ha.
    do 4 bind_inv Ha. rewrite Trimmed_Surface_loop in Ha. bind_inv Ha.
    match goal with
    | X : bind (mapM _ _) _ = Ok _ |- _ => bind_inv X; clear X
    end.
    match goal with
    | X : int_at toks 3 = Ok ?N, Y : int_at toks 4 = Ok _ |- _ =>
        apply (@counted_Ok toks 5 3 1 N n R);
          [pose proof (@int_at_Ok_bound _ _ _ Y); lia | exact X |]
    end.
    intros Hpos.
    match goal with
    | X : mapM _ (range 0 _) = Ok _ |- _ =>
        destruct (@mapM_range_last _ _ _ _ _ X ltac:(lia)) as [v Hv]
    end.
    cbv beta in Hv. bind_inv Hv. ok_bounds. lia.
  - (* Bounded_Surface *)
    unfold Bounded_Surface._add_parameters in Ha. cbv zeta in Ha.
    do 3 bind_inv Ha. rewrite Bounded_Surface_loop in Ha. bind_inv Ha.
    match goal with
    | X : bind (mapM _ _) _ = Ok _ |- _ => bind_inv X; clear X
    end.
    match goal with
    | X : int_at toks 3 = Ok ?N |- _ =>
        apply (@counted_Ok toks 4 3 1 N n R);
          [pose proof (@int_at_Ok_bound _ _ _ X); lia | exact X |]
    end.
    intros Hpos.
    match goal with
    | X : mapM _ (range 4 _) = Ok _ |- _ =>
        destruct (@mapM_range_last _ _ _ _ _ X ltac:(lia)) as [v Hv]
    end.
    ok_bounds. lia.
  - (* Color *)
    inversion R; subst n. unfold Color._add_parameters in Ha.
    cbv zeta in Ha. repeat bind_inv Ha. ok_bounds. lia.
  - (* Singular_Subgfigure_Instance *)
    inversion R; subst n.
    unfold Singular_Subgfigure_Instance._add_parameters in Ha.
    cbv zeta in Ha. repeat bind_inv Ha. ok_bounds. lia.
  - (* Face *)
    unfold Face._add_parameters in Ha. cbv zeta in Ha. do 4 bind_inv Ha.
    match goal with
    | X : int_at toks 2 = Ok ?N, Y : getitem toks 3 = Ok _ |- _ =>
        apply (@counted_Ok toks 4 2 1 N n R);
          [pose proof (@getitem_Ok_bound _ _ _ _ Y); lia | exact X |]
    end.
    intros Hpos.
    match goal with
    | X : mapM _ (range 0 _) = Ok _ |- _ =>
        destruct (@mapM_range_last _ _ _ _ _ X ltac:(lia)) as [v Hv]
    end.
    cbv beta in Hv. ok_bounds. lia.
  - (* Loop *)
    unfold Loop._add_parameters in Ha. do 2 bind_inv Ha.
    match goal with
    | X : int_at toks 1 = Ok ?N |- _ =>
        rewrite X in R; pose proof (@int_at_Ok_bound _ _ _ X) as H1
    end.
    destruct (len toks <? 2) eqn:E; [lia|].
    match goal with
    | X : foldM _ (range 0 ?N) ([], 0) = Ok _ |- _ =>
        refine (@Loop_Ok_length toks (range 0 N) [] 0 _ n X _ _ _);
          [lia | lia |]
    end.
    unfold range. rewrite length_map, length_seq, Z.sub_0_r. exact R.
  - (* EdgeList *)
    unfold EdgeList._add_parameters in Ha. do 2 bind_inv Ha.
    match goal with
    | X : int_at toks 1 = Ok ?N |- _ =>
        apply (@counted_Ok toks 2 1 5 N n R);
          [pose proof (@int_at_Ok_bound _ _ _ X); lia | exact X |]
    end.
    intros Hpos.
    match goal with
    | X : mapM _ (range 0 _) = Ok _ |- _ =>
        destruct (@mapM_range_last _ _ _ _ _ X ltac:(lia)) as [v Hv]
    end.
    unfold EdgeList.read_edge in Hv. repeat bind_inv Hv. ok_bounds. lia.
  - (* VertexList *)
    unfold VertexList._add_parameters in Ha. cbv zeta in Ha.
    do 2 bind_inv Ha.
    match goal with
    | X : int_at toks 1 = Ok ?N |- _ =>
        apply (@counted_Ok toks 2 1 3 N n R);
          [pose proof (@int_at_Ok_bound _ _ _ X); lia | exact X |]
    end.
    intros Hpos.
    match goal with
    | X : mapM _ (range 0 _) = Ok _ |- _ =>
        destruct (@mapM_range_last _ _ _ _ _ X ltac:(lia)) as [v Hv]
    end.
    unfold VertexList.read_point in Hv. repeat bind_inv Hv. ok_bounds. lia.
Qed.

(** C2 (as stated): the K = 3, M = 3 curve record with its last token
    missing is not rejected with a ParameterCountError carrying counts (it
    raises IndexError), and the two decoders that slice truncate silently:
    a Subfigure record that announces three entities and holds one decodes,
    to one pointer, and a Boundary record whose curve announces three
    parameter-space curves and holds one decodes, to a list of one. *)
Lemma short_record_no_ParameterCountError :
  (~ exists declared available,
       decode KCurve curve_record_short
       = Raise (ParameterCountError declared available))
  /\ decode KCurve curve_record_short = Raise IndexError
  /\ (exists s,
        Subfigure._add_parameters subfigure_record_short = Ok s
        /\ Subfigure.Number_of_entities s = 3
        /\ Subfigure.pointers s = [7])
  /\ (exists b,
        Boundary._add_parameters boundary_record_short = Ok b
        /\ Boundary.space_curves b = [VInt 21]
        /\ Boundary.model_curves b = [[VInt 31]]).
Proof.
  assert (D : decode KCurve curve_record_short = Raise IndexError)
    by (vm_compute; reflexivity).
  split; [|split; [|split]].
  - intros [d [a H]]. rewrite D in H. discriminate.
  - exact D.
  - eexists. split; [vm_compute; reflexivity|]. split; reflexivity.
  - eexists. split; [vm_compute; reflexivity|]. split; reflexivity.
Qed.

(** C2 (amended). A record shorter than the length its decoder needs is
    never decoded, for every decoder that reads its tokens by index: Point,
    Line, CircularArc, Transformation, ConicArc, Surface_of_Revolution,
    Tabulated_Cylinder, RationalBSplineCurve, RationalBSplineSurface,
    Composite_Curve, Curve_On_A_Parametric_Surface, Trimmed_Surface,
    Bounded_Surface, Color, Singular_Subgfigure_Instance, Face, Loop,
    EdgeList and VertexList.  The decoder raises IndexError, ValueError or
    OverflowError, which carry no counts, and never a
    ParameterCountError. *)
Theorem short_record_raises (k : kind) (toks : list string) (n : Z) :
  required_length k toks = Some n ->
  len toks < n ->
  exists e,
    decode k toks = Raise e
    /\ decoding_error e = true
    /\ forall declared available, e <> ParameterCountError declared available.
Proof.
  intros R Hshort.
  destruct (decode k toks) as [x|e] eqn:D.
  - pose proof (decode_Ok_length _ _ D R). lia.
  - exists e. pose proof (ro_decode k toks D) as He.
    split; [reflexivity|]. split; [exact He|].
    intros d a ->. discriminate.
Qed.

Lemma short_record_raises_witness :
  exists e,
    decode KCurve curve_record_short = Raise e
    /\ decoding_error e = true
    /\ forall declared available, e <> ParameterCountError declared available.
Proof.
  apply (@short_record_raises KCurve curve_record_short 33);
    [vm_compute; reflexivity | vm_compute; reflexivity].
Defined.

(** Count-prefixed records one token short: the Face announces two loops
    and holds one, the edge of the Loop announces one parameter-space curve
    and holds half of it. *)
Lemma short_counted_records_raise :
  required_length KFace face_record_short = Some 6
  /\ len face_record_short = 5
  /\ decode KFace face_record_short = Raise IndexError
  /\ required_length KLoop loop_record_short = Some 9
  /\ len loop_record_short = 8
  /\ decode KLoop loop_record_short = Raise IndexError.
Proof. repeat split; vm_compute; reflexivity. Qed.
